(** * Saysomething: the survey server's validation and aggregation engine

    A shallow embedding of [public/project/main.js], the Express server that
    holds one survey in memory, validates submitted answers against the
    survey's questions, stores them and aggregates them on demand.

    Conventions of the embedding.

    - A JSON answer is a [value]: null, a boolean, a number, a string or an
      array of answers; [VUndefined] is what reading a missing property
      gives, and [VMember] what reading the name of a member of
      [Object.prototype] gives on an object that has no such property of
      its own.  Nested JSON objects as answers are not part of the model.
    - A number of the model is an integer-valued Number, held as the
      integer it is ([Z]), [Infinity] or [NaN]; numbers with a fraction are
      not part of the model.  Every integer of magnitude below [2^53] is a
      Number; what [parseInt] reads and what an addition gives is rounded
      to the nearest Number with the standard library's [SpecFloat], which
      also computes the quotient of the average.
    - A JS string is a [string] of code units below 256.
    - [req.body] and [store.surveys] are plain objects: finite maps keyed
      by strings for their own properties, behind which the members of
      [Object.prototype] are found.  The model follows the process as long
      as these members are as the runtime made them: a request that
      assigns to one of them ([strays]) is answered as the code answers
      it, and the model says nothing about the requests after it.
    - The survey handed over when the process starts is the one the
      creator page wrote: its id is not ["__proto__"].
    - [Date] and [Math.random] are inputs of the operation that reads them;
      the clock and the counter of the survey ids are integers below
      [2^53], which [string_of_Z] prints as JS does.

    Besides the routes of the API, the file covers the CSV export, the
    guards of the pages and the health check of the server, and
    [handleSurveyCreation] of the creator page [src/main.js], which builds
    the survey the server is started on. *)

From Stdlib Require Import ZArith Bool String Ascii List Lia DecimalString.
From Stdlib Require Import SpecFloat DecimalPos.
From stdpp Require Import gmap strings list fin_maps.

Open Scope string_scope.
Open Scope list_scope.
Open Scope Z_scope.
Open Scope stdpp_scope.

(** ** JavaScript values and the coercions the server relies on *)

Module Js.

(** The properties of [Object.prototype], which every plain object
    inherits: eleven functions and the accessor [__proto__], whose value is
    [Object.prototype] itself. *)
Inductive member :=
  | Constructor
  | DefineGetter
  | DefineSetter
  | HasOwnProperty
  | LookupGetter
  | LookupSetter
  | IsPrototypeOf
  | PropertyIsEnumerable
  | ToStringMember
  | ValueOf
  | Proto
  | ToLocaleString.

Definition member_name (m : member) : string :=
  match m with
  | Constructor => "constructor"
  | DefineGetter => "__defineGetter__"
  | DefineSetter => "__defineSetter__"
  | HasOwnProperty => "hasOwnProperty"
  | LookupGetter => "__lookupGetter__"
  | LookupSetter => "__lookupSetter__"
  | IsPrototypeOf => "isPrototypeOf"
  | PropertyIsEnumerable => "propertyIsEnumerable"
  | ToStringMember => "toString"
  | ValueOf => "valueOf"
  | Proto => "__proto__"
  | ToLocaleString => "toLocaleString"
  end.

Definition members : list member :=
  [ Constructor; DefineGetter; DefineSetter; HasOwnProperty; LookupGetter;
    LookupSetter; IsPrototypeOf; PropertyIsEnumerable; ToStringMember;
    ValueOf; Proto; ToLocaleString ].

(** The member of [Object.prototype] of that name, if there is one. *)
Definition inherited (k : string) : option member :=
  List.find (fun m => String.eqb (member_name m) k) members.

(** [f.length], the number of parameters of the function; the prototype
    itself has no length. *)
Definition member_length (m : member) : option Z :=
  match m with
  | Proto => None
  | ToStringMember | ValueOf | ToLocaleString => Some 0
  | DefineGetter | DefineSetter => Some 2
  | _ => Some 1
  end.

(** [String(f)] of a built-in function, as V8 prints it, and of the
    prototype; the function [constructor] holds is [Object]. *)
Definition member_string (m : member) : string :=
  match m with
  | Proto => "[object Object]"
  | Constructor => "function Object() { [native code] }"
  | _ => "function " +:+ member_name m +:+ "() { [native code] }"
  end.

#[warnings="-register-all"]
Inductive value :=
  | VUndefined
  | VNull
  | VBool (b : bool)
  | VNum (n : Z)
  | VStr (s : string)
  | VArr (l : list value)
  | VMember (m : member).

(** [ToBoolean]: what [if (answer)] and [!answer] test. *)
Definition truthy (v : value) : bool :=
  match v with
  | VUndefined | VNull => false
  | VBool b => b
  | VNum n => negb (n =? 0)
  | VStr s => negb (String.eqb s EmptyString)
  | VArr _ => true
  | VMember _ => true
  end.

Definition isArray (v : value) : bool :=
  match v with VArr _ => true | _ => false end.

Definition isString (v : value) : bool :=
  match v with VStr _ => true | _ => false end.

(** *** Numbers *)

(** The decimal digits of an integer. *)
Definition string_of_Z (n : Z) : string := NilZero.string_of_int (Z.to_int n).

Definition string_of_nat (n : nat) : string := string_of_Z (Z.of_nat n).

(** What a computation gives: an integer-valued Number, as the integer it
    is, an infinity or NaN.  The zero with a sign is the zero: the server
    only compares, adds and prints it, and none of these tells the two
    apart. *)
Inductive number :=
  | NaN
  | Int (n : Z)
  | Infinity (negative : bool).

(** The binary64 nearest to an integer, ties to the even mantissa. *)
Definition binary64 (n : Z) : spec_float := binary_normalize 53 1024 n 0 false.

Definition of_float (x : spec_float) : number :=
  match x with
  | S754_zero _ => Int 0
  | S754_infinity s => Infinity s
  | S754_nan => NaN
  | S754_finite s m e => Int (cond_Zopp s (Z.shiftl (Zpos m) e))
  end.

(** The Number nearest to an integer: the integer itself below [2^53]. *)
Definition round64 (n : Z) : number := of_float (binary64 n).

(** [Number::toString] from [2^53] on.  The digits are those of the integer
    [s * 10^(n - k)] with the fewest significant digits [k] whose Number is
    [X]; of two such integers the one nearer to [X], and of two equally
    near the one with [s] even. *)
Definition shortestAt (X p : Z) : option Z :=
  let lo := X / p * p in
  let hi := lo + p in
  let reads c := match round64 c with Int v => v =? X | _ => false end in
  match reads lo, reads hi with
  | true, true =>
      Some (if X - lo <? hi - X then lo
            else if hi - X <? X - lo then hi
            else if Z.even (X / p) then lo else hi)
  | true, false => Some lo
  | false, true => Some hi
  | false, false => None
  end.

Fixpoint shortestFrom (X D : Z) (ks : list Z) : Z :=
  match ks with
  | [] => X
  | k :: rest =>
      match shortestAt X (10 ^ (D - k)) with
      | Some c => c
      | None => shortestFrom X D rest
      end
  end.

Definition shortest (X : Z) : Z :=
  shortestFrom X (Z.of_nat (String.length (string_of_Z X)))
               [1; 2; 3; 4; 5; 6; 7; 8; 9; 10; 11; 12; 13; 14; 15; 16; 17].

Fixpoint stripZeros (s : string) : string :=
  match s with
  | EmptyString => EmptyString
  | String c rest =>
      let r := stripZeros rest in
      if Ascii.eqb c "0"%char && String.eqb r EmptyString then EmptyString
      else String c r
  end.

(** From [10^21] on the digits are followed by the exponent. *)
Definition exponential (v : Z) : string :=
  let digits := string_of_Z v in
  let e := string_of_Z (Z.of_nat (String.length digits) - 1) in
  match stripZeros digits with
  | String d EmptyString => String d EmptyString +:+ "e+" +:+ e
  | String d rest => String d EmptyString +:+ "." +:+ rest +:+ "e+" +:+ e
  | EmptyString => digits
  end.

Definition largeNumberString (X : Z) : string :=
  let v := shortest X in
  if v <? 10 ^ 21 then string_of_Z v else exponential v.

(** [String(n)] for an integer-valued number: its decimal digits below
    [2^53], where every integer is a Number. *)
Definition numberString (n : Z) : string :=
  if Z.abs n <? 2 ^ 53 then string_of_Z n
  else
    match round64 n with
    | Int v =>
        (if v <? 0 then "-" else EmptyString) +:+ largeNumberString (Z.abs v)
    | Infinity s => if s then "-Infinity" else "Infinity"
    | NaN => "NaN"
    end.

(** [ToString]; an array prints its elements separated by commas, with
    null and undefined elements printed as nothing. *)
Fixpoint ToString (v : value) : string :=
  match v with
  | VUndefined => "undefined"
  | VNull => "null"
  | VBool true => "true"
  | VBool false => "false"
  | VNum n => numberString n
  | VStr s => s
  | VMember m => member_string m
  | VArr l =>
      (fix join (l : list value) : string :=
         match l with
         | [] => EmptyString
         | x :: rest =>
             let sx := match x with
                       | VUndefined | VNull => EmptyString
                       | _ => ToString x
                       end in
             match rest with
             | [] => sx
             | _ :: _ => sx +:+ "," +:+ join rest
             end
         end) l
  end.

(** [answer.length > bound]: strings, arrays and functions have a length,
    on the other values the property is undefined and the comparison is
    false. *)
Definition length_gt (v : value) (bound : Z) : bool :=
  match v with
  | VStr s => bound <? Z.of_nat (String.length s)
  | VArr l => bound <? Z.of_nat (length l)
  | VMember m =>
      match member_length m with
      | Some n => bound <? n
      | None => false
      end
  | _ => false
  end.

(** [ids.includes(a)] on an array of strings: SameValueZero never
    identifies a string with a value of another type. *)
Definition includes (ids : list string) (a : value) : bool :=
  match a with
  | VStr s => existsb (String.eqb s) ids
  | _ => false
  end.

(** *** parseInt *)

Definition isStrWhiteSpaceChar (c : ascii) : bool :=
  let n := nat_of_ascii c in
  existsb (Nat.eqb n) [9; 10; 11; 12; 13; 32; 160]%nat.

Fixpoint trimStart (s : string) : string :=
  match s with
  | String c rest => if isStrWhiteSpaceChar c then trimStart rest else s
  | EmptyString => EmptyString
  end.

(** The value of a code unit as a digit in some radix up to 36. *)
Definition digitValue (c : ascii) : option Z :=
  let n := Z.of_nat (nat_of_ascii c) in
  if (48 <=? n) && (n <=? 57) then Some (n - 48)
  else if (97 <=? n) && (n <=? 122) then Some (n - 87)
  else if (65 <=? n) && (n <=? 90) then Some (n - 55)
  else None.

(** The longest prefix of radix-[R] digits, read as a number; [acc] is
    [None] until a digit has been seen. *)
Fixpoint radixDigits (R : Z) (s : string) (acc : option Z) : option Z :=
  match s with
  | EmptyString => acc
  | String c rest =>
      match digitValue c with
      | Some d =>
          if d <? R
          then radixDigits R rest (Some (default 0 acc * R + d))
          else acc
      | None => acc
      end
  end.

(** [parseInt(s)] without a radix argument.  First the integer the sign and
    the digits denote, [mathInt] in the standard; there is none when no
    digit follows the sign. *)
Definition mathInt (s : string) : option Z :=
  let s0 := trimStart s in
  let '(sign, s1) :=
    match s0 with
    | String "-"%char rest => (-1, rest)
    | String "+"%char rest => (1, rest)
    | _ => (1, s0)
    end in
  let '(R, s2) :=
    match s1 with
    | String "0"%char (String "x"%char rest) => (16, rest)
    | String "0"%char (String "X"%char rest) => (16, rest)
    | _ => (10, s1)
    end in
  match radixDigits R s2 None with
  | Some n => Some (sign * n)
  | None => None
  end.

(** Then its Number: the integer rounded to the nearest Number (as V8
    rounds, whatever the number of digits), or NaN. *)
Definition parseIntString (s : string) : number :=
  match mathInt s with
  | Some n => round64 n
  | None => NaN
  end.

(** [parseInt(v)]: the argument is first converted to a string. *)
Definition parseInt (v : value) : number := parseIntString (ToString v).

(** [isNaN(x)] *)
Definition isNaN (x : number) : bool :=
  match x with NaN => true | _ => false end.

(** [a + b]: the exact sum rounded to the nearest Number, as IEEE 754
    defines the addition. *)
Definition add (a b : number) : number :=
  match a, b with
  | NaN, _ | _, NaN => NaN
  | Int x, Int y => round64 (x + y)
  | Infinity s, Int _ => Infinity s
  | Int _, Infinity s => Infinity s
  | Infinity s, Infinity s' => if Bool.eqb s s' then Infinity s else NaN
  end.

(** [a < b] *)
Definition lt (a b : number) : bool :=
  match a, b with
  | NaN, _ | _, NaN => false
  | Int x, Int y => x <? y
  | Infinity s, Int _ => s
  | Int _, Infinity s => negb s
  | Infinity s, Infinity s' => s && negb s'
  end.

End Js.

Import Js.

(** ** The schema: questions, surveys, responses *)

Inductive qtype := Text | MultipleChoice | SingleChoice | Scale | OtherType.

Record choice := { opt_id : string; opt_label : string }.

(** A question; [Id] is [option string] in a creation or update payload,
    where the id may be missing, and [string] once the survey is stored.
    The bounds of a scale are integer-valued Numbers; the options of a
    question that is no choice, and the bounds of one that is no scale, are
    not read. *)
Record question_ (Id : Type) := {
  q_id : Id;
  q_text : string;
  q_required : bool;
  q_type : qtype;
  q_options : list choice;
  q_minValue : Z;
  q_maxValue : Z
}.
Arguments q_id {Id} _.
Arguments q_text {Id} _.
Arguments q_required {Id} _.
Arguments q_type {Id} _.
Arguments q_options {Id} _.
Arguments q_minValue {Id} _.
Arguments q_maxValue {Id} _.

Abbreviation question := (question_ string).
Abbreviation question_input := (question_ (option string)).

Record response := {
  r_id : string;
  r_data : gmap string value;
  r_submittedAt : string
}.

Record survey := {
  s_id : string;
  s_title : string;
  s_description : string;
  s_questions : list question;
  s_responses : list response;
  s_createdAt : string;
  s_adminToken : string;
  s_updatedAt : option string
}.

(** [obj[key]] on a request body: the property of its own, or else the
    member of [Object.prototype] of that name. *)
Definition prop (body : gmap string value) (key : string) : value :=
  match body !! key with
  | Some v => v
  | None =>
      match inherited key with
      | Some m => VMember m
      | None => VUndefined
      end
  end.

(** ** validateResponse *)

Definition dquote : string := String (ascii_of_nat 34) EmptyString.

Definition quoted (s : string) : string := dquote +:+ s +:+ dquote.

Definition msg_required (q : question) : string :=
  "Question " +:+ quoted (q_text q) +:+ " is required".

Definition msg_text (q : question) : string :=
  "Question " +:+ quoted (q_text q) +:+ " must be text".

Definition msg_long (q : question) : string :=
  "Question " +:+ quoted (q_text q) +:+ " response too long (max 5000 chars)".

Definition msg_option (q : question) : string :=
  "Invalid option selected for " +:+ quoted (q_text q).

Definition msg_scale (q : question) : string :=
  "Scale answer for " +:+ quoted (q_text q) +:+ " must be between "
  +:+ numberString (q_minValue q) +:+ " and " +:+ numberString (q_maxValue q).

Definition validOptions (q : question) : list string :=
  map opt_id (q_options q).

Definition check_text (q : question) (answer : value) : list string :=
  (if truthy answer && negb (isString answer) then [msg_text q] else [])
  ++ (if truthy answer && length_gt answer 5000 then [msg_long q] else []).

Definition check_choice (q : question) (answer : value) : list string :=
  if truthy answer then
    match answer with
    | VArr l =>
        if forallb (includes (validOptions q)) l then [] else [msg_option q]
    | _ =>
        if includes (validOptions q) answer then [] else [msg_option q]
    end
  else [].

(** [isNaN(num) || num < question.minValue || num > question.maxValue] *)
Definition scale_out_of_range (q : question) (num : number) : bool :=
  isNaN num || lt num (Int (q_minValue q)) || lt (Int (q_maxValue q)) num.

Definition check_scale (q : question) (answer : value) : list string :=
  if truthy answer then
    if scale_out_of_range q (parseInt answer) then [msg_scale q] else []
  else [].

(** The switch on the question's type. *)
Definition check_type (q : question) (answer : value) : list string :=
  match q_type q with
  | Text => check_text q answer
  | MultipleChoice | SingleChoice => check_choice q answer
  | Scale => check_scale q answer
  | OtherType => []
  end.

(** One turn of the loop: what it pushes on [errors]. *)
Definition validate_question (q : question) (answer : value) : list string :=
  if q_required q && negb (truthy answer) then [msg_required q]
  else check_type q answer.

(** The loop over the questions, in schema order. *)
Definition validate_questions (qs : list question) (body : gmap string value)
  : list string :=
  concat (map (fun q => validate_question q (prop body (q_id q))) qs).

Definition validateResponse (sv : survey) (body : gmap string value)
  : list string :=
  validate_questions (s_questions sv) body.

(** ** The in-memory store and the routes that change it *)

Record store := {
  surveys : gmap string survey;
  nextId : Z;
  currentSurveyId : option string;
  currentSurveyAdminToken : option string
}.

(** What a handler reads from the clock and the random generator:
    [Date.now()], [new Date().toISOString()], [Math.random().toString(36)],
    and the origin [req.protocol + "://" + req.get('host')]. *)
Record env := {
  now_ms : Z;
  now_iso : string;
  random36 : string;
  origin : string
}.

(** [InternalError] is the answer of the [catch] block of a route. *)
Inductive failure :=
  | NotFound
  | Unauthorized
  | AlreadyActive (surveyId : string)
  | InvalidSurveyData
  | ValidationFailed (errors : list string)
  | InternalError.

Definition status (f : failure) : Z :=
  match f with
  | NotFound => 404
  | Unauthorized => 403
  | AlreadyActive _ => 409
  | InvalidSurveyData => 400
  | ValidationFailed _ => 400
  | InternalError => 500
  end.

(** [Stray] is the answer 200 of a route that was given the name of a
    member of [Object.prototype] as survey id and took the member for the
    survey: the answer holds what the member has under the names of a
    survey's fields, which is nothing as the runtime made it. *)
Inductive outcome (A : Type) :=
  | Ok (a : A)
  | Fail (f : failure)
  | Stray.
Arguments Ok {A} a.
Arguments Fail {A} f.
Arguments Stray {A}.

(** [store.surveys[surveyId]]: a survey of the store, or else the member of
    [Object.prototype] of that name. *)
Inductive found :=
  | Own (sv : survey)
  | Inherited (m : member)
  | Missing.

Definition surveyAt (st : store) (surveyId : string) : found :=
  match surveys st !! surveyId with
  | Some sv => Own sv
  | None =>
      match inherited surveyId with
      | Some m => Inherited m
      | None => Missing
      end
  end.

(** Truthiness of a property that is a string when it is there. *)
Definition present (o : option string) : bool :=
  match o with
  | Some s => negb (String.eqb s EmptyString)
  | None => false
  end.

(** [o || d]. *)
Definition or_else (o : option string) (d : string) : string :=
  match o with
  | Some s => if String.eqb s EmptyString then d else s
  | None => d
  end.

(** [questions.map((q, idx) => ({...q, id: q.id || `q_${idx}`}))]. *)
Definition assign_id (idx : nat) (q : question_input) : question :=
  {| q_id := or_else (q_id q) ("q_" +:+ string_of_nat idx);
     q_text := q_text q;
     q_required := q_required q;
     q_type := q_type q;
     q_options := q_options q;
     q_minValue := q_minValue q;
     q_maxValue := q_maxValue q |}.

Definition assign_ids (qs : list question_input) : list question :=
  imap assign_id qs.

(** [Math.random().toString(36).substring(2, 15)] and [.substr(2, 9)]. *)
Definition random_token (e : env) : string := substring 2 13 (random36 e).
Definition random_suffix (e : env) : string := substring 2 9 (random36 e).

Definition generateId (st : store) : string * store :=
  ("survey_" +:+ string_of_Z (nextId st),
   {| surveys := surveys st;
      nextId := nextId st + 1;
      currentSurveyId := currentSurveyId st;
      currentSurveyAdminToken := currentSurveyAdminToken st |}).

(** The survey handed over by the parent page, [window.surveyData] or
    [survey-data.js]. *)
Record survey_data := {
  sd_surveyId : option string;
  sd_title : string;
  sd_description : option string;
  sd_questions : list question_input;
  sd_adminToken : option string
}.

Definition initializeSurvey (st : store) (d : option survey_data) (e : env)
  : store * option string :=
  match d with
  | Some d =>
      let '(surveyId, st1) :=
        if present (sd_surveyId d) then (or_else (sd_surveyId d) EmptyString, st)
        else generateId st in
      let sv :=
        {| s_id := surveyId;
           s_title := sd_title d;
           s_description := or_else (sd_description d) EmptyString;
           s_questions := assign_ids (sd_questions d);
           s_responses := [];
           s_createdAt := now_iso e;
           s_adminToken := or_else (sd_adminToken d) (random_token e);
           s_updatedAt := None |} in
      ({| surveys := <[surveyId := sv]> (surveys st1);
          nextId := nextId st1;
          currentSurveyId := Some surveyId;
          currentSurveyAdminToken := Some (s_adminToken sv) |},
       Some surveyId)
  | None => (st, None)
  end.

Definition empty_store : store :=
  {| surveys := ∅; nextId := 1;
     currentSurveyId := None; currentSurveyAdminToken := None |}.

(** Module load: the survey of the parent window, when there is one, then
    the one of [survey-data.js], when that file exports a survey id. *)
Definition boot (window_data file_data : option survey_data) (e : env) : store :=
  let st1 := fst (initializeSurvey empty_store window_data e) in
  match file_data with
  | Some d =>
      if present (sd_surveyId d) then fst (initializeSurvey st1 file_data e)
      else st1
  | None => st1
  end.

(** The body of a creation or update request; [b_elements] are the
    elements of [questions] when it is an array, an element that is null
    being [None]. *)
Record survey_body := {
  b_title : option string;
  b_description : option string;
  b_elements : option (list (option question_input))
}.

(** The elements when none is null: [q.id] throws on null. *)
Definition questionObjects (l : list (option question_input))
  : option (list question_input) :=
  mapM id l.

(** The questions of a body whose [questions] are an array of objects. *)
Definition b_questions (b : survey_body) : option (list question_input) :=
  match b_elements b with
  | Some l => questionObjects l
  | None => None
  end.

(** [!title || !questions || !Array.isArray(questions) ||
     questions.length === 0]. *)
Definition invalid_body (b : survey_body) : bool :=
  negb (present (b_title b))
  || match b_elements b with
     | Some (_ :: _) => false
     | _ => true
     end.

Record created := {
  c_id : string;
  c_adminToken : string;
  c_clientUrl : string;
  c_adminUrl : string
}.

(** POST /api/surveys; when an element of [questions] is null the route
    has called [generateId] before [questions.map] throws. *)
Definition createSurvey (st : store) (b : survey_body) (e : env)
  : store * outcome created :=
  if present (currentSurveyId st) then
    (st, Fail (AlreadyActive (or_else (currentSurveyId st) EmptyString)))
  else if invalid_body b then (st, Fail InvalidSurveyData)
  else
    let '(surveyId, st1) := generateId st in
    match b_questions b with
    | None => (st1, Fail InternalError)
    | Some questions =>
        let sv :=
          {| s_id := surveyId;
             s_title := or_else (b_title b) EmptyString;
             s_description := or_else (b_description b) EmptyString;
             s_questions := assign_ids questions;
             s_responses := [];
             s_createdAt := now_iso e;
             s_adminToken := random_token e;
             s_updatedAt := None |} in
        ({| surveys := <[surveyId := sv]> (surveys st1);
            nextId := nextId st1;
            currentSurveyId := Some surveyId;
            currentSurveyAdminToken := Some (s_adminToken sv) |},
         Ok {| c_id := surveyId;
               c_adminToken := s_adminToken sv;
               c_clientUrl := origin e +:+ "/survey/" +:+ surveyId;
               c_adminUrl := origin e +:+ "/admin/" +:+ surveyId +:+ "?token="
                             +:+ s_adminToken sv |})
    end.

Record updated := {
  u_id : string;
  u_title : string;
  u_description : string;
  u_questions : list question
}.

Definition with_survey (st : store) (surveyId : string) (sv : survey) : store :=
  {| surveys := <[surveyId := sv]> (surveys st);
     nextId := nextId st;
     currentSurveyId := currentSurveyId st;
     currentSurveyAdminToken := currentSurveyAdminToken st |}.

(** The survey after [survey.title = title; survey.description =
    description || ''], the two assignments that precede [questions.map]. *)
Definition retitled (sv : survey) (b : survey_body) : survey :=
  {| s_id := s_id sv;
     s_title := or_else (b_title b) EmptyString;
     s_description := or_else (b_description b) EmptyString;
     s_questions := s_questions sv;
     s_responses := s_responses sv;
     s_createdAt := s_createdAt sv;
     s_adminToken := s_adminToken sv;
     s_updatedAt := s_updatedAt sv |}.

(** PUT /api/surveys/:surveyId?token=...  A member of [Object.prototype]
    has no [adminToken]: the token check passes when the request carries no
    token, and the route assigns the title, the description and the
    questions to the member. *)
Definition updateSurvey (st : store) (surveyId : string)
    (token : option string) (b : survey_body) (e : env)
  : store * outcome updated :=
  match surveyAt st surveyId with
  | Missing => (st, Fail NotFound)
  | Inherited _ =>
      if negb (bool_decide (token = None)) then (st, Fail Unauthorized)
      else if invalid_body b then (st, Fail InvalidSurveyData)
      else
        match b_questions b with
        | None => (st, Fail InternalError)
        | Some _ => (st, Stray)
        end
  | Own sv =>
      if negb (bool_decide (token = Some (s_adminToken sv)))
      then (st, Fail Unauthorized)
      else if invalid_body b then (st, Fail InvalidSurveyData)
      else
        match b_questions b with
        | None => (with_survey st surveyId (retitled sv b), Fail InternalError)
        | Some questions =>
            let sv' :=
              {| s_id := s_id sv;
                 s_title := or_else (b_title b) EmptyString;
                 s_description := or_else (b_description b) EmptyString;
                 s_questions := assign_ids questions;
                 s_responses := s_responses sv;
                 s_createdAt := s_createdAt sv;
                 s_adminToken := s_adminToken sv;
                 s_updatedAt := Some (now_iso e) |} in
            (with_survey st surveyId sv',
             Ok {| u_id := s_id sv';
                   u_title := s_title sv';
                   u_description := s_description sv';
                   u_questions := s_questions sv' |})
        end
  end.

(** The survey without its responses and its admin token. *)
Record public_view := {
  p_id : string;
  p_title : string;
  p_description : string;
  p_questions : list question;
  p_createdAt : string;
  p_updatedAt : option string
}.

(** GET /api/surveys/:surveyId *)
Definition getSurvey (st : store) (surveyId : string) : outcome public_view :=
  match surveyAt st surveyId with
  | Missing => Fail NotFound
  | Inherited _ => Stray
  | Own sv =>
      Ok {| p_id := s_id sv;
            p_title := s_title sv;
            p_description := s_description sv;
            p_questions := s_questions sv;
            p_createdAt := s_createdAt sv;
            p_updatedAt := s_updatedAt sv |}
  end.

(** GET /api/surveys/:surveyId/admin?token=... *)
Definition getAdmin (st : store) (surveyId : string) (token : option string)
  : outcome survey :=
  match surveyAt st surveyId with
  | Missing => Fail NotFound
  | Inherited _ =>
      if negb (bool_decide (token = None)) then Fail Unauthorized else Stray
  | Own sv =>
      if negb (bool_decide (token = Some (s_adminToken sv)))
      then Fail Unauthorized
      else Ok sv
  end.

Definition push_response (sv : survey) (r : response) : survey :=
  {| s_id := s_id sv;
     s_title := s_title sv;
     s_description := s_description sv;
     s_questions := s_questions sv;
     s_responses := s_responses sv ++ [r];
     s_createdAt := s_createdAt sv;
     s_adminToken := s_adminToken sv;
     s_updatedAt := s_updatedAt sv |}.

Definition new_response (body : gmap string value) (e : env) : response :=
  {| r_id := "response_" +:+ string_of_Z (now_ms e) +:+ "_" +:+ random_suffix e;
     r_data := body;
     r_submittedAt := now_iso e |}.

(** POST /api/surveys/:surveyId/responses; the reply carries the id of the
    stored response.  A member of [Object.prototype] has no [questions]:
    [validateResponse] throws. *)
Definition submitResponse (st : store) (surveyId : string)
    (body : gmap string value) (e : env) : store * outcome string :=
  match surveyAt st surveyId with
  | Missing => (st, Fail NotFound)
  | Inherited _ => (st, Fail InternalError)
  | Own sv =>
      let errors := validateResponse sv body in
      match errors with
      | _ :: _ => (st, Fail (ValidationFailed errors))
      | [] =>
          let r := new_response body e in
          (with_survey st surveyId (push_response sv r), Ok (r_id r))
      end
  end.

(** ** The own properties of a JS object, in enumeration order

    [optionCounts] is a plain object filled key by key and read back with
    [Object.entries]: keys that are array indices come first, in increasing
    order, the other keys follow in the order they were created; writing to
    a key that exists keeps its place. *)

Module Obj.
Section Obj.
Context {V : Type}.

(** A canonical numeric string below [2^32 - 1]. *)
Definition arrayIndex (k : string) : option Z :=
  match radixDigits 10 k None with
  | Some n =>
      if (n <=? 4294967294) && String.eqb (string_of_Z n) k
      then Some n else None
  | None => None
  end.

Fixpoint get (o : list (string * V)) (k : string) : option V :=
  match o with
  | [] => None
  | (k', v) :: rest => if String.eqb k' k then Some v else get rest k
  end.

Fixpoint replace (o : list (string * V)) (k : string) (v : V)
  : list (string * V) :=
  match o with
  | [] => []
  | (k', v') :: rest =>
      if String.eqb k' k then (k', v) :: rest
      else (k', v') :: replace rest k v
  end.

(** A new index key goes before the first larger index and before the
    first key that is not an index. *)
Fixpoint insert_index (o : list (string * V)) (n : Z) (k : string) (v : V)
  : list (string * V) :=
  match o with
  | [] => [(k, v)]
  | (k', v') :: rest =>
      match arrayIndex k' with
      | Some n' =>
          if n <? n' then (k, v) :: o
          else (k', v') :: insert_index rest n k v
      | None => (k, v) :: o
      end
  end.

(** [o[k] = v], for a key other than [__proto__], whose assignment creates
    no property. *)
Definition set (o : list (string * V)) (k : string) (v : V)
  : list (string * V) :=
  match get o k with
  | Some _ => replace o k v
  | None =>
      match arrayIndex k with
      | Some n => insert_index o n k v
      | None => o ++ [(k, v)]
      end
  end.
End Obj.
End Obj.

(** ** Aggregation: GET /api/surveys/:surveyId/results *)

Record cell := { label : string; count : nat }.

(** [optionCounts[opt.id] = { label: opt.label, count: 0 }]; assigning to
    [__proto__] replaces the prototype of the object and gives it no
    property of its own. *)
Definition declare (o : list (string * cell)) (opt : choice)
  : list (string * cell) :=
  if String.eqb (opt_id opt) "__proto__" then o
  else Obj.set o (opt_id opt) {| label := opt_label opt; count := 0 |}.

(** [if (optionCounts[a]) optionCounts[a].count++]; the property key of a
    value is its string.  When the key is no property of the object's own,
    what is found behind it (a member of [Object.prototype], or a field of
    the cell assigned to [__proto__]) may be truthy; the increment then goes
    to that value and changes no property of the object. *)
Definition bump (o : list (string * cell)) (a : value)
  : list (string * cell) :=
  match Obj.get o (ToString a) with
  | Some c => Obj.set o (ToString a) {| label := label c; count := S (count c) |}
  | None => o
  end.

Definition tally (o : list (string * cell)) (answer : value)
  : list (string * cell) :=
  if truthy answer then
    match answer with
    | VArr l => fold_left bump l o
    | _ => bump o answer
    end
  else o.

Definition answers (q : question) (rs : list response) : list value :=
  map (fun r => prop (r_data r) (q_id q)) rs.

Definition optionCounts (q : question) (rs : list response)
  : list (string * cell) :=
  fold_left tally (answers q rs) (fold_left declare (q_options q) []).

Record option_result := { or_id : string; or_label : string; or_count : nat }.

Definition entry (kv : string * cell) : option_result :=
  {| or_id := fst kv; or_label := label (snd kv); or_count := count (snd kv) |}.

(** [survey.responses.map(r => parseInt(r.data[question.id]))
      .filter(v => !isNaN(v))] *)
Definition scaleValues (q : question) (rs : list response) : list number :=
  List.filter (fun v => negb (isNaN v)) (map parseInt (answers q rs)).

(** A number in binary64, and JS division. *)
Definition to_float (x : number) : spec_float :=
  match x with
  | NaN => S754_nan
  | Int n => binary64 n
  | Infinity s => S754_infinity s
  end.

Definition divide (x y : spec_float) : spec_float := SFdiv 53 1024 x y.

(** What [toFixed] returns: decimal digits, or, from [10^21] on, the
    shortest decimal that reads back as [x], which is left unprinted. *)
Inductive numeral :=
  | Digits (s : string)
  | Shortest (x : spec_float).

(** The integer [n] for which [n / 100] is nearest to [m * 2^e], the larger
    one of two. *)
Definition hundredths (m e : Z) : Z :=
  if 0 <=? e then 100 * m * 2 ^ e
  else (200 * m + 2 ^ (- e)) / 2 ^ (- e + 1).

Definition two_digits (n : Z) : string :=
  string_of_Z (n / 10) +:+ string_of_Z (n mod 10).

Definition fixed2 (negative : bool) (n : Z) : string :=
  (if negative then "-" else EmptyString)
  +:+ string_of_Z (n / 100) +:+ "." +:+ two_digits (n mod 100).

Definition at_least_1e21 (m e : Z) : bool :=
  if 0 <=? e then 10 ^ 21 <=? m * 2 ^ e
  else 10 ^ 21 * 2 ^ (- e) <=? m.

(** [x.toFixed(2)] *)
Definition toFixed2 (x : spec_float) : numeral :=
  match x with
  | S754_nan => Digits "NaN"
  | S754_infinity s => Digits (if s then "-Infinity" else "Infinity")
  | S754_zero _ => Digits (fixed2 false 0)
  | S754_finite s m e =>
      if at_least_1e21 (Zpos m) e then Shortest x
      else Digits (fixed2 s (hundredths (Zpos m) e))
  end.

(** [scaleValues.reduce((a, b) => a + b, 0)] *)
Definition total (values : list number) : number :=
  fold_left add values (Int 0).

Definition average (values : list number) : option numeral :=
  match values with
  | [] => None
  | _ :: _ =>
      Some (toFixed2 (divide (to_float (total values))
                             (binary64 (Z.of_nat (length values)))))
  end.

Inductive detail :=
  | TextResponses (responses : list value)
  | OptionCounts (options : list option_result)
  | ScaleStats (values : list number) (avg : option numeral)
  | NoDetail.

Record question_result := {
  qr_id : string;
  qr_text : string;
  qr_type : qtype;
  qr_detail : detail
}.

Definition questionResults (rs : list response) (q : question)
  : question_result :=
  {| qr_id := q_id q;
     qr_text := q_text q;
     qr_type := q_type q;
     qr_detail :=
       match q_type q with
       | Text => TextResponses (filter (fun v => truthy v = true) (answers q rs))
       | SingleChoice | MultipleChoice =>
           OptionCounts (map entry (optionCounts q rs))
       | Scale =>
           let values := scaleValues q rs in
           ScaleStats values (average values)
       | OtherType => NoDetail
       end |}.

Record results := {
  res_surveyId : string;
  res_title : string;
  res_totalResponses : nat;
  res_questions : list question_result
}.

Definition aggregate (sv : survey) : results :=
  {| res_surveyId := s_id sv;
     res_title := s_title sv;
     res_totalResponses := length (s_responses sv);
     res_questions := map (questionResults (s_responses sv)) (s_questions sv) |}.

(** A member of [Object.prototype] has no [adminToken] and no
    [responses]: a truthy token differs from the former, and
    [survey.responses.length] throws. *)
Definition getResults (st : store) (surveyId : string) (token : option string)
  : outcome results :=
  match surveyAt st surveyId with
  | Missing => Fail NotFound
  | Inherited _ =>
      if present token then Fail Unauthorized else Fail InternalError
  | Own sv =>
      if present token && negb (bool_decide (token = Some (s_adminToken sv)))
      then Fail Unauthorized
      else Ok (aggregate sv)
  end.

(** ** The server as a transition system *)

Inductive request :=
  | CreateSurvey (b : survey_body) (e : env)
  | UpdateSurvey (surveyId : string) (token : option string)
                 (b : survey_body) (e : env)
  | GetSurvey (surveyId : string)
  | GetAdmin (surveyId : string) (token : option string)
  | SubmitResponse (surveyId : string) (body : gmap string value) (e : env)
  | GetResults (surveyId : string) (token : option string).

Inductive reply :=
  | Created (o : outcome created)
  | Updated (o : outcome updated)
  | PublicView (o : outcome public_view)
  | AdminView (o : outcome survey)
  | Submitted (o : outcome string)
  | Aggregated (o : outcome results).

Definition handle (st : store) (rq : request) : store * reply :=
  match rq with
  | CreateSurvey b e =>
      let '(st', o) := createSurvey st b e in (st', Created o)
  | UpdateSurvey surveyId token b e =>
      let '(st', o) := updateSurvey st surveyId token b e in (st', Updated o)
  | GetSurvey surveyId => (st, PublicView (getSurvey st surveyId))
  | GetAdmin surveyId token => (st, AdminView (getAdmin st surveyId token))
  | SubmitResponse surveyId body e =>
      let '(st', o) := submitResponse st surveyId body e in (st', Submitted o)
  | GetResults surveyId token =>
      (st, Aggregated (getResults st surveyId token))
  end.

(** The store after a sequence of requests. *)
Definition run (st : store) (rqs : list request) : store :=
  fold_left (fun st rq => fst (handle st rq)) rqs st.

(** The stores the process can be in: booted, then serving requests. *)
Definition reachable (st : store) : Prop :=
  exists window_data file_data e rqs,
    st = run (boot window_data file_data e) rqs.

(** ** A sample survey

    The survey of the scenarios below: a required text question, a required
    single-choice question with the options [a] and [b], and a scale. *)

Definition text_question : question :=
  {| q_id := "q_0"; q_text := "Your name"; q_required := true;
     q_type := Text; q_options := []; q_minValue := 0; q_maxValue := 0 |}.

Definition pick_question : question :=
  {| q_id := "q_1"; q_text := "Pick one"; q_required := true;
     q_type := SingleChoice;
     q_options := [ {| opt_id := "a"; opt_label := "A" |};
                    {| opt_id := "b"; opt_label := "B" |} ];
     q_minValue := 0; q_maxValue := 0 |}.

(** The same choice, not required. *)
Definition optional_pick : question :=
  {| q_id := "q_1"; q_text := "Pick one"; q_required := false;
     q_type := SingleChoice;
     q_options := [ {| opt_id := "a"; opt_label := "A" |};
                    {| opt_id := "b"; opt_label := "B" |} ];
     q_minValue := 0; q_maxValue := 0 |}.

Definition scale_question (required : bool) (lo hi : Z) : question :=
  {| q_id := "q_2"; q_text := "Rate us"; q_required := required;
     q_type := Scale; q_options := []; q_minValue := lo; q_maxValue := hi |}.

Definition sample_survey (qs : list question) (rs : list response) : survey :=
  {| s_id := "survey_1"; s_title := "Feedback"; s_description := EmptyString;
     s_questions := qs; s_responses := rs;
     s_createdAt := "2024-01-01T00:00:00.000Z";
     s_adminToken := "k3y"; s_updatedAt := None |}.

Definition sample_store (sv : survey) : store :=
  {| surveys := {[ s_id sv := sv ]}; nextId := 2;
     currentSurveyId := Some (s_id sv);
     currentSurveyAdminToken := Some (s_adminToken sv) |}.

Definition sample_env : env :=
  {| now_ms := 1704067200000; now_iso := "2024-01-01T00:00:00.000Z";
     random36 := "0.4fzyo82mvyr"; origin := "http://localhost:3000" |}.

(** One stored response per answer to the question [key]. *)
Definition stored_answers (key : string) (l : list value) : list response :=
  map (fun v => {| r_id := "response_1"; r_data := {[ key := v ]};
                   r_submittedAt := "2024-01-01T00:00:00.000Z" |}) l.

(** ** The vocabulary of the properties *)


(** An ASCII letter. *)
Definition isLetter (c : ascii) : bool :=
  let n := nat_of_ascii c in
  ((65 <=? n) && (n <=? 90) || (97 <=? n) && (n <=? 122))%nat.

(** [a] is one of the option ids the question declares. *)
Definition declared (q : question) (a : value) : Prop :=
  exists s, a = VStr s /\ s ∈ validOptions q.

(** Whether the request can change the store. *)
Definition read_only (rq : request) : bool :=
  match rq with
  | GetSurvey _ | GetAdmin _ _ | GetResults _ _ => true
  | _ => false
  end.

(** A store that holds a survey has an active survey. *)
Definition populated_is_active (st : store) : Prop :=
  forall surveyId sv, surveys st !! surveyId = Some sv ->
                      present (currentSurveyId st) = true.

(** The active survey of a reachable store is one the store holds. *)
Definition active_is_stored (st : store) : Prop :=
  forall active, currentSurveyId st = Some active ->
                 is_Some (surveys st !! active).

(** The answer element [a], used as a property key, is the option [id]. *)
Definition names (id : string) (a : value) : bool :=
  String.eqb (ToString a) id.

(** How often the option [id] occurs in one stored answer: a truthy scalar
    counts once, a sequence once for each of its elements. *)
Definition occurrences (id : string) (answer : value) : nat :=
  if truthy answer then
    match answer with
    | VArr l => length (List.filter (names id) l)
    | _ => if names id answer then 1%nat else 0%nat
    end
  else 0%nat.

(** The occurrences of the option [id] over all stored answers. *)
Definition total_occurrences (id : string) (l : list value) : nat :=
  sum_list (map (occurrences id) l).


(** The cell after [n] increments of its count. *)
Definition add_count (n : nat) (c : cell) : cell :=
  {| label := label c; count := (count c + n)%nat |}.

(** The label the object holds for [k] once all options are declared: the
    one of the last option with that id. *)
Definition last_label (opts : list choice) (k : string) : option string :=
  fold_left (fun acc o => if String.eqb (opt_id o) k then Some (opt_label o)
                          else acc) opts None.

(** The sum of the magnitudes of the values: while it stays below [2^53],
    every value and every partial sum of the reduction is a safe integer. *)
Definition magnitude (values : list Z) : Z :=
  foldr (fun v acc => Z.abs v + acc) 0 values.

(** A mantissa of exactly 53 digits. *)
Definition normal (m : positive) : Prop := 2 ^ 52 <= Zpos m < 2 ^ 53.

(** Position of [r / d] within the unit interval. *)
Definition loc_of (d r : Z) : location :=
  if r =? 0 then loc_Exact else loc_Inexact (2 * r ?= d).

(** ** Sample data, continued *)


Definition scenario_body : survey_body :=
  {| b_title := Some "Feedback";
     b_description := None;
     b_elements :=
       Some [ Some {| q_id := None; q_text := "Your name"; q_required := true;
                      q_type := Text; q_options := [];
                      q_minValue := 0; q_maxValue := 0 |};
              Some {| q_id := None; q_text := "Rate us"; q_required := false;
                      q_type := Scale; q_options := [];
                      q_minValue := 1; q_maxValue := 5 |} ] |}.

Definition scenario_survey : survey :=
  {| s_id := "survey_1"; s_title := "Feedback"; s_description := EmptyString;
     s_questions :=
       [ {| q_id := "q_0"; q_text := "Your name"; q_required := true;
            q_type := Text; q_options := [];
            q_minValue := 0; q_maxValue := 0 |};
         {| q_id := "q_1"; q_text := "Rate us"; q_required := false;
            q_type := Scale; q_options := [];
            q_minValue := 1; q_maxValue := 5 |} ];
     s_responses := [];
     s_createdAt := "2024-01-01T00:00:00.000Z";
     s_adminToken := "4fzyo82mvyr"; s_updatedAt := None |}.

Definition scenario_store : store :=
  run (boot None None sample_env) [CreateSurvey scenario_body sample_env].

Definition scenario_answers : gmap string value :=
  {[ "q_0" := VStr "hi"; "q_1" := VStr "3"; "note" := VStr "kept" ]}.

(** ** The pages and the health check *)


(** GET /: the admin link the home page shows once a survey is active. *)
Definition homeAdminUrl (st : store) (origin : string) : option string :=
  if present (currentSurveyId st) then
    Some (origin +:+ "/admin/" +:+ or_else (currentSurveyId st) EmptyString
          +:+ "?token=" +:+ default "undefined" (currentSurveyAdminToken st))
  else None.

(** GET /survey/:surveyId, /admin/:surveyId and /results/:surveyId send
    their page unless [surveyId !== currentSurveyId]. *)
Definition pageServed (st : store) (surveyId : string) : bool :=
  bool_decide (currentSurveyId st = Some surveyId).

(** A stored question as a later payload carries it: with its id. *)
Definition as_input (q : question) : question_input :=
  {| q_id := Some (q_id q);
     q_text := q_text q;
     q_required := q_required q;
     q_type := q_type q;
     q_options := q_options q;
     q_minValue := q_minValue q;
     q_maxValue := q_maxValue q |}.

(** ** The CSV export: GET /api/surveys/:surveyId/export/csv *)

Definition quoteChar : ascii := ascii_of_nat 34.

Definition newlineChar : ascii := ascii_of_nat 10.

Definition newline : string := String newlineChar EmptyString.

(** The replacement the export applies to a field: every double quote is
    written twice. *)
Fixpoint doubleQuotes (s : string) : string :=
  match s with
  | EmptyString => EmptyString
  | String c rest =>
      if Ascii.eqb c quoteChar then String c (String c (doubleQuotes rest))
      else String c (doubleQuotes rest)
  end.

(** An element of a joined array: null and undefined print as nothing. *)
Definition elementString (v : value) : string :=
  match v with
  | VUndefined | VNull => EmptyString
  | _ => ToString v
  end.

(** [l.join(sep)] *)
Fixpoint join (sep : string) (l : list value) : string :=
  match l with
  | [] => EmptyString
  | x :: rest =>
      match rest with
      | [] => elementString x
      | _ :: _ => elementString x +:+ sep +:+ join sep rest
      end
  end.

(** The text of a cell: the answer, or the empty string when it is falsy;
    an array joined with a semicolon and a space; then [String(value)]. *)
Definition csvCell (v : value) : string :=
  let value := if truthy v then v else VStr EmptyString in
  match value with
  | VArr l => join "; " l
  | _ => ToString value
  end.

(** A comma, then the field between double quotes. *)
Definition csvField (s : string) : string :=
  "," +:+ quoted (doubleQuotes s).

Definition concatStrings (l : list string) : string :=
  fold_right append EmptyString l.

Definition csvHeader (qs : list question) : string :=
  quoted "Response ID" +:+ "," +:+ quoted "Submitted At"
  +:+ concatStrings (map (fun q => csvField (q_text q)) qs) +:+ newline.

(** The id and the date of a response are written between quotes as they
    are. *)
Definition csvRow (qs : list question) (r : response) : string :=
  quoted (r_id r) +:+ "," +:+ quoted (r_submittedAt r)
  +:+ concatStrings
        (map (fun q => csvField (csvCell (prop (r_data r) (q_id q)))) qs)
  +:+ newline.

Definition csvText (sv : survey) : string :=
  csvHeader (s_questions sv)
  +:+ concatStrings (map (csvRow (s_questions sv)) (s_responses sv)).

Definition exportCsv (st : store) (surveyId : string) (token : option string)
  : outcome string :=
  match surveyAt st surveyId with
  | Missing => Fail NotFound
  | Inherited _ =>
      if negb (bool_decide (token = None)) then Fail Unauthorized
      else Fail InternalError
  | Own sv =>
      if negb (bool_decide (token = Some (s_adminToken sv)))
      then Fail Unauthorized
      else Ok (csvText sv)
  end.

(** ** The survey creator of the page: [handleSurveyCreation]

    The page reads the form, builds the survey and, through
    [bootPodAndServeSurvey], writes it as JSON into [survey-data.js], the
    file the server loads when it starts.  The survey holds strings,
    booleans and integers, which JSON carries unchanged. *)

(** One [.question-card] of the form: the text, the selected type, the
    checkbox, the texts of the inputs of its [.options-list] and the values
    of the two number inputs, which the browser keeps empty or finite.  A choice card is taken to have its options
    list; the options of a card that is no choice and the bounds of one
    that is no scale stay undefined in the page, and are not read. *)
Record card := {
  c_text : string;
  c_type : qtype;
  c_required : bool;
  c_options : list string;
  c_min : string;
  c_max : string
}.

Record form := {
  f_title : string;
  f_description : string;
  f_cards : list card
}.

(** [parseInt(s) || d]: NaN and 0 give way to [d].  The value of a number
    input is the empty string or a finite number, so that [parseInt] gives
    no infinity. *)
Definition parseInt_or (s : string) (d : Z) : Z :=
  match parseInt (VStr s) with
  | Int n => if n =? 0 then d else n
  | _ => d
  end.

Definition cardOption (idx : nat) (text : string) : choice :=
  {| opt_id := "opt_" +:+ string_of_nat idx; opt_label := text |}.

Definition cardQuestion (c : card) : question_input :=
  {| q_id := None;
     q_text := c_text c;
     q_required := c_required c;
     q_type := c_type c;
     q_options :=
       match c_type c with
       | SingleChoice | MultipleChoice => imap cardOption (c_options c)
       | _ => []
       end;
     q_minValue :=
       match c_type c with Scale => parseInt_or (c_min c) 1 | _ => 0 end;
     q_maxValue :=
       match c_type c with Scale => parseInt_or (c_max c) 5 | _ => 0 end |}.

(** The survey handed to [bootPodAndServeSurvey], or nothing when the form
    is refused with [alert('Please complete the survey')]. *)
Definition handleSurveyCreation (f : form) (e : env) : option survey_data :=
  let questions := map cardQuestion (f_cards f) in
  let surveyData :=
    {| sd_surveyId := Some ("survey_" +:+ string_of_Z (now_ms e));
       sd_title := f_title f;
       sd_description := Some (f_description f);
       sd_questions := questions;
       sd_adminToken := Some (random_token e) |} in
  if String.eqb (f_title f) EmptyString || Nat.eqb (length questions) 0
  then None
  else Some surveyData.

(** The admin page the creator opens in the portal:
    [`${url}/admin/${surveyData.surveyId}?token=${surveyData.adminToken}`]. *)
Definition portalAdminUrl (url : string) (d : survey_data) : string :=
  url +:+ "/admin/" +:+ default "undefined" (sd_surveyId d)
  +:+ "?token=" +:+ default "undefined" (sd_adminToken d).

(** ** The vocabulary of the further properties *)

(** The number a string of decimal digits stands for, read after [acc]. *)
Fixpoint uint_val (d : Decimal.uint) (acc : Z) : Z :=
  match d with
  | Decimal.Nil => acc
  | Decimal.D0 l => uint_val l (acc * 10 + 0)
  | Decimal.D1 l => uint_val l (acc * 10 + 1)
  | Decimal.D2 l => uint_val l (acc * 10 + 2)
  | Decimal.D3 l => uint_val l (acc * 10 + 3)
  | Decimal.D4 l => uint_val l (acc * 10 + 4)
  | Decimal.D5 l => uint_val l (acc * 10 + 5)
  | Decimal.D6 l => uint_val l (acc * 10 + 6)
  | Decimal.D7 l => uint_val l (acc * 10 + 7)
  | Decimal.D8 l => uint_val l (acc * 10 + 8)
  | Decimal.D9 l => uint_val l (acc * 10 + 9)
  end.

(** A reply that reports a failure. *)
Definition is_failure {A} (o : outcome A) : bool :=
  match o with Fail _ => true | _ => false end.

(** The failure an outcome, and a reply, reports. *)
Definition outcome_failure {A} (o : outcome A) : option failure :=
  match o with Fail f => Some f | _ => None end.

Definition failure_of (r : reply) : option failure :=
  match r with
  | Created o => outcome_failure o
  | Updated o => outcome_failure o
  | PublicView o => outcome_failure o
  | AdminView o => outcome_failure o
  | Submitted o => outcome_failure o
  | Aggregated o => outcome_failure o
  end.

(** The request assigns to a member of [Object.prototype]: an update that
    names one as the survey, carries no token and has a title and a
    non-empty array of questions. *)
Definition strays (st : store) (rq : request) : bool :=
  match rq with
  | UpdateSurvey surveyId None b _ =>
      match surveyAt st surveyId with
      | Inherited _ => negb (invalid_body b)
      | _ => false
      end
  | _ => false
  end.

Definition failed (r : reply) : bool :=
  match r with
  | Created o => is_failure o
  | Updated o => is_failure o
  | PublicView o => is_failure o
  | AdminView o => is_failure o
  | Submitted o => is_failure o
  | Aggregated o => is_failure o
  end.

(** The active survey is stored under its own id, with the admin token the
    process remembers. *)
Definition active_token_known (st : store) : Prop :=
  (forall k sv, surveys st !! k = Some sv -> s_id sv = k)
  /\ forall active, currentSurveyId st = Some active ->
       active <> EmptyString
       /\ exists sv, surveys st !! active = Some sv
            /\ currentSurveyAdminToken st = Some (s_adminToken sv).

(** A reader of CSV text with every field between double quotes, fields
    separated by commas, rows ended by a newline, and a double quote inside
    a field written twice. *)
Inductive csv_state := FieldStart | InField | QuoteSeen.

Fixpoint readCsv (s : string) (state : csv_state) (field : string)
    (row : list string) (rows : list (list string))
  : option (list (list string)) :=
  match s with
  | EmptyString =>
      match state, row with
      | FieldStart, [] => Some rows
      | _, _ => None
      end
  | String c rest =>
      match state with
      | FieldStart =>
          if Ascii.eqb c quoteChar
          then readCsv rest InField EmptyString row rows
          else None
      | InField =>
          if Ascii.eqb c quoteChar then readCsv rest QuoteSeen field row rows
          else readCsv rest InField (field +:+ String c EmptyString) row rows
      | QuoteSeen =>
          if Ascii.eqb c quoteChar
          then readCsv rest InField (field +:+ String c EmptyString) row rows
          else if Ascii.eqb c ","%char
          then readCsv rest FieldStart EmptyString (row ++ [field]) rows
          else if Ascii.eqb c newlineChar
          then readCsv rest FieldStart EmptyString [] (rows ++ [row ++ [field]])
          else None
      end
  end.

Definition parseCsv (s : string) : option (list (list string)) :=
  readCsv s FieldStart EmptyString [] [].

(** No double quote occurs in [s]. *)
Fixpoint quoteFree (s : string) : bool :=
  match s with
  | EmptyString => true
  | String c rest => negb (Ascii.eqb c quoteChar) && quoteFree rest
  end.

(** The table an export stands for: the titles, then one row per response. *)
Definition csvTable (sv : survey) : list (list string) :=
  ("Response ID" :: "Submitted At" :: map q_text (s_questions sv))
  :: map (fun r =>
            r_id r :: r_submittedAt r
            :: map (fun q => csvCell (prop (r_data r) (q_id q)))
                   (s_questions sv))
         (s_responses sv).

(** [r] is the response a submission request of [rqs] creates. *)
Definition submitted_by (rqs : list request) (r : response) : Prop :=
  exists surveyId body e,
    SubmitResponse surveyId body e ∈ rqs /\ r = new_response body e.

(** The keys that are array indices come before the others, in increasing
    order. *)
Fixpoint index_first (ks : list string) : Prop :=
  match ks with
  | [] => True
  | k :: rest =>
      (forall b nb, b ∈ rest -> Obj.arrayIndex b = Some nb ->
         exists n, Obj.arrayIndex k = Some n /\ n < nb)
      /\ index_first rest
  end.

(** The line of the results for the option [o]. *)
Definition option_line (q : question) (rs : list response) (o : choice)
  : option_result :=
  {| or_id := opt_id o; or_label := opt_label o;
     or_count := total_occurrences (opt_id o) (answers q rs) |}.

(** * Properties *)

(** ** Strings *)

Lemma append_assoc (a b c : string) : (a +:+ b) +:+ c = a +:+ (b +:+ c).
Proof. induction a as [|x a IH]; [reflexivity | exact (f_equal (String x) IH)]. Qed.

Lemma append_snoc (f : string) (c : ascii) (t : string) :
  (f +:+ String c EmptyString) +:+ t = f +:+ String c t.
Proof. now rewrite append_assoc. Qed.

Lemma append_String (c : ascii) (s t : string) :
  String c s +:+ t = String c (s +:+ t).
Proof. reflexivity. Qed.

Lemma append_empty_r (s : string) : s +:+ EmptyString = s.
Proof. induction s as [|c s IH]; [reflexivity | exact (f_equal (String c) IH)]. Qed.

(** ** Numbers

    Every integer below [2^53] is a Number: rounding leaves it as it is. *)

Lemma digits2_size p : digits2_pos p = Pos.size p.
Proof. induction p; simpl; congruence. Qed.

Lemma digits_bounds p :
  2 ^ (Zpos (digits2_pos p) - 1) <= Zpos p < 2 ^ Zpos (digits2_pos p).
Proof.
  rewrite digits2_size. split.
  - pose proof (Pos.size_le p) as H.
    assert (H' : 2 ^ Zpos (Pos.size p) <= 2 * Zpos p).
    { change (2 * Z.pos p) with (Zpos p~0). rewrite <- Pos2Z.inj_pow. exact H. }
    replace (Z.pos (Pos.size p)) with (Z.pos (Pos.size p) - 1 + 1) in H' by lia.
    rewrite Z.pow_add_r in H' by lia. lia.
  - pose proof (Pos.size_gt p) as H.
    change (Z.pos p < Zpos 2 ^ Zpos (Pos.size p)). rewrite <- Pos2Z.inj_pow. exact H.
Qed.

Lemma digits_unique p d :
  2 ^ (d - 1) <= Zpos p < 2 ^ d -> Zpos (digits2_pos p) = d.
Proof.
  intros [H1 H2]. pose proof (digits_bounds p) as [H3 H4].
  assert (0 < d). { destruct (Z_lt_le_dec 0 d); [lia|]. 
    assert (2 ^ d <= 1). { destruct (Z.eq_dec d 0); [subst; simpl; lia|]. rewrite Z.pow_neg_r by lia. lia. } lia. }
  destruct (Z_lt_le_dec (Zpos (digits2_pos p)) d).
  - assert (2 ^ Zpos (digits2_pos p) <= 2 ^ (d - 1)) by (apply Z.pow_le_mono_r; lia). lia.
  - destruct (Z_lt_le_dec d (Zpos (digits2_pos p))); [|lia].
    assert (2 ^ d <= 2 ^ (Zpos (digits2_pos p) - 1)) by (apply Z.pow_le_mono_r; lia). lia.
Qed.

Lemma iter_xO p d : Zpos (Pos.iter xO p d) = Zpos p * 2 ^ Zpos d.
Proof.
  revert p. induction d using Pos.peano_ind; intros p.
  - simpl. lia.
  - rewrite Pos.iter_succ. rewrite Pos2Z.inj_xO, IHd.
    rewrite Pos2Z.inj_succ, Z.pow_succ_r by lia. lia.
Qed.

Lemma normal_digits m : normal m -> Zpos (digits2_pos m) = 53.
Proof. intros H. apply digits_unique. exact H. Qed.

Lemma shr_fexp_noshift m e l :
  normal m -> -1074 <= e ->
  shr_fexp 53 1024 (Zpos m) e l = (shr_record_of_loc (Zpos m) l, e).
Proof.
  intros Hm He. unfold shr_fexp, fexp, emin. cbn [Zdigits2].
  rewrite (normal_digits m Hm).
  match goal with |- shr _ _ ?n = _ => replace n with 0 by lia end.
  reflexivity.
Qed.

Lemma round_aux_exact s m e :
  normal m -> -1074 <= e <= 971 ->
  binary_round_aux 53 1024 s (Zpos m) e loc_Exact = S754_finite s m e.
Proof.
  intros Hm He. unfold binary_round_aux.
  rewrite shr_fexp_noshift by (auto; lia).
  cbn [shr_record_of_loc shr_m loc_of_shr_record round_nearest_even].
  rewrite shr_fexp_noshift by (auto; lia).
  cbn [shr_record_of_loc shr_m]. 
  destruct (e <=? 1024 - 53) eqn:E; [reflexivity|]. apply Z.leb_gt in E. lia.
Qed.

Lemma binary_round_small s a :
  Zpos a < 2 ^ 53 ->
  exists m e, binary_round 53 1024 s a 0 = S754_finite s m e
    /\ normal m /\ -52 <= e <= 0 /\ Zpos m = Zpos a * 2 ^ (- e).
Proof.
  intros Ha. unfold binary_round, shl_align, fexp, emin.
  pose proof (digits_bounds a) as [Hd1 Hd2].
  set (d := Zpos (digits2_pos a)) in *.
  assert (Hd : 1 <= d <= 53).
  { split; [unfold d; lia|]. destruct (Z_lt_le_dec 53 d); [|lia].
    assert (2 ^ 53 <= 2 ^ (d - 1)) by (apply Z.pow_le_mono_r; lia). lia. }
  replace (Z.max (d + 0 - 53) (3 - 1024 - 53) - 0) with (d - 53) by lia.
  replace (Z.max (d + 0 - 53) (3 - 1024 - 53)) with (d - 53) by lia.
  destruct (d - 53) as [|k|k] eqn:E; try lia.
  - exists a, 0. assert (normal a). { unfold normal. replace 53 with d by lia. replace 52 with (d - 1) by lia. auto. }
    split; [apply round_aux_exact; [auto|lia]|]. split; [auto|]. split; [lia|]. simpl. lia.
  - exists (Pos.iter xO a k), (Zneg k).
    assert (Hv : Zpos (Pos.iter xO a k) = Zpos a * 2 ^ Zpos k) by apply iter_xO.
    assert (Hn : normal (Pos.iter xO a k)).
    { unfold normal. rewrite Hv. replace (Zpos k) with (53 - d) by lia.
      replace (2 ^ 52) with (2 ^ (d - 1) * 2 ^ (53 - d)).
      2:{ rewrite <- Z.pow_add_r by lia. f_equal. lia. }
      replace (2 ^ 53) with (2 ^ d * 2 ^ (53 - d)).
      2:{ rewrite <- Z.pow_add_r by lia. f_equal. lia. }
      assert (0 < 2 ^ (53 - d)) by (apply Z.pow_pos_nonneg; lia). nia. }
    split; [apply round_aux_exact; [auto|lia]|]. split; [auto|]. split; [lia|].
    rewrite Hv. reflexivity.
Qed.

Lemma round64_safe (n : Z) : Z.abs n < 2 ^ 53 -> round64 n = Int n.
Proof.
  intros Hn. unfold round64, binary64, binary_normalize.
  destruct n as [|a|a]; [reflexivity|..].
  - destruct (binary_round_small false a ltac:(lia))
      as (m & e & -> & _ & He & Hv).
    cbn [of_float cond_Zopp]. f_equal.
    rewrite Z.shiftl_div_pow2 by lia. rewrite Hv.
    apply Z.div_mul. apply Z.pow_nonzero; lia.
  - destruct (binary_round_small true a ltac:(lia))
      as (m & e & -> & _ & He & Hv).
    cbn [of_float cond_Zopp]. f_equal.
    rewrite Z.shiftl_div_pow2 by lia. rewrite Hv.
    rewrite Z.div_mul by (apply Z.pow_nonzero; lia). reflexivity.
Qed.

(** *** Digits *)

Lemma radixDigits_uint (d : Decimal.uint) (acc : option Z) :
  radixDigits 10 (NilEmpty.string_of_uint d) acc
  = match d with
    | Decimal.Nil => acc
    | _ => Some (uint_val d (default 0 acc))
    end.
Proof.
  revert acc. induction d; intros acc; [reflexivity|..];
    cbn [NilEmpty.string_of_uint radixDigits];
    (match goal with
     | |- context [digitValue ?c] =>
         let v := eval vm_compute in (digitValue c) in
         change (digitValue c) with v
     end);
    cbv iota;
    (match goal with
     | |- context [?a <? 10] =>
         change (a <? 10) with true
     end);
    cbv iota; rewrite IHd; destruct d; reflexivity.
Qed.

Lemma uint_val_pos (d : Decimal.uint) (p : positive) :
  uint_val d (Zpos p) = Zpos (Pos.of_uint_acc d p).
Proof.
  revert p. induction d; intros p; simpl; [reflexivity|..];
    match goal with
    | |- uint_val _ ?a = _ =>
        match goal with
        | |- _ = Zpos (Pos.of_uint_acc _ ?q) =>
            replace a with (Zpos q) by lia
        end
    end; apply IHd.
Qed.

Lemma uint_val_0 (d : Decimal.uint) : uint_val d 0 = Z.of_N (Pos.of_uint d).
Proof.
  induction d; simpl; [reflexivity | exact IHd |..];
    match goal with
    | |- uint_val _ ?a = Zpos (Pos.of_uint_acc _ ?q) =>
        change a with (Zpos q)
    end; apply uint_val_pos.
Qed.

Lemma parseInt_uint (p : positive) :
  radixDigits 10 (NilEmpty.string_of_uint (Pos.to_uint p)) None = Some (Zpos p).
Proof.
  rewrite radixDigits_uint.
  pose proof (DecimalPos.Unsigned.to_uint_nonnil p) as Hnil.
  pose proof (DecimalPos.Unsigned.of_to p) as Hof.
  destruct (Pos.to_uint p) eqn:E; [congruence|..];
    simpl default; rewrite uint_val_0, Hof; reflexivity.
Qed.

Lemma mathInt_unsigned (d : Decimal.uint) :
  d <> Decimal.Nil ->
  mathInt (NilEmpty.string_of_uint d)
  = match radixDigits 10 (NilEmpty.string_of_uint d) None with
    | Some n => Some (1 * n)
    | None => None
    end
  /\ mathInt (String "-" (NilEmpty.string_of_uint d))
     = match radixDigits 10 (NilEmpty.string_of_uint d) None with
       | Some n => Some (-1 * n)
       | None => None
       end.
Proof.
  intros Hd. destruct d as [|d|d|d|d|d|d|d|d|d|d]; [congruence|..];
    try (split; reflexivity).
  destruct d; split; reflexivity.
Qed.

(** Printing an integer and reading it back. *)
Lemma mathInt_string_of_Z (n : Z) : mathInt (string_of_Z n) = Some n.
Proof.
  destruct n as [|p|p]; [reflexivity|..]; unfold string_of_Z; simpl Z.to_int;
    cbn [NilZero.string_of_int];
    pose proof (parseInt_uint p) as Hp;
    pose proof (DecimalPos.Unsigned.to_uint_nonnil p) as Hnil;
    destruct (mathInt_unsigned _ Hnil) as [Hplus Hminus];
    assert (Hs : NilZero.string_of_uint (Pos.to_uint p)
                 = NilEmpty.string_of_uint (Pos.to_uint p))
      by (destruct (Pos.to_uint p); [congruence | reflexivity..]);
    rewrite Hs.
  - rewrite Hplus, Hp. reflexivity.
  - rewrite Hminus, Hp. reflexivity.
Qed.

Lemma string_of_Z_inj (a b : Z) : string_of_Z a = string_of_Z b -> a = b.
Proof.
  intros H. apply (f_equal mathInt) in H.
  rewrite !mathInt_string_of_Z in H. congruence.
Qed.

Lemma string_of_nat_inj (a b : nat) : string_of_nat a = string_of_nat b -> a = b.
Proof. intros H. apply string_of_Z_inj in H. lia. Qed.

Lemma numberString_safe (n : Z) :
  Z.abs n < 2 ^ 53 -> numberString n = string_of_Z n.
Proof.
  intros Hn. unfold numberString.
  destruct (Z.abs n <? 2 ^ 53) eqn:E; [reflexivity|].
  apply Z.ltb_ge in E. lia.
Qed.

(** A safe integer is read back from its digits, sent as a string or as a
    number. *)
Lemma parseInt_safe (n : Z) :
  Z.abs n < 2 ^ 53 ->
  parseInt (VStr (string_of_Z n)) = Int n /\ parseInt (VNum n) = Int n.
Proof.
  intros Hn. unfold parseInt. cbn [ToString].
  rewrite (numberString_safe n Hn). unfold parseIntString.
  rewrite mathInt_string_of_Z. split; now apply round64_safe.
Qed.

(** A string that starts with a letter has no integer prefix. *)
Lemma parseInt_letter (c : ascii) (rest : string) :
  isLetter c = true -> parseInt (VStr (String c rest)) = NaN.
Proof.
  destruct c as [[] [] [] [] [] [] [] []]; intros H;
    try discriminate H; reflexivity.
Qed.


(** ** Validation *)




Lemma validate_question_falsy (q : question) (answer : value) :
  q_required q = true -> truthy answer = false ->
  validate_question q answer = [msg_required q].
Proof. intros Hr Ha. unfold validate_question. now rewrite Hr, Ha. Qed.

Lemma check_type_falsy (q : question) (answer : value) :
  truthy answer = false -> check_type q answer = [].
Proof.
  intros H. unfold check_type, check_text, check_choice, check_scale.
  rewrite H. now destruct (q_type q).
Qed.

(** A falsy answer is checked for presence only. *)
Lemma validate_question_absent (q : question) (answer : value) :
  truthy answer = false ->
  validate_question q answer
  = if q_required q then [msg_required q] else [].
Proof.
  intros Ha. unfold validate_question. rewrite Ha.
  destruct (q_required q); simpl; [reflexivity|].
  now apply check_type_falsy.
Qed.

Lemma validate_question_truthy (q : question) (answer : value) :
  truthy answer = true -> validate_question q answer = check_type q answer.
Proof.
  intros Ha. unfold validate_question. rewrite Ha.
  now rewrite andb_false_r.
Qed.


(** What the validator reads for a question: the entry of the body, or
    else the member of [Object.prototype] the question's id names. *)
Lemma prop_own (body : gmap string value) (key : string) (v : value) :
  body !! key = Some v -> prop body key = v.
Proof. intros H. unfold prop. now rewrite H. Qed.

Lemma prop_missing (body : gmap string value) (key : string) :
  body !! key = None -> inherited key = None -> prop body key = VUndefined.
Proof. intros H1 H2. unfold prop. now rewrite H1, H2. Qed.








(** C9: the presence test is JS falsiness.  For a required question every
    falsy answer draws the required violation; in particular the number [0]
    submitted to a required scale whose range contains 0 is reported as
    missing and the submission is refused with the store unchanged, although
    the range check itself would let 0 through.  An empty sequence is truthy
    and goes on to the type-specific checks. *)
Theorem falsy_answer_treated_as_absent
    (st : store) (surveyId : string) (sv : survey) (q : question) :
  surveys st !! surveyId = Some sv ->
  q ∈ s_questions sv ->
  q_required q = true ->
  (forall answer, truthy answer = false ->
                  validate_question q answer = [msg_required q])
  /\ (q_type q = Scale -> q_minValue q <= 0 <= q_maxValue q ->
      forall body e, body !! q_id q = Some (VNum 0) ->
        scale_out_of_range q (parseInt (VNum 0)) = false
        /\ msg_required q ∈ validateResponse sv body
        /\ exists errors,
             submitResponse st surveyId body e
             = (st, Fail (ValidationFailed errors))
             /\ msg_required q ∈ errors)
  /\ truthy (VArr []) = true
  /\ validate_question q (VArr []) = check_type q (VArr []).
Proof.
  intros Hsv Hq Hreq. split; [|split; [|split]].
  - intros answer. now apply validate_question_falsy.
  - intros _ Hrange body e Hbody.
    assert (Hin : msg_required q ∈ validateResponse sv body).
    { unfold validateResponse, validate_questions.
      apply list_elem_of_In, in_concat.
      exists [msg_required q]. split; [|now left].
      apply in_map_iff. exists q. split; [|now apply list_elem_of_In].
      apply validate_question_falsy; [exact Hreq|].
      now rewrite (prop_own _ _ _ Hbody). }
    split; [|split; [exact Hin|]].
    + unfold scale_out_of_range. change (parseInt (VNum 0)) with (Int 0).
      cbn [isNaN lt orb]. apply orb_false_iff. split; apply Z.ltb_ge; lia.
    + unfold submitResponse, surveyAt. rewrite Hsv. cbv zeta.
      exists (validateResponse sv body). split; [|exact Hin].
      destruct (validateResponse sv body) as [|m errors] eqn:E;
        [now apply elem_of_nil in Hin | reflexivity].
  - reflexivity.
  - now apply validate_question_truthy.
Qed.

Lemma falsy_answer_treated_as_absent_witness :
  let q := scale_question true 0 10 in
  let sv := sample_survey [q] [] in
  let st := sample_store sv in
  (surveys st !! "survey_1" = Some sv /\ q ∈ s_questions sv
   /\ q_required q = true)
  /\ ((forall answer, truthy answer = false ->
                      validate_question q answer = [msg_required q])
      /\ (q_type q = Scale -> q_minValue q <= 0 <= q_maxValue q ->
          forall body e, body !! q_id q = Some (VNum 0) ->
            scale_out_of_range q (parseInt (VNum 0)) = false
            /\ msg_required q ∈ validateResponse sv body
            /\ exists errors,
                 submitResponse st "survey_1" body e
                 = (st, Fail (ValidationFailed errors))
                 /\ msg_required q ∈ errors)
      /\ truthy (VArr []) = true
      /\ validate_question q (VArr []) = check_type q (VArr [])).
Proof.
  intros q sv st.
  assert (H1 : surveys st !! "survey_1" = Some sv) by reflexivity.
  assert (H2 : q ∈ s_questions sv) by apply list_elem_of_here.
  split; [split; [exact H1 | split; [exact H2 | reflexivity]]|].
  exact (falsy_answer_treated_as_absent st "survey_1" sv q H1 H2 eq_refl).
Defined.

(** *** Scale answers *)

Lemma check_scale_accepts (q : question) (answer : value) :
  truthy answer = true ->
  check_scale q answer = [] <->
  exists n, parseInt answer = Int n /\ q_minValue q <= n <= q_maxValue q.
Proof.
  intros Ha. unfold check_scale, scale_out_of_range. rewrite Ha.
  destruct (parseInt answer) as [|n|s]; cbn [isNaN lt orb].
  - split; [discriminate | intros (m & [=] & _)].
  - destruct (n <? q_minValue q) eqn:E1; destruct (q_maxValue q <? n) eqn:E2;
      simpl; (split; [intros H; try discriminate H | intros (m & [= <-] & H)]);
      try reflexivity;
      apply Z.ltb_lt in E1 || apply Z.ltb_ge in E1;
      apply Z.ltb_lt in E2 || apply Z.ltb_ge in E2;
      try lia.
    exists n. split; [reflexivity | lia].
  - destruct s; simpl; (split; [discriminate | intros (m & [=] & _)]).
Qed.

Lemma check_scale_rejects (q : question) (answer : value) :
  check_scale q answer <> [] -> check_scale q answer = [msg_scale q].
Proof.
  unfold check_scale. destruct (truthy answer); [|congruence].
  destruct (scale_out_of_range q (parseInt answer)); congruence.
Qed.

(** C3, as stated, fails on a falsy answer that is present: the number [0]
    sent to a scale from 1 to 5 that is not required is [minValue - 1], and
    it is accepted, stored, and listed among the values of the results. *)
Lemma zero_passes_optional_scale :
  let q := scale_question false 1 5 in
  let sv := sample_survey [q] [] in
  let body : gmap string value := {[ "q_2" := VNum 0 ]} in
  q_minValue q - 1 = 0
  /\ parseInt (VNum 0) = Int 0
  /\ validate_question q (VNum 0) = []
  /\ validateResponse sv body = []
  /\ snd (submitResponse (sample_store sv) "survey_1" body sample_env)
     = Ok "response_1704067200000_4fzyo82mv"
  /\ scaleValues q [new_response body sample_env] = [Int 0].
Proof. repeat split; vm_compute; reflexivity. Qed.

(** C3 (amended): for a scale question with [minValue <= maxValue] and an
    answer that passes the presence test, that is, a truthy one, validation
    accepts exactly when [parseInt] yields an integer within
    [minValue, maxValue]: the two bounds are accepted, [minValue - 1] and
    [maxValue + 1] are rejected, and so is every answer that reads as NaN
    or as an infinity, such as a string that starts with a letter.
    [parseInt] reads an integer of magnitude below [2^53] from its digits,
    sent as a string or as a number.  A falsy answer is not checked against
    the range: it is accepted when the question is not required, and draws
    the required violation when it is. *)
Theorem scale_accepts_exactly_range (q : question) :
  q_type q = Scale ->
  q_minValue q <= q_maxValue q ->
  (forall answer, truthy answer = false ->
     validate_question q answer
     = if q_required q then [msg_required q] else [])
  /\ forall answer, truthy answer = true ->
    (validate_question q answer = [] <->
     exists n, parseInt answer = Int n /\ q_minValue q <= n <= q_maxValue q)
    /\ (validate_question q answer <> [] ->
        validate_question q answer = [msg_scale q])
    /\ (parseInt answer = Int (q_minValue q) -> validate_question q answer = [])
    /\ (parseInt answer = Int (q_maxValue q) -> validate_question q answer = [])
    /\ (parseInt answer = Int (q_minValue q - 1) ->
        validate_question q answer = [msg_scale q])
    /\ (parseInt answer = Int (q_maxValue q + 1) ->
        validate_question q answer = [msg_scale q])
    /\ (parseInt answer = NaN -> validate_question q answer = [msg_scale q])
    /\ (forall s, parseInt answer = Infinity s ->
        validate_question q answer = [msg_scale q])
    /\ (forall c rest, isLetter c = true ->
        validate_question q (VStr (String c rest)) = [msg_scale q])
    /\ (forall n, Z.abs n < 2 ^ 53 ->
        parseInt (VStr (string_of_Z n)) = Int n /\ parseInt (VNum n) = Int n).
Proof.
  intros Hty Hle. split; [apply validate_question_absent|].
  intros answer Ha.
  assert (Hv : forall a, truthy a = true ->
                         validate_question q a = check_scale q a).
  { intros a Ht. rewrite (validate_question_truthy q a Ht).
    unfold check_type. now rewrite Hty. }
  assert (Hrej : forall a, truthy a = true ->
            ~ (exists n, parseInt a = Int n
                         /\ q_minValue q <= n <= q_maxValue q) ->
            validate_question q a = [msg_scale q]).
  { intros a Ht Hno. rewrite (Hv a Ht). apply check_scale_rejects.
    intros E. apply Hno. now apply check_scale_accepts. }
  rewrite (Hv answer Ha).
  split; [now apply check_scale_accepts|].
  split; [apply check_scale_rejects|].
  split; [intros E; apply check_scale_accepts; [exact Ha|];
          exists (q_minValue q); split; [exact E | lia]|].
  split; [intros E; apply check_scale_accepts; [exact Ha|];
          exists (q_maxValue q); split; [exact E | lia]|].
  rewrite <- (Hv answer Ha).
  split; [intros E; apply (Hrej answer Ha); intros (n & Hn & Hr);
          rewrite E in Hn; injection Hn as <-; lia|].
  split; [intros E; apply (Hrej answer Ha); intros (n & Hn & Hr);
          rewrite E in Hn; injection Hn as <-; lia|].
  split; [intros E; apply (Hrej answer Ha); intros (n & Hn & Hr);
          rewrite E in Hn; discriminate Hn|].
  split; [intros s E; apply (Hrej answer Ha); intros (n & Hn & Hr);
          rewrite E in Hn; discriminate Hn|].
  split; [|exact parseInt_safe].
  intros c rest Hc. apply Hrej; [reflexivity|].
  intros (n & Hn & _). rewrite (parseInt_letter c rest Hc) in Hn.
  discriminate Hn.
Qed.

Lemma scale_accepts_exactly_range_witness :
  let q := scale_question false 1 5 in
  (q_type q = Scale /\ q_minValue q <= q_maxValue q)
  /\ validate_question q (VStr "1") = []
  /\ validate_question q (VStr "5") = []
  /\ validate_question q (VStr "0") = [msg_scale q]
  /\ validate_question q (VNum 6) = [msg_scale q]
  /\ validate_question q (VStr "five") = [msg_scale q]
  /\ validate_question q (VNum 0) = [].
Proof.
  intros q.
  assert (H1 : q_type q = Scale) by reflexivity.
  assert (H2 : q_minValue q <= q_maxValue q) by (simpl; lia).
  destruct (scale_accepts_exactly_range q H1 H2) as [F T].
  split; [split; [exact H1 | exact H2]|].
  destruct (T (VStr "1") eq_refl) as (_ & _ & Hmin & _).
  destruct (T (VStr "5") eq_refl) as (_ & _ & _ & Hmax & _).
  destruct (T (VStr "0") eq_refl) as (_ & _ & _ & _ & Hbelow & _).
  destruct (T (VNum 6) eq_refl) as (_ & _ & _ & _ & _ & Habove & _).
  destruct (T (VStr "five") eq_refl)
    as (_ & _ & _ & _ & _ & _ & _ & _ & Hletter & _).
  split; [exact (Hmin eq_refl)|].
  split; [exact (Hmax eq_refl)|].
  split; [exact (Hbelow eq_refl)|].
  split; [exact (Habove eq_refl)|].
  split; [exact (Hletter "f"%char "ive" eq_refl)|].
  exact (F (VNum 0) eq_refl).
Defined.

(** *** Choice answers *)

Lemma includes_declared (q : question) (a : value) :
  includes (validOptions q) a = true <-> declared q a.
Proof.
  unfold declared, includes. split.
  - destruct a as [| | | |s| |]; try discriminate. intros H.
    apply existsb_exists in H as (x & Hx & E). apply String.eqb_eq in E.
    subst x. exists s. split; [reflexivity | now apply list_elem_of_In].
  - intros (s & -> & Hs). apply existsb_exists. exists s.
    split; [now apply list_elem_of_In | apply String.eqb_refl].
Qed.

Lemma includes_undeclared (q : question) (a : value) :
  includes (validOptions q) a = false <-> ~ declared q a.
Proof.
  rewrite <- includes_declared.
  destruct (includes (validOptions q) a); split; congruence.
Qed.

Lemma forallb_false_witness {A} (f : A -> bool) (l : list A) :
  forallb f l = false <-> exists a, a ∈ l /\ f a = false.
Proof.
  induction l as [|x l IH]; simpl.
  - split; [discriminate | intros (a & Ha & _); now apply elem_of_nil in Ha].
  - rewrite andb_false_iff, IH. split.
    + intros [Hx | (a & Ha & Hf)].
      * exists x. split; [apply list_elem_of_here | exact Hx].
      * exists a. split; [now apply list_elem_of_further | exact Hf].
    + intros (a & Ha & Hf). apply elem_of_cons in Ha as [-> | Ha]; eauto.
Qed.

Lemma check_choice_array (q : question) (l : list value) :
  check_choice q (VArr l)
  = if forallb (includes (validOptions q)) l then [] else [msg_option q].
Proof. reflexivity. Qed.

Lemma check_choice_scalar (q : question) (answer : value) :
  truthy answer = true -> isArray answer = false ->
  check_choice q answer
  = if includes (validOptions q) answer then [] else [msg_option q].
Proof.
  intros Ht Ha. unfold check_choice. rewrite Ht.
  destruct answer; try reflexivity; discriminate Ha.
Qed.

(** C4, as stated, fails on a falsy scalar that is present: [0], [false]
    and the empty string are no declared option ids, and a choice question
    that is not required accepts them. *)
Lemma falsy_scalar_passes_optional_choice :
  let q := optional_pick in
  let sv := sample_survey [q] [] in
  let body : gmap string value := {[ "q_1" := VNum 0 ]} in
  includes (validOptions q) (VNum 0) = false
  /\ validate_question q (VNum 0) = []
  /\ validate_question q (VBool false) = []
  /\ validate_question q (VStr EmptyString) = []
  /\ validate_question q (VNum 1) = [msg_option q]
  /\ snd (submitResponse (sample_store sv) "survey_1" body sample_env)
     = Ok "response_1704067200000_4fzyo82mv".
Proof. repeat split; vm_compute; reflexivity. Qed.

(** C4 (amended): for a single- or multiple-choice question and an answer
    that passes the presence test, that is, a truthy one, a sequence is
    rejected exactly when one of its elements is not a declared option id,
    and a scalar exactly when it is not a declared option id; the rejection
    is the one invalid-option violation.  The two choice types are checked
    alike, so a single-choice question accepts a sequence of declared ids
    of any length.  A falsy answer is not checked against the options: it
    is accepted when the question is not required, and draws the required
    violation when it is. *)
Theorem choice_accepts_exactly_declared (q : question) :
  q_type q = SingleChoice \/ q_type q = MultipleChoice ->
  (forall answer, truthy answer = false ->
     validate_question q answer
     = if q_required q then [msg_required q] else [])
  /\ forall answer, truthy answer = true ->
    (forall l, answer = VArr l ->
       (validate_question q answer <> [] <->
        exists a, a ∈ l /\ ~ declared q a)
       /\ ((forall a, a ∈ l -> declared q a) ->
           validate_question q answer = []))
    /\ (isArray answer = false ->
        (validate_question q answer <> [] <-> ~ declared q answer)
        /\ (declared q answer -> validate_question q answer = []))
    /\ (validate_question q answer <> [] ->
        validate_question q answer = [msg_option q]).
Proof.
  intros Hty. split; [apply validate_question_absent|].
  intros answer Ha.
  assert (Hv : validate_question q answer = check_choice q answer).
  { rewrite (validate_question_truthy q answer Ha). unfold check_type.
    destruct Hty as [-> | ->]; reflexivity. }
  rewrite Hv. split; [|split].
  - intros l ->. rewrite check_choice_array.
    destruct (forallb (includes (validOptions q)) l) eqn:E.
    + split; [split; [congruence|]|reflexivity].
      intros (a & Hin & Hno). apply includes_undeclared in Hno.
      rewrite forallb_forall in E.
      rewrite (E a) in Hno; [discriminate | now apply list_elem_of_In].
    + apply forallb_false_witness in E as (a & Hin & Hf).
      apply includes_undeclared in Hf.
      split; [split; [intros _; now exists a | discriminate]|].
      intros Hall. destruct (Hf (Hall a Hin)).
  - intros Hs. rewrite (check_choice_scalar q answer Ha Hs).
    destruct (includes (validOptions q) answer) eqn:E.
    + apply includes_declared in E.
      split; [split; [congruence | intros Hno; destruct (Hno E)] | reflexivity].
    + apply includes_undeclared in E.
      split; [split; [intros _; exact E | discriminate]|].
      intros Hd. destruct (E Hd).
  - unfold check_choice. rewrite Ha.
    destruct answer;
      repeat match goal with |- context [if ?b then _ else _] => destruct b end;
      congruence.
Qed.

Lemma choice_accepts_exactly_declared_witness :
  let q := pick_question in
  (q_type q = SingleChoice \/ q_type q = MultipleChoice)
  /\ validate_question q (VArr [VStr "a"; VStr "b"; VStr "a"]) = []
  /\ validate_question q (VStr "c") = [msg_option q]
  /\ validate_question q (VStr EmptyString) = [msg_required q].
Proof.
  intros q.
  destruct (choice_accepts_exactly_declared q (or_introl eq_refl)) as [F T].
  split; [now left|]. split; [|split].
  - destruct (T (VArr [VStr "a"; VStr "b"; VStr "a"]) eq_refl) as (Hseq & _).
    apply (Hseq _ eq_refl). intros a Ha. apply includes_declared.
    repeat (apply elem_of_cons in Ha as [-> | Ha]; [reflexivity|]).
    now apply elem_of_nil in Ha.
  - destruct (T (VStr "c") eq_refl) as (_ & Hscalar & Hone).
    apply Hone, (Hscalar eq_refl), includes_undeclared. reflexivity.
  - exact (F (VStr EmptyString) eq_refl).
Defined.

(** ** The registry *)

Lemma surveyAt_own (st : store) (surveyId : string) (sv : survey) :
  surveys st !! surveyId = Some sv -> surveyAt st surveyId = Own sv.
Proof. intros H. unfold surveyAt. now rewrite H. Qed.



Lemma questionObjects_elements (l : list (option question_input))
    (qs : list question_input) :
  questionObjects l = Some qs -> l = Some <$> qs.
Proof.
  unfold questionObjects. revert qs.
  induction l as [|[x|] l IH]; intros qs H; cbn in H.
  - now injection H as <-.
  - destruct (mapM id l) as [k|] eqn:E; [|discriminate]. cbn in H.
    injection H as <-. cbn. f_equal. now apply IH.
  - discriminate.
Qed.

(** A body whose questions are objects carries them as its elements. *)
Lemma b_questions_elements (b : survey_body) (qs : list question_input) :
  b_questions b = Some qs -> b_elements b = Some (Some <$> qs).
Proof.
  unfold b_questions. destruct (b_elements b) as [l|]; [|discriminate].
  intros H. now rewrite (questionObjects_elements l qs H).
Qed.

Lemma present_some (s : string) :
  present (Some s) = true <-> s <> EmptyString.
Proof.
  simpl. rewrite negb_true_iff. apply String.eqb_neq.
Qed.

Lemma valid_body (b : survey_body) (title : string) (q : question_input)
    (qs : list question_input) :
  b_title b = Some title -> title <> EmptyString ->
  b_questions b = Some (q :: qs) -> invalid_body b = false.
Proof.
  intros Ht Hne Hqs. unfold invalid_body.
  rewrite Ht, (b_questions_elements b _ Hqs).
  apply present_some in Hne. now rewrite Hne.
Qed.

Lemma present_or_else (o : option string) (d : string) :
  present o = true -> o = Some (or_else o d) /\ or_else o d <> EmptyString.
Proof.
  destruct o as [s|]; [|discriminate]. simpl.
  destruct (String.eqb s EmptyString) eqn:E; [discriminate|].
  intros _. split; [reflexivity|]. now apply String.eqb_neq.
Qed.

Lemma or_else_some (s d : string) :
  s <> EmptyString -> or_else (Some s) d = s.
Proof. intros H. simpl. apply String.eqb_neq in H. now rewrite H. Qed.

Lemma assign_ids_lookup (qs : list question_input) (i : nat) :
  assign_ids qs !! i = assign_id i <$> qs !! i.
Proof. apply list_lookup_imap. Qed.

Lemma assign_ids_length (qs : list question_input) :
  length (assign_ids qs) = length qs.
Proof. apply length_imap. Qed.

(** *** Reachable stores *)

Lemma initializeSurvey_active (st : store) (d : survey_data) (e : env) :
  present (currentSurveyId (fst (initializeSurvey st (Some d) e))) = true.
Proof.
  unfold initializeSurvey.
  destruct (present (sd_surveyId d)) eqn:E; simpl.
  - destruct (present_or_else _ EmptyString E) as [_ Hne].
    now apply String.eqb_neq in Hne as ->.
  - reflexivity.
Qed.

Lemma initializeSurvey_populated (st : store) (d : option survey_data) (e : env) :
  populated_is_active st ->
  populated_is_active (fst (initializeSurvey st d e)).
Proof.
  intros Hst. destruct d as [d|]; [|exact Hst].
  intros sid sv _. apply initializeSurvey_active.
Qed.

Lemma boot_populated (window_data file_data : option survey_data) (e : env) :
  populated_is_active (boot window_data file_data e).
Proof.
  assert (H0 : populated_is_active empty_store).
  { intros sid sv H. simpl in H. now rewrite lookup_empty in H. }
  pose proof (initializeSurvey_populated _ window_data e H0) as H1.
  unfold boot. destruct file_data as [d|]; [|exact H1].
  destruct (present (sd_surveyId d)); [|exact H1].
  now apply initializeSurvey_populated.
Qed.

Lemma reachable_populated (st : store) :
  reachable st -> populated_is_active st.
Proof.
  intros (w & f & e & rqs & ->).
  pose proof (boot_populated w f e) as Hb.
  revert Hb. generalize (boot w f e). clear.
  induction rqs as [|rq rqs IH]; intros st Hst; [exact Hst|].
  change (run st (rq :: rqs)) with (run (fst (handle st rq)) rqs).
  apply IH. intros sid sv Hsv.
  destruct rq as [b e|sid' tok b e| | |sid' body e|]; simpl in *;
    try exact (Hst _ _ Hsv).
  - unfold createSurvey in *.
    destruct (present (currentSurveyId st)) eqn:Hact;
      [simpl in *; exact Hact|].
    destruct (invalid_body b); [simpl in *; exact (Hst _ _ Hsv)|].
    unfold generateId in *.
    destruct (b_questions b); [reflexivity | exact (Hst _ _ Hsv)].
  - unfold updateSurvey, surveyAt in *.
    destruct (surveys st !! sid') as [sv0|] eqn:E.
    2:{ destruct (inherited sid'); [|exact (Hst _ _ Hsv)].
        destruct (negb _); [exact (Hst _ _ Hsv)|].
        destruct (invalid_body b); [exact (Hst _ _ Hsv)|].
        destruct (b_questions b); exact (Hst _ _ Hsv). }
    destruct (negb _); [exact (Hst _ _ Hsv)|].
    destruct (invalid_body b); [exact (Hst _ _ Hsv)|].
    destruct (b_questions b); exact (Hst _ _ E).
  - unfold submitResponse, surveyAt in *.
    destruct (surveys st !! sid') as [sv0|] eqn:E.
    2:{ destruct (inherited sid'); exact (Hst _ _ Hsv). }
    cbv zeta in *. destruct (validateResponse sv0 body);
      [exact (Hst _ _ E) | exact (Hst _ _ Hsv)].
Qed.

Lemma initializeSurvey_stored (st : store) (d : option survey_data) (e : env) :
  active_is_stored st ->
  active_is_stored (fst (initializeSurvey st d e)).
Proof.
  intros Hst. destruct d as [d|]; [|exact Hst].
  unfold initializeSurvey.
  destruct (present (sd_surveyId d)); simpl;
    intros a [= <-]; simpl; rewrite lookup_insert_eq; eauto.
Qed.

Lemma boot_stored (window_data file_data : option survey_data) (e : env) :
  active_is_stored (boot window_data file_data e).
Proof.
  assert (H0 : active_is_stored empty_store) by (intros a H; discriminate H).
  pose proof (initializeSurvey_stored _ window_data e H0) as H1.
  unfold boot. destruct file_data as [d|]; [|exact H1].
  destruct (present (sd_surveyId d)); [|exact H1].
  now apply initializeSurvey_stored.
Qed.

Lemma handle_stored (st : store) (rq : request) :
  active_is_stored st -> active_is_stored (fst (handle st rq)).
Proof.
  intros Hst.
  destruct rq as [b e|sid tok b e| | |sid body e|]; simpl; try exact Hst.
  - unfold createSurvey. destruct (present (currentSurveyId st)); [exact Hst|].
    destruct (invalid_body b); [exact Hst|]. unfold generateId.
    destruct (b_questions b); [|exact Hst]. simpl.
    intros a [= <-]. simpl. rewrite lookup_insert_eq. eauto.
  - unfold updateSurvey, surveyAt. destruct (surveys st !! sid) as [sv|] eqn:E.
    2:{ destruct (inherited sid); [|exact Hst].
        destruct (negb _); [exact Hst|]. destruct (invalid_body b); [exact Hst|].
        destruct (b_questions b); exact Hst. }
    destruct (negb _); [exact Hst|]. destruct (invalid_body b); [exact Hst|].
    assert (H : forall sv', active_is_stored (with_survey st sid sv')).
    { intros sv'. unfold with_survey. intros a Ha. simpl in *.
      destruct (decide (sid = a)) as [->|Hne].
      - rewrite lookup_insert_eq. eauto.
      - rewrite lookup_insert_ne by exact Hne. now apply Hst. }
    destruct (b_questions b); apply H.
  - unfold submitResponse, surveyAt. destruct (surveys st !! sid) as [sv|] eqn:E.
    2:{ destruct (inherited sid); exact Hst. }
    cbv zeta. destruct (validateResponse sv body); [|exact Hst].
    unfold with_survey. simpl. intros a Ha. simpl.
    destruct (decide (sid = a)) as [->|Hne].
    + rewrite lookup_insert_eq. eauto.
    + rewrite lookup_insert_ne by exact Hne. now apply Hst.
Qed.

Lemma reachable_stored (st : store) :
  reachable st -> active_is_stored st.
Proof.
  intros (w & f & e & rqs & ->).
  pose proof (boot_stored w f e) as Hb.
  revert Hb. generalize (boot w f e). clear.
  induction rqs as [|rq rqs IH]; intros st Hst; [exact Hst|].
  change (run st (rq :: rqs)) with (run (fst (handle st rq)) rqs).
  now apply IH, handle_stored.
Qed.

(** *** Requests *)

Lemma handle_read_only (st : store) (rq : request) :
  read_only rq = true -> fst (handle st rq) = st.
Proof. destruct rq; try discriminate; reflexivity. Qed.

Lemma run_read_only (st : store) (rqs : list request) :
  forallb read_only rqs = true -> run st rqs = st.
Proof.
  revert st. induction rqs as [|rq rqs IH]; intros st H; [reflexivity|].
  simpl in H. apply andb_true_iff in H as [H1 H2].
  unfold run. simpl. rewrite (handle_read_only st rq H1). now apply IH.
Qed.

Lemma run_app (st : store) (rqs1 rqs2 : list request) :
  run st (rqs1 ++ rqs2) = run (run st rqs1) rqs2.
Proof. unfold run. apply fold_left_app. Qed.

(** Once a survey is active, no request changes which one it is. *)
Lemma handle_keeps_active (st : store) (rq : request) :
  present (currentSurveyId st) = true ->
  currentSurveyId (fst (handle st rq)) = currentSurveyId st.
Proof.
  intros Hact. destruct rq as [b e|sid tok b e| | |sid body e|]; simpl;
    try reflexivity.
  - unfold createSurvey. now rewrite Hact.
  - unfold updateSurvey, surveyAt.
    destruct (surveys st !! sid) as [sv|]; [|destruct (inherited sid)];
      try reflexivity;
      (destruct (negb _); [reflexivity|]);
      (destruct (invalid_body b); [reflexivity|]);
      destruct (b_questions b); reflexivity.
  - unfold submitResponse, surveyAt.
    destruct (surveys st !! sid) as [sv|]; [|destruct (inherited sid)];
      try reflexivity.
    cbv zeta. destruct (validateResponse sv body); reflexivity.
Qed.

Lemma run_keeps_active (st : store) (rqs : list request) :
  present (currentSurveyId st) = true ->
  currentSurveyId (run st rqs) = currentSurveyId st.
Proof.
  revert st. induction rqs as [|rq rqs IH]; intros st Hact; [reflexivity|].
  change (run st (rq :: rqs)) with (run (fst (handle st rq)) rqs).
  pose proof (handle_keeps_active st rq Hact) as H.
  rewrite IH; [exact H | now rewrite H].
Qed.

Lemma createSurvey_active (st : store) (b : survey_body) (e : env) :
  present (currentSurveyId st) = true ->
  createSurvey st b e
  = (st, Fail (AlreadyActive (or_else (currentSurveyId st) EmptyString))).
Proof. intros H. unfold createSurvey. now rewrite H. Qed.

(** C5: while a survey is active, createSurvey fails with AlreadyActive,
    names the active survey and leaves the store as it is, and this stays so
    after any further requests; in a store the process can reach, a survey
    is active as soon as the store holds one, and the active survey is one
    of the store.  With no active survey, a body with a
    non-empty title and a non-empty list of questions is accepted: the new
    survey is stored and becomes the active one, a question with no id (or
    an empty one) gets ["q_" + index], and a question with an id keeps it. *)
Theorem createSurvey_single_active (st : store) (b : survey_body) (e : env) :
  (forall active, currentSurveyId st = Some active -> active <> EmptyString ->
     forall rqs,
       createSurvey (run st rqs) b e
       = (run st rqs, Fail (AlreadyActive active)))
  /\ (reachable st ->
      forall surveyId sv, surveys st !! surveyId = Some sv ->
        exists active sv',
          currentSurveyId st = Some active
          /\ surveys st !! active = Some sv'
          /\ createSurvey st b e = (st, Fail (AlreadyActive active)))
  /\ (present (currentSurveyId st) = false ->
      forall title q qs,
        b_title b = Some title -> title <> EmptyString ->
        b_questions b = Some (q :: qs) ->
        exists st' c sv,
          createSurvey st b e = (st', Ok c)
          /\ surveys st' !! c_id c = Some sv
          /\ s_id sv = c_id c /\ s_title sv = title /\ s_responses sv = []
          /\ currentSurveyId st' = Some (c_id c) /\ c_id c <> EmptyString
          /\ length (s_questions sv) = length (q :: qs)
          /\ forall i qi, (q :: qs) !! i = Some qi ->
               exists q', s_questions sv !! i = Some q'
                 /\ q' = assign_id i qi
                 /\ (q_id qi = None \/ q_id qi = Some EmptyString ->
                     q_id q' = "q_" +:+ string_of_nat i)
                 /\ (forall s, q_id qi = Some s -> s <> EmptyString ->
                     q_id q' = s)).
Proof.
  split; [|split].
  - intros active Hcur Hne rqs.
    assert (Hact : present (currentSurveyId st) = true)
      by (rewrite Hcur; now apply present_some).
    rewrite createSurvey_active; rewrite (run_keeps_active st rqs Hact);
      [|exact Hact].
    rewrite Hcur, (or_else_some _ _ Hne). reflexivity.
  - intros Hreach surveyId sv Hsv.
    pose proof (reachable_populated st Hreach _ _ Hsv) as Hact.
    destruct (present_or_else _ EmptyString Hact) as [Hcur _].
    destruct (reachable_stored st Hreach _ Hcur) as [sv' Hsv'].
    exists (or_else (currentSurveyId st) EmptyString), sv'.
    split; [exact Hcur|]. split; [exact Hsv'|].
    now apply createSurvey_active.
  - intros Hidle title q qs Htitle Hne Hqs.
    unfold createSurvey. rewrite Hidle.
    rewrite (valid_body b title q qs Htitle Hne Hqs), Hqs.
    generalize (q :: qs) as l. intros l. simpl. eexists _, _, _.
    split; [reflexivity|]. simpl.
    split; [apply lookup_insert_eq|]. simpl.
    rewrite Htitle, (or_else_some _ _ Hne).
    repeat (split; [try reflexivity|]).
    + discriminate.
    + apply assign_ids_length.
    + intros i qi Hi. exists (assign_id i qi).
      split; [simpl; now rewrite assign_ids_lookup, Hi|].
      split; [reflexivity|]. split.
      * intros [E | E]; simpl; now rewrite E.
      * intros s E Hs. simpl. rewrite E. now apply or_else_some.
Qed.

Lemma createSurvey_single_active_witness :
  createSurvey scenario_store scenario_body sample_env
  = (scenario_store, Fail (AlreadyActive "survey_1"))
  /\ exists st' c sv,
       createSurvey empty_store scenario_body sample_env = (st', Ok c)
       /\ surveys st' !! c_id c = Some sv
       /\ currentSurveyId st' = Some (c_id c)
       /\ exists q', s_questions sv !! 1%nat = Some q' /\ q_id q' = "q_1".
Proof.
  split.
  - destruct (createSurvey_single_active scenario_store scenario_body sample_env)
      as (Hactive & _).
    assert (Hne : "survey_1" <> EmptyString) by discriminate.
    exact (Hactive "survey_1" eq_refl Hne []).
  - destruct (createSurvey_single_active empty_store scenario_body sample_env)
      as (_ & _ & Hidle).
    assert (Hne : "Feedback" <> EmptyString) by discriminate.
    destruct (Hidle eq_refl "Feedback" _ _ eq_refl Hne eq_refl)
      as (st' & c & sv & Hc & Hsv & _ & _ & _ & Hcur & _ & _ & Hqs).
    exists st', c, sv. split; [exact Hc|]. split; [exact Hsv|].
    split; [exact Hcur|].
    destruct (Hqs 1%nat _ eq_refl) as (q' & Hq' & _ & Hid & _).
    exists q'. split; [exact Hq'|]. exact (Hid (or_introl eq_refl)).
Defined.


Lemma or_else_description (o : option string) :
  (forall d, o = Some d -> or_else o EmptyString = d)
  /\ (o = None -> or_else o EmptyString = EmptyString).
Proof.
  split.
  - intros d ->. simpl. destruct (String.eqb d EmptyString) eqn:E;
      [now apply String.eqb_eq in E | reflexivity].
  - now intros ->.
Qed.









(** C8: getResults leaves the store as it is, so a second call, also after
    any number of requests that only read, returns what the first one
    returned. *)
Theorem getResults_idempotent (st : store) (surveyId : string)
    (token : option string) (between : list request) :
  forallb read_only between = true ->
  let first := handle st (GetResults surveyId token) in
  let second :=
    handle (run (fst first) between) (GetResults surveyId token) in
  fst first = st /\ fst second = st /\ snd second = snd first.
Proof.
  intros H. simpl. rewrite (run_read_only st between H). auto.
Qed.

Lemma getResults_idempotent_witness :
  let sv := sample_survey [pick_question]
              (stored_answers "q_1" [VStr "a"; VStr "b"]) in
  let st := sample_store sv in
  let between := [GetSurvey "survey_1"; GetAdmin "survey_1" (Some "k3y")] in
  forallb read_only between = true
  /\ (let first := handle st (GetResults "survey_1" None) in
      let second :=
        handle (run (fst first) between) (GetResults "survey_1" None) in
      fst first = st /\ fst second = st /\ snd second = snd first).
Proof.
  intros sv st between. split; [reflexivity|].
  exact (getResults_idempotent st "survey_1" None between eq_refl).
Defined.

(** ** The response store *)

(** A request keeps every survey in place and only ever extends its list of
    responses. *)
Lemma handle_grows (st : store) (rq : request) (surveyId : string) (sv : survey) :
  populated_is_active st ->
  surveys st !! surveyId = Some sv ->
  populated_is_active (fst (handle st rq))
  /\ exists sv', surveys (fst (handle st rq)) !! surveyId = Some sv'
       /\ s_responses sv `prefix_of` s_responses sv'.
Proof.
  intros Hinv Hsv.
  assert (Hact : present (currentSurveyId st) = true) by exact (Hinv _ _ Hsv).
  assert (Hsame : populated_is_active st
                  /\ exists sv', surveys st !! surveyId = Some sv'
                       /\ s_responses sv `prefix_of` s_responses sv')
    by (split; [exact Hinv | exists sv; split; [exact Hsv | reflexivity]]).
  destruct rq as [b e|sid tok b e| | |sid body e|]; simpl; try exact Hsame.
  - rewrite createSurvey_active by exact Hact. exact Hsame.
  - unfold updateSurvey, surveyAt.
    destruct (surveys st !! sid) as [sv0|] eqn:E.
    2:{ destruct (inherited sid); [|exact Hsame].
        destruct (negb _); [exact Hsame|].
        destruct (invalid_body b); [exact Hsame|].
        destruct (b_questions b); exact Hsame. }
    destruct (negb _); [exact Hsame|].
    destruct (invalid_body b); [exact Hsame|].
    destruct (b_questions b); simpl; (split; [intros s x _; exact Hact|]);
      (destruct (decide (sid = surveyId)) as [->|Hne];
       [rewrite lookup_insert_eq; eexists; split; [reflexivity|]; simpl;
        rewrite Hsv in E; now injection E as <-
       |rewrite lookup_insert_ne by exact Hne; exists sv; now split]).
  - unfold submitResponse, surveyAt.
    destruct (surveys st !! sid) as [sv0|] eqn:E.
    2:{ destruct (inherited sid); exact Hsame. }
    cbv zeta. destruct (validateResponse sv0 body); [|exact Hsame]. simpl.
    split.
    + intros s x _. exact Hact.
    + destruct (decide (sid = surveyId)) as [->|Hne].
      * rewrite lookup_insert_eq. eexists. split; [reflexivity|]. simpl.
        rewrite Hsv in E. injection E as <-. now apply prefix_app_r.
      * rewrite lookup_insert_ne by exact Hne. exists sv. now split.
Qed.

Lemma run_grows (rqs : list request) (st : store) (surveyId : string)
    (sv : survey) :
  populated_is_active st ->
  surveys st !! surveyId = Some sv ->
  populated_is_active (run st rqs)
  /\ exists sv', surveys (run st rqs) !! surveyId = Some sv'
       /\ s_responses sv `prefix_of` s_responses sv'.
Proof.
  revert st sv. induction rqs as [|rq rqs IH]; intros st sv Hinv Hsv.
  - split; [exact Hinv | exists sv; now split].
  - change (run st (rq :: rqs)) with (run (fst (handle st rq)) rqs).
    destruct (handle_grows st rq surveyId sv Hinv Hsv)
      as (Hinv1 & sv1 & Hsv1 & Hpre1).
    destruct (IH _ sv1 Hinv1 Hsv1) as (Hinv2 & sv2 & Hsv2 & Hpre2).
    split; [exact Hinv2|]. exists sv2. split; [exact Hsv2|].
    now transitivity (s_responses sv1).
Qed.

(** The submitted value of a question does not depend on the other keys. *)
Lemma validate_questions_unknown_key (qs : list question)
    (body : gmap string value) (key : string) (v : value) :
  (forall q, q ∈ qs -> q_id q <> key) ->
  validate_questions qs (<[key := v]> body) = validate_questions qs body.
Proof.
  intros Hkey. unfold validate_questions. f_equal.
  apply map_ext_in. intros q Hq. apply list_elem_of_In in Hq.
  unfold prop. rewrite lookup_insert_ne; [reflexivity|].
  intros E. now apply (Hkey q Hq).
Qed.

(** C10: an accepted submission is stored with the submitted answer map as
    its data, untouched: a key that is no question's id neither changes the
    verdict of the validation nor is removed, and whatever requests follow,
    the survey still holds that response. *)
Theorem submitResponse_stores_body
    (st : store) (surveyId : string) (sv : survey)
    (body : gmap string value) (e : env) :
  reachable st ->
  surveys st !! surveyId = Some sv ->
  validateResponse sv body = [] ->
  let r := new_response body e in
  let st' := fst (submitResponse st surveyId body e) in
  submitResponse st surveyId body e
  = (with_survey st surveyId (push_response sv r), Ok (r_id r))
  /\ surveys st' !! surveyId = Some (push_response sv r)
  /\ s_responses (push_response sv r) = s_responses sv ++ [r]
  /\ r_data r = body
  /\ (forall key v, (forall q, q ∈ s_questions sv -> q_id q <> key) ->
      validateResponse sv (<[key := v]> body) = []
      /\ r_data (new_response (<[key := v]> body) e) !! key = Some v)
  /\ (forall rqs, exists sv',
        surveys (run st' rqs) !! surveyId = Some sv'
        /\ (s_responses sv ++ [r]) `prefix_of` s_responses sv'
        /\ r ∈ s_responses sv').
Proof.
  intros Hreach Hsv Hvalid r st'.
  assert (Hsub : submitResponse st surveyId body e
                 = (with_survey st surveyId (push_response sv r), Ok (r_id r))).
  { unfold submitResponse. rewrite (surveyAt_own _ _ _ Hsv). cbv zeta.
    now rewrite Hvalid. }
  assert (Hst' : surveys st' !! surveyId = Some (push_response sv r)).
  { unfold st'. rewrite Hsub. apply lookup_insert_eq. }
  split; [exact Hsub|]. split; [exact Hst'|].
  split; [reflexivity|]. split; [reflexivity|]. split.
  - intros key v Hkey. split.
    + unfold validateResponse in *.
      now rewrite validate_questions_unknown_key.
    + apply lookup_insert_eq.
  - intros rqs.
    assert (Hinv : populated_is_active st').
    { pose proof (reachable_populated st Hreach) as Hst.
      intros s x _. unfold st'. rewrite Hsub. exact (Hst _ _ Hsv). }
    destruct (run_grows rqs st' surveyId _ Hinv Hst') as (_ & sv' & H1 & H2).
    exists sv'. split; [exact H1|]. split; [exact H2|].
    destruct H2 as [k ->]. simpl. rewrite !elem_of_app.
    left. right. apply list_elem_of_here.
Qed.

(** ** Aggregation *)

(** *** Reads and writes of an object *)

Section ObjFacts.
Context {V : Type}.
Implicit Types (o : list (string * V)) (k : string) (v : V).

Lemma get_replace o k v k' :
  Obj.get (Obj.replace o k v) k'
  = if String.eqb k k' then (fun _ => v) <$> Obj.get o k else Obj.get o k'.
Proof.
  induction o as [|[k0 v0] o IH]; simpl.
  - now destruct (String.eqb k k').
  - destruct (String.eqb k0 k) eqn:E0; simpl.
    + apply String.eqb_eq in E0. subst k0.
      now destruct (String.eqb k k').
    + rewrite IH. destruct (String.eqb k0 k') eqn:E1;
        destruct (String.eqb k k') eqn:E2; try reflexivity.
      apply String.eqb_eq in E1, E2. subst.
      now rewrite String.eqb_refl in E0.
Qed.

Lemma get_insert_index o n k v k' :
  Obj.get o k = None ->
  Obj.get (Obj.insert_index o n k v) k'
  = if String.eqb k k' then Some v else Obj.get o k'.
Proof.
  induction o as [|[k0 v0] o IH]; simpl; intros Hk.
  - reflexivity.
  - destruct (String.eqb k0 k) eqn:E0; [discriminate|].
    destruct (Obj.arrayIndex k0) as [n0|]; [destruct (n <? n0)|];
      simpl; try reflexivity.
    rewrite (IH Hk). destruct (String.eqb k0 k') eqn:E1;
      destruct (String.eqb k k') eqn:E2; try reflexivity.
    apply String.eqb_eq in E1, E2. subst.
    now rewrite String.eqb_refl in E0.
Qed.

Lemma get_app_new o k v k' :
  Obj.get o k = None ->
  Obj.get (o ++ [(k, v)]) k'
  = if String.eqb k k' then Some v else Obj.get o k'.
Proof.
  induction o as [|[k0 v0] o IH]; simpl; intros Hk.
  - reflexivity.
  - destruct (String.eqb k0 k) eqn:E0; [discriminate|].
    rewrite (IH Hk). destruct (String.eqb k0 k') eqn:E1;
      destruct (String.eqb k k') eqn:E2; try reflexivity.
    apply String.eqb_eq in E1, E2. subst.
    now rewrite String.eqb_refl in E0.
Qed.

(** Reading after a write. *)
Lemma get_set o k v k' :
  Obj.get (Obj.set o k v) k'
  = if String.eqb k k' then Some v else Obj.get o k'.
Proof.
  unfold Obj.set. destruct (Obj.get o k) as [v0|] eqn:E.
  - rewrite get_replace, E. reflexivity.
  - destruct (Obj.arrayIndex k);
      [now apply get_insert_index | now apply get_app_new].
Qed.

Lemma keys_replace o k v : (Obj.replace o k v).*1 = o.*1.
Proof.
  induction o as [|[k0 v0] o IH]; simpl; [reflexivity|].
  destruct (String.eqb k0 k); simpl; [reflexivity | f_equal; exact IH].
Qed.

Lemma keys_insert_index o n k v :
  (Obj.insert_index o n k v).*1 ≡ₚ k :: o.*1.
Proof.
  induction o as [|[k0 v0] o IH]; simpl; [reflexivity|].
  destruct (Obj.arrayIndex k0) as [n0|]; [destruct (n <? n0)|];
    simpl; try reflexivity.
  rewrite IH. apply Permutation_swap.
Qed.

Lemma get_None_keys o k : Obj.get o k = None <-> k ∉ o.*1.
Proof.
  induction o as [|[k0 v0] o IH]; simpl.
  - split; [intros _; apply not_elem_of_nil | reflexivity].
  - rewrite not_elem_of_cons, <- IH.
    destruct (String.eqb k0 k) eqn:E.
    + apply String.eqb_eq in E. subst.
      split; [discriminate | intros [H _]; now destruct H].
    + apply String.eqb_neq in E. split; [intros H; split; congruence|].
      now intros [_ H].
Qed.

Lemma get_Some_elem o k v : Obj.get o k = Some v -> (k, v) ∈ o.
Proof.
  induction o as [|[k0 v0] o IH]; simpl; [discriminate|].
  destruct (String.eqb k0 k) eqn:E.
  - apply String.eqb_eq in E. subst. intros [= ->]. apply list_elem_of_here.
  - intros H. apply list_elem_of_further, IH, H.
Qed.

Lemma elem_get o k v : NoDup o.*1 -> (k, v) ∈ o -> Obj.get o k = Some v.
Proof.
  induction o as [|[k0 v0] o IH]; simpl; intros Hnd Hin.
  - now apply elem_of_nil in Hin.
  - apply NoDup_cons in Hnd as [Hk0 Hnd].
    apply elem_of_cons in Hin as [[= <- <-] | Hin].
    + now rewrite String.eqb_refl.
    + destruct (String.eqb k0 k) eqn:E; [|now apply IH].
      apply String.eqb_eq in E. subst. destruct Hk0.
      apply list_elem_of_fmap. now exists (k, v).
Qed.

(** A write keeps the keys apart. *)
Lemma NoDup_set o k v : NoDup o.*1 -> NoDup (Obj.set o k v).*1.
Proof.
  intros Hnd. unfold Obj.set. destruct (Obj.get o k) as [v0|] eqn:E.
  - now rewrite keys_replace.
  - apply get_None_keys in E.
    assert (H : NoDup (k :: o.*1)) by now apply NoDup_cons.
    destruct (Obj.arrayIndex k).
    + now rewrite keys_insert_index.
    + rewrite fmap_app. simpl.
      now rewrite <- Permutation_cons_append.
Qed.

Lemma keys_set o k v k' :
  k' ∈ (Obj.set o k v).*1 <-> k' = k \/ k' ∈ o.*1.
Proof.
  unfold Obj.set. destruct (Obj.get o k) as [v0|] eqn:E.
  - rewrite keys_replace. split; [now right|].
    intros [-> | H]; [|exact H].
    apply get_Some_elem in E. apply list_elem_of_fmap. now exists (k, v0).
  - destruct (Obj.arrayIndex k).
    + rewrite keys_insert_index. apply elem_of_cons.
    + rewrite fmap_app, elem_of_app. simpl.
      rewrite list_elem_of_singleton. tauto.
Qed.
End ObjFacts.

(** *** Option counts *)

Lemma add_count_0 (c : cell) : add_count 0 c = c.
Proof. destruct c. unfold add_count. simpl. now rewrite Nat.add_0_r. Qed.

Lemma add_count_add (n m : nat) (c : cell) :
  add_count m (add_count n c) = add_count (n + m) c.
Proof. unfold add_count. simpl. now rewrite Nat.add_assoc. Qed.

Lemma fmap_add_count_0 (o : option cell) : add_count 0 <$> o = o.
Proof. destruct o; simpl; [now rewrite add_count_0 | reflexivity]. Qed.

Lemma get_bump (o : list (string * cell)) (a : value) (k : string) :
  Obj.get (bump o a) k
  = add_count (if names k a then 1 else 0) <$> Obj.get o k.
Proof.
  unfold bump, names.
  destruct (Obj.get o (ToString a)) as [c|] eqn:E.
  - rewrite get_set. destruct (String.eqb (ToString a) k) eqn:Ek.
    + apply String.eqb_eq in Ek. subst k. rewrite E. simpl.
      unfold add_count. now rewrite Nat.add_1_r.
    + now rewrite fmap_add_count_0.
  - destruct (String.eqb (ToString a) k) eqn:Ek.
    + apply String.eqb_eq in Ek. subst k. now rewrite E.
    + now rewrite fmap_add_count_0.
Qed.

Lemma get_fold_bump (l : list value) (o : list (string * cell)) (k : string) :
  Obj.get (fold_left bump l o) k
  = add_count (length (List.filter (names k) l)) <$> Obj.get o k.
Proof.
  revert o. induction l as [|a l IH]; intros o; simpl.
  - now rewrite fmap_add_count_0.
  - rewrite IH, get_bump. destruct (Obj.get o k) as [c|]; [|reflexivity].
    simpl. rewrite add_count_add. destruct (names k a); reflexivity.
Qed.

Lemma get_tally (o : list (string * cell)) (answer : value) (k : string) :
  Obj.get (tally o answer) k = add_count (occurrences k answer) <$> Obj.get o k.
Proof.
  unfold tally, occurrences. destruct (truthy answer).
  - destruct answer; try apply get_bump. apply get_fold_bump.
  - now rewrite fmap_add_count_0.
Qed.

Lemma get_fold_tally (l : list value) (o : list (string * cell)) (k : string) :
  Obj.get (fold_left tally l o) k
  = add_count (total_occurrences k l) <$> Obj.get o k.
Proof.
  revert o. induction l as [|a l IH]; intros o; simpl.
  - now rewrite fmap_add_count_0.
  - rewrite IH, get_tally. destruct (Obj.get o k) as [c|]; [|reflexivity].
    simpl. now rewrite add_count_add.
Qed.

Lemma keys_bump (o : list (string * cell)) (a : value) (k : string) :
  k ∈ (bump o a).*1 <-> k ∈ o.*1.
Proof.
  unfold bump. destruct (Obj.get o (ToString a)) as [c|] eqn:E; [|reflexivity].
  rewrite keys_set. split; [|now right]. intros [-> | H]; [|exact H].
  apply get_Some_elem in E. apply list_elem_of_fmap. now exists (ToString a, c).
Qed.

Lemma NoDup_bump (o : list (string * cell)) (a : value) :
  NoDup o.*1 -> NoDup (bump o a).*1.
Proof.
  intros H. unfold bump. destruct (Obj.get o (ToString a)); [|exact H].
  now apply NoDup_set.
Qed.

Lemma fold_bump_keys (l : list value) (o : list (string * cell)) :
  (forall k, k ∈ (fold_left bump l o).*1 <-> k ∈ o.*1)
  /\ (NoDup o.*1 -> NoDup (fold_left bump l o).*1).
Proof.
  revert o. induction l as [|a l IH]; intros o; simpl; [tauto|].
  destruct (IH (bump o a)) as [H1 H2]. split.
  - intros k. now rewrite H1, keys_bump.
  - intros H. now apply H2, NoDup_bump.
Qed.

Lemma tally_keys (o : list (string * cell)) (answer : value) :
  (forall k, k ∈ (tally o answer).*1 <-> k ∈ o.*1)
  /\ (NoDup o.*1 -> NoDup (tally o answer).*1).
Proof.
  unfold tally. destruct (truthy answer); [|tauto].
  destruct answer; try (split; [apply keys_bump | apply NoDup_bump]).
  apply fold_bump_keys.
Qed.

Lemma fold_tally_keys (l : list value) (o : list (string * cell)) :
  (forall k, k ∈ (fold_left tally l o).*1 <-> k ∈ o.*1)
  /\ (NoDup o.*1 -> NoDup (fold_left tally l o).*1).
Proof.
  revert o. induction l as [|a l IH]; intros o; simpl; [tauto|].
  destruct (IH (tally o a)) as [H1 H2].
  destruct (tally_keys o a) as [H3 H4]. split.
  - intros k. now rewrite H1, H3.
  - intros H. now apply H2, H4.
Qed.

Lemma last_label_snoc (opts : list choice) (x : choice) (k : string) :
  last_label (opts ++ [x]) k
  = if String.eqb (opt_id x) k then Some (opt_label x) else last_label opts k.
Proof. unfold last_label. now rewrite fold_left_app. Qed.

Lemma declared_get (opts : list choice) (k : string) :
  Obj.get (fold_left declare opts []) k
  = if String.eqb k "__proto__" then None
    else (fun l => {| label := l; count := 0 |}) <$> last_label opts k.
Proof.
  induction opts as [|x opts IH] using rev_ind;
    [now destruct (String.eqb k "__proto__")|].
  rewrite fold_left_app, last_label_snoc. simpl. unfold declare at 1.
  destruct (String.eqb (opt_id x) "__proto__") eqn:E.
  - rewrite IH. destruct (String.eqb k "__proto__") eqn:Ek; [reflexivity|].
    destruct (String.eqb (opt_id x) k) eqn:Exk; [|reflexivity].
    apply String.eqb_eq in E, Exk. subst k. rewrite E in Ek. discriminate.
  - rewrite get_set, IH. destruct (String.eqb (opt_id x) k) eqn:Exk;
      [|reflexivity].
    apply String.eqb_eq in Exk. subst k. now rewrite E.
Qed.

Lemma declared_keys (opts : list choice) :
  (forall k, k ∈ (fold_left declare opts []).*1
             <-> k ∈ map opt_id opts /\ k <> "__proto__")
  /\ NoDup (fold_left declare opts []).*1.
Proof.
  induction opts as [|x opts [IH1 IH2]] using rev_ind.
  - split; [|apply NoDup_nil_2]. intros k. simpl. split.
    + intros H. now apply elem_of_nil in H.
    + intros [H _]. now apply elem_of_nil in H.
  - rewrite fold_left_app. simpl. unfold declare at 1 3.
    destruct (String.eqb (opt_id x) "__proto__") eqn:E.
    + split; [|exact IH2]. intros k.
      rewrite IH1, map_app, elem_of_app. simpl.
      rewrite list_elem_of_singleton. apply String.eqb_eq in E.
      split; [tauto|]. intros [[H | H] Hk]; [tauto | congruence].
    + split; [|now apply NoDup_set]. intros k.
      rewrite keys_set, IH1, map_app, elem_of_app. simpl.
      rewrite list_elem_of_singleton. apply String.eqb_neq in E.
      split; [intros [-> | H]; tauto | tauto].
Qed.

Lemma last_label_declared (opts : list choice) (o : choice) :
  o ∈ opts ->
  exists l, last_label opts (opt_id o) = Some l
    /\ (NoDup (map opt_id opts) -> l = opt_label o).
Proof.
  induction opts as [|x opts IH] using rev_ind; intros Hin.
  - now apply elem_of_nil in Hin.
  - rewrite last_label_snoc.
    apply elem_of_app in Hin as [Hin | Hin].
    + destruct (IH Hin) as (l & Hl & Hlbl).
      destruct (String.eqb (opt_id x) (opt_id o)) eqn:E.
      * exists (opt_label x). split; [reflexivity|]. intros Hnd.
        rewrite map_app in Hnd. apply NoDup_app in Hnd as (_ & Hsep & _).
        apply String.eqb_eq in E. destruct (Hsep (opt_id o)).
        -- apply list_elem_of_fmap. now exists o.
        -- rewrite <- E. apply list_elem_of_here.
      * exists l. split; [exact Hl|]. intros Hnd. apply Hlbl.
        rewrite map_app in Hnd. now apply NoDup_app in Hnd as (? & _).
    + apply list_elem_of_singleton in Hin. subst x.
      rewrite String.eqb_refl. now exists (opt_label o).
Qed.

(** What the results list for a choice question: one entry for each
    declared option id and no other, with the number of occurrences of that
    id in the stored answers. *)
Lemma optionCounts_entries (q : question) (rs : list response) :
  let opts := map entry (optionCounts q rs) in
  NoDup (map or_id opts)
  /\ (forall r, r ∈ opts ->
      or_id r ∈ validOptions q /\ or_id r <> "__proto__")
  /\ (forall o, o ∈ q_options q -> opt_id o <> "__proto__" ->
      exists r, r ∈ opts
        /\ or_id r = opt_id o
        /\ or_count r = total_occurrences (opt_id o) (answers q rs)
        /\ (NoDup (validOptions q) -> or_label r = opt_label o)).
Proof.
  intros opts. unfold opts, optionCounts.
  destruct (declared_keys (q_options q)) as [Hk Hnd].
  destruct (fold_tally_keys (answers q rs) (fold_left declare (q_options q) []))
    as [Hk' Hnd'].
  assert (Hids : forall l : list (string * cell), map or_id (map entry l) = l.*1).
  { intros l. rewrite map_map. reflexivity. }
  split; [rewrite Hids; now apply Hnd'|]. split.
  - intros r Hr. apply Hk, Hk'. rewrite <- Hids.
    apply list_elem_of_fmap. now exists r.
  - intros o Ho Hproto.
    destruct (last_label_declared _ _ Ho) as (l & Hl & Hlbl).
    pose proof (get_fold_tally (answers q rs)
                  (fold_left declare (q_options q) []) (opt_id o)) as Hget.
    apply String.eqb_neq in Hproto.
    rewrite declared_get, Hproto, Hl in Hget. simpl in Hget.
    apply get_Some_elem in Hget.
    eexists. split; [apply list_elem_of_fmap; eexists; split;
                     [reflexivity | exact Hget]|].
    split; [reflexivity|]. split; [reflexivity|]. exact Hlbl.
Qed.

(** *** The average of a scale question

    The average is the binary64 quotient of the sum by the number of values,
    printed by [toFixed(2)].  The lemmas below follow the standard library's
    [SFdiv] through its rounding steps for two integers below [2^53], and
    the additions of the sum while none of them rounds. *)

Lemma new_location_spec d r :
  0 < d -> 0 <= r < d -> new_location d r = loc_of d r.
Proof.
  intros Hd Hr. unfold new_location, new_location_even, new_location_odd, loc_of.
  destruct (Z.even d) eqn:Ev; destruct (r =? 0) eqn:E0; try reflexivity.
  apply Z.eqb_neq in E0. f_equal.
  assert (Hodd : Z.odd d = true) by (rewrite <- Z.negb_even, Ev; reflexivity).
  apply Z.odd_spec in Hodd as [k Hk].
  destruct (2 * r + 1 ?= d) eqn:C; destruct (2 * r ?= d) eqn:C2; try reflexivity;
    rewrite ?Z.compare_eq_iff, ?Z.compare_lt_iff, ?Z.compare_gt_iff in *; lia.
Qed.

Lemma rne_spec m d r :
  0 < d -> 0 <= r < d ->
  let m1 := round_nearest_even m (loc_of d r) in
  m <= m1 <= m + 1 /\ 2 * Z.abs (m1 * d - (m * d + r)) <= d.
Proof.
  intros Hd Hr. unfold loc_of, round_nearest_even.
  destruct (r =? 0) eqn:E0.
  - apply Z.eqb_eq in E0. subst. cbv zeta. split; lia.
  - apply Z.eqb_neq in E0.
    destruct (2 * r ?= d) eqn:C;
      rewrite ?Z.compare_eq_iff, ?Z.compare_lt_iff, ?Z.compare_gt_iff in C.
    + destruct (Z.even m); cbv zeta; split; lia.
    + cbv zeta. split; lia.
    + cbv zeta. split; lia.
Qed.

Lemma loc_roundtrip m l : loc_of_shr_record (shr_record_of_loc m l) = l.
Proof. destruct l as [|[]]; reflexivity. Qed.

(** One step to the right halves the mantissa and doubles the unit. *)
Lemma shr_1_loc (q : positive) d r :
  0 < d -> 0 <= r < d -> 2 <= Zpos q ->
  let mrs := shr_1 (shr_record_of_loc (Zpos q) (loc_of d r)) in
  shr_m mrs = Zpos q / 2
  /\ loc_of_shr_record mrs = loc_of (2 * d) (Zpos q mod 2 * d + r).
Proof.
  intros Hd Hr Hq. unfold loc_of.
  destruct q as [p|p|]; [| |lia].
  - replace (Z.pos p~1 / 2) with (Zpos p) by (rewrite Pos2Z.inj_xI; apply Z.div_unique with 1; lia).
    replace (Z.pos p~1 mod 2) with 1 by (rewrite Pos2Z.inj_xI; apply Z.mod_unique with (Zpos p); lia).
    destruct (r =? 0) eqn:E0.
    + apply Z.eqb_eq in E0. subst r. simpl shr_record_of_loc. cbn [shr_1 shr_m loc_of_shr_record orb].
      split; [reflexivity|].
      destruct (1 * d + 0 =? 0) eqn:E1; [apply Z.eqb_eq in E1; lia|].
      replace (2 * (1 * d + 0) ?= 2 * d) with Eq; [reflexivity|]. symmetry. apply Z.compare_eq_iff. lia.
    + apply Z.eqb_neq in E0.
      destruct (1 * d + r =? 0) eqn:E1; [apply Z.eqb_eq in E1; lia|].
      replace (2 * (1 * d + r) ?= 2 * d) with Gt by (symmetry; apply Z.compare_gt_iff; lia).
      destruct (2 * r ?= d); cbn [shr_record_of_loc shr_1 shr_m loc_of_shr_record orb]; split; reflexivity.
  - replace (Z.pos p~0 / 2) with (Zpos p) by (rewrite Pos2Z.inj_xO; apply Z.div_unique with 0; lia).
    replace (Z.pos p~0 mod 2) with 0 by (rewrite Pos2Z.inj_xO; apply Z.mod_unique with (Zpos p); lia).
    replace (0 * d + r) with r by lia.
    destruct (r =? 0) eqn:E0.
    + cbn [shr_record_of_loc shr_1 shr_m loc_of_shr_record orb]. split; reflexivity.
    + apply Z.eqb_neq in E0.
      replace (2 * r ?= 2 * d) with Lt by (symmetry; apply Z.compare_lt_iff; lia).
      destruct (2 * r ?= d); cbn [shr_record_of_loc shr_1 shr_m loc_of_shr_record orb]; split; reflexivity.
Qed.

Lemma shr_fexp_shift1 (q : positive) e l :
  2 ^ 53 <= Zpos q < 2 ^ 54 -> -1074 <= e ->
  shr_fexp 53 1024 (Zpos q) e l = (shr_1 (shr_record_of_loc (Zpos q) l), e + 1).
Proof.
  intros Hq He. unfold shr_fexp, fexp, emin. cbn [Zdigits2].
  rewrite (digits_unique q 54) by exact Hq.
  match goal with |- shr _ _ ?n = _ => replace n with 1 by lia end.
  reflexivity.
Qed.

Lemma pow2_pos k : 0 <= k -> 0 < 2 ^ k.
Proof. intros. apply Z.pow_pos_nonneg; lia. Qed.

(** The end of [binary_round_aux]: a mantissa that rounding carried up to
    [2^53] is brought back to 53 digits. *)
Lemma finish_spec s (m1 e1 : Z) :
  2 ^ 52 <= m1 <= 2 ^ 53 -> -1074 <= e1 <= 960 ->
  exists m e2,
    (let '(mrs, e2) := shr_fexp 53 1024 m1 e1 loc_Exact in
     match shr_m mrs with
     | Z0 => S754_zero s
     | Zpos m => if Z.leb e2 (1024 - 53) then S754_finite s m e2
                 else S754_infinity s
     | Zneg _ => S754_nan
     end) = S754_finite s m e2
    /\ normal m /\ e1 <= e2 <= e1 + 1 /\ Zpos m * 2 ^ (e2 - e1) = m1.
Proof.
  intros Hm He. destruct m1 as [|p|p]; try lia.
  destruct (Z_lt_le_dec (Zpos p) (2 ^ 53)) as [Hlt|Hge].
  - exists p, e1. assert (Hn : normal p) by (unfold normal; lia).
    rewrite (shr_fexp_noshift p e1 loc_Exact Hn) by lia.
    cbn [shr_record_of_loc shr_m].
    destruct (e1 <=? 1024 - 53) eqn:E; [|apply Z.leb_gt in E; lia].
    split; [reflexivity|]. split; [exact Hn|]. split; [lia|].
    replace (e1 - e1) with 0 by lia. lia.
  - assert (Hp : Zpos p = 2 ^ 53) by lia.
    rewrite (shr_fexp_shift1 p e1 loc_Exact) by lia.
    change loc_Exact with (loc_of 1 0).
    destruct (shr_1_loc p 1 0) as [Hm' _]; [lia | lia | lia |].
    rewrite Hm', Hp. change (2 ^ 53 / 2) with (Zpos (2 ^ 52)).
    exists (2 ^ 52)%positive, (e1 + 1).
    destruct (e1 + 1 <=? 1024 - 53) eqn:E; [|apply Z.leb_gt in E; lia].
    split; [reflexivity|]. split; [unfold normal; lia|]. split; [lia|].
    replace (e1 + 1 - e1) with 1 by lia. reflexivity.
Qed.

(** Rounding a quotient of 53 or 54 digits, given with its remainder. *)
Lemma round_aux_quotient s (q d r e : Z) :
  0 < d -> 0 <= r < d -> 2 ^ 52 <= q < 2 ^ 54 -> -1074 <= e <= 900 ->
  exists m e2,
    binary_round_aux 53 1024 s q e (loc_of d r) = S754_finite s m e2
    /\ normal m /\ e <= e2 <= e + 2
    /\ 2 ^ 53 * Z.abs (Zpos m * 2 ^ (e2 - e) * d - (q * d + r)) <= q * d + r.
Proof.
  intros Hd Hr Hq He. destruct q as [|pq|pq]; try lia.
  unfold binary_round_aux.
  destruct (Z_lt_le_dec (Zpos pq) (2 ^ 53)) as [Hlt|Hge].
  - assert (Hn : normal pq) by (unfold normal; lia).
    rewrite (shr_fexp_noshift pq e _ Hn) by lia.
    rewrite loc_roundtrip. cbn [shr_record_of_loc].
    replace (shr_m (shr_record_of_loc (Z.pos pq) (loc_of d r))) with (Zpos pq)
      by (destruct (loc_of d r) as [|[]]; reflexivity).
    destruct (rne_spec (Zpos pq) d r Hd Hr) as [Hm1 Herr].
    set (m1 := round_nearest_even (Z.pos pq) (loc_of d r)) in *.
    destruct (finish_spec s m1 e) as (m & e2 & Hfin & Hnm & He2 & Hval);
      [lia | lia |].
    exists m, e2. split; [exact Hfin|]. split; [exact Hnm|]. split; [lia|].
    rewrite Hval. nia.
  - rewrite (shr_fexp_shift1 pq e _) by lia.
    destruct (shr_1_loc pq d r Hd Hr) as [Hm' Hloc]; [lia|].
    rewrite Hm', Hloc.
    assert (Hh : Zpos pq = 2 * (Zpos pq / 2) + Zpos pq mod 2)
      by (apply Z.div_mod; lia).
    assert (Hb : 0 <= Zpos pq mod 2 < 2) by (apply Z.mod_pos_bound; lia).
    set (h := Zpos pq / 2) in *. set (b := Zpos pq mod 2) in *.
    assert (Hr' : 0 <= b * d + r < 2 * d) by nia.
    destruct (rne_spec h (2 * d) (b * d + r)) as [Hm1 Herr]; [lia | exact Hr' |].
    set (m1 := round_nearest_even h (loc_of (2 * d) (b * d + r))) in *.
    destruct (finish_spec s m1 (e + 1)) as (m & e2 & Hfin & Hnm & He2 & Hval);
      [lia | lia |].
    exists m, e2. split; [exact Hfin|]. split; [exact Hnm|]. split; [lia|].
    replace (e2 - e) with ((e2 - (e + 1)) + 1) by lia.
    rewrite Z.pow_add_r by lia.
    replace (Z.pos m * (2 ^ (e2 - (e + 1)) * 2 ^ 1)) with (m1 * 2) by (rewrite <- Hval; lia).
    nia.
Qed.

Lemma SFdiv_normal sa ma ea sb mb eb :
  normal ma -> normal mb -> -52 <= ea <= 0 -> -52 <= eb <= 0 ->
  exists m e,
    SFdiv 53 1024 (S754_finite sa ma ea) (S754_finite sb mb eb)
    = S754_finite (xorb sa sb) m e
    /\ normal m
    /\ ea - eb - 53 <= e <= ea - eb - 51
    /\ 2 ^ 53 * Z.abs (Zpos m * 2 ^ (e - (ea - eb - 53)) * Zpos mb
                       - Zpos ma * 2 ^ 53)
       <= Zpos ma * 2 ^ 53.
Proof.
  intros Hma Hmb Hea Heb. unfold SFdiv, SFdiv_core_binary, fexp, emin.
  cbn [Zdigits2]. rewrite (normal_digits ma Hma), (normal_digits mb Hmb).
  replace (Z.min (Z.max (53 + ea - (53 + eb) - 53) (3 - 1024 - 53)) (ea - eb))
    with (ea - eb - 53) by lia.
  replace (ea - eb - (ea - eb - 53)) with 53 by lia.
  cbv iota. rewrite Z.shiftl_mul_pow2 by lia.
  pose proof (Z_div_mod (Zpos ma * 2 ^ 53) (Zpos mb) eq_refl) as Hdiv.
  destruct (Z.div_eucl (Zpos ma * 2 ^ 53) (Zpos mb)) as [q r].
  destruct Hdiv as [Hqr Hr].
  rewrite (new_location_spec (Zpos mb) r) by lia.
  unfold normal in Hma, Hmb.
  assert (Hq : 2 ^ 52 <= q < 2 ^ 54) by nia.
  destruct (round_aux_quotient (xorb sa sb) q (Zpos mb) r (ea - eb - 53))
    as (m & e & Hres & Hn & He & Herr); [lia | lia | exact Hq | lia |].
  exists m, e. split; [exact Hres|]. split; [exact Hn|]. split; [lia|].
  rewrite Hqr. replace (Z.pos mb * q + r) with (q * Z.pos mb + r) by lia.
  exact Herr.
Qed.

(** The quotient of two small integers, as JS computes it: a binary64
    number within [2^-53] of the exact quotient, relatively. *)
Lemma divide_small (neg : bool) (a b : positive) :
  200 * Zpos a < 2 ^ 53 -> Zpos b < 2 ^ 53 ->
  exists m k,
    divide (binary64 (if neg then Zneg a else Zpos a)) (binary64 (Zpos b))
    = S754_finite neg m (- k)
    /\ normal m /\ 0 < k
    /\ 2 ^ 53 * Z.abs (Zpos m * Zpos b - Zpos a * 2 ^ k) <= Zpos a * 2 ^ k.
Proof.
  intros Ha Hb.
  destruct (binary_round_small neg a) as (ma & ea & Hra & Hna & Hea & Hva); [lia|].
  destruct (binary_round_small false b) as (mb & eb & Hrb & Hnb & Heb & Hvb); [lia|].
  assert (Hxa : binary64 (if neg then Zneg a else Zpos a) = S754_finite neg ma ea)
    by (destruct neg; exact Hra).
  unfold divide. rewrite Hxa. change (binary64 (Zpos b)) with (binary_round 53 1024 false b 0).
  rewrite Hrb.
  destruct (SFdiv_normal neg ma ea false mb eb Hna Hnb Hea Heb)
    as (m & e & Hres & Hn & He & Herr).
  rewrite xorb_false_r in Hres.
  (* a is small, so its exponent is at most -7 *)
  assert (Hea' : ea <= -7).
  { destruct (Z_lt_le_dec (-7) ea) as [Hgt|]; [|lia].
    assert (2 ^ (- ea) <= 2 ^ 6) by (apply Z.pow_le_mono_r; lia).
    unfold normal in Hna. rewrite Hva in Hna.
    assert (Zpos a * 2 ^ (- ea) <= Zpos a * 2 ^ 6) by nia. lia. }
  exists m, (- e). rewrite Z.opp_involutive.
  split; [exact Hres|]. split; [exact Hn|]. split; [lia|].
  set (X := e - (ea - eb - 53) - eb) in *.
  assert (HX : 0 <= X) by (unfold X; lia).
  assert (H1 : Zpos m * 2 ^ (e - (ea - eb - 53)) * Zpos mb
               = (Zpos m * Zpos b) * 2 ^ X).
  { rewrite Hvb. unfold X.
    replace (e - (ea - eb - 53) - eb) with ((e - (ea - eb - 53)) + (- eb)) by lia.
    rewrite Z.pow_add_r by lia. lia. }
  assert (H2 : Zpos ma * 2 ^ 53 = (Zpos a * 2 ^ (- e)) * 2 ^ X).
  { rewrite Hva. rewrite <- !Z.mul_assoc, <- !Z.pow_add_r by lia.
    f_equal. f_equal. unfold X. lia. }
  rewrite H1, H2 in Herr.
  assert (HpX : 0 < 2 ^ X) by (apply pow2_pos; lia).
  replace (Z.pos m * Z.pos b * 2 ^ X - Z.pos a * 2 ^ (- e) * 2 ^ X)
    with ((Z.pos m * Z.pos b - Z.pos a * 2 ^ (- e)) * 2 ^ X) in Herr by lia.
  rewrite Z.abs_mul, (Z.abs_eq (2 ^ X)) in Herr by lia.
  nia.
Qed.

Lemma hundredths_nearest (m a b k : Z) :
  0 < a -> 0 < b -> 0 < k -> 0 < m ->
  200 * a < 2 ^ 53 ->
  2 ^ 53 * Z.abs (m * b - a * 2 ^ k) <= a * 2 ^ k ->
  let h := hundredths m (- k) in
  0 <= h /\ Z.abs (200 * a - 2 * h * b) <= b.
Proof.
  intros Ha Hb Hk Hm Hsmall Herr. unfold hundredths.
  destruct (0 <=? - k) eqn:E; [apply Z.leb_le in E; lia|].
  rewrite Z.opp_involutive, Z.pow_add_r by lia. change (2 ^ 1) with 2.
  assert (HK : 0 < 2 ^ k) by (apply pow2_pos; lia).
  set (K := 2 ^ k) in *. set (D := m * b - a * K) in *.
  assert (HD : 200 * Z.abs D < K) by nia.
  pose proof (Z.div_mod (200 * m + K) (K * 2) ltac:(lia)) as Hdm.
  pose proof (Z.mod_pos_bound (200 * m + K) (K * 2) ltac:(lia)) as Hmod.
  set (h := (200 * m + K) / (K * 2)) in *.
  set (t := (200 * m + K) mod (K * 2)) in *.
  assert (Hh : 0 <= h) by (apply Z.div_pos; lia).
  cbv zeta. split; [exact Hh|].
  assert (Hmb : m * b = a * K + D) by (unfold D; lia).
  assert (H1 : K * (2 * h * b - 200 * a - b) = 200 * D - t * b) by nia.
  assert (H2 : K * (2 * h * b - 200 * a - b) < K) by nia.
  assert (H3 : K * (200 * a - 2 * h * b - b) < K) by nia.
  assert (2 * h * b - 200 * a - b < 1) by nia.
  assert (200 * a - 2 * h * b - b < 1) by nia.
  lia.
Qed.

Lemma small_below_1e21 (m : positive) (k : Z) :
  normal m -> 0 < k -> at_least_1e21 (Zpos m) (- k) = false.
Proof.
  intros Hm Hk. unfold at_least_1e21.
  destruct (0 <=? - k) eqn:E; [apply Z.leb_le in E; lia|].
  rewrite Z.opp_involutive. apply Z.leb_gt.
  assert (1 <= 2 ^ k) by (pose proof (pow2_pos k); lia).
  unfold normal in Hm.
  assert (2 ^ 53 < 10 ^ 21) by reflexivity. nia.
Qed.

Lemma magnitude_nonneg (zs : list Z) : 0 <= magnitude zs.
Proof. induction zs as [|z zs IH]; simpl; lia. Qed.

Lemma total_from (zs : list Z) (acc : Z) :
  Z.abs acc + magnitude zs < 2 ^ 53 ->
  fold_left add (Int <$> zs) (Int acc) = Int (acc + foldr Z.add 0 zs).
Proof.
  revert acc. induction zs as [|z zs IH]; intros acc H.
  - simpl. now rewrite Z.add_0_r.
  - pose proof (magnitude_nonneg zs) as Hzs.
    change (magnitude (z :: zs)) with (Z.abs z + magnitude zs) in H.
    change (fold_left add (Int <$> z :: zs) (Int acc))
      with (fold_left add (Int <$> zs) (round64 (acc + z))).
    rewrite round64_safe by lia. rewrite IH by lia.
    change (foldr Z.add 0 (z :: zs)) with (z + foldr Z.add 0 zs).
    f_equal. lia.
Qed.

(** While the magnitudes sum to less than [2^53], no addition rounds. *)
Lemma total_ints (zs : list Z) :
  magnitude zs < 2 ^ 53 -> total (Int <$> zs) = Int (foldr Z.add 0 zs).
Proof.
  intros H. unfold total. now rewrite total_from by (rewrite Z.abs_0; lia).
Qed.


Lemma sum_le_magnitude (zs : list Z) :
  Z.abs (foldr Z.add 0 zs) <= magnitude zs.
Proof. induction zs as [|v zs IH]; simpl; lia. Qed.

(** The printed average is the sign of the sum followed by [h / 100] in two
    decimals, where [h / 100] is a hundredth nearest to the exact mean of
    the magnitudes: [| |sum| / n - h / 100 | <= 1 / 200]. *)
Lemma average_nearest (zs : list Z) :
  zs <> [] ->
  200 * magnitude zs < 2 ^ 53 ->
  Z.of_nat (length zs) < 2 ^ 53 ->
  exists h,
    average (Int <$> zs)
    = Some (Digits (fixed2 (foldr Z.add 0 zs <? 0) h))
    /\ 0 <= h
    /\ Z.abs (200 * Z.abs (foldr Z.add 0 zs)
              - 2 * h * Z.of_nat (length zs))
       <= Z.of_nat (length zs).
Proof.
  intros Hne Hmag Hlen.
  assert (Hsum : 200 * Z.abs (foldr Z.add 0 zs) < 2 ^ 53)
    by (pose proof (sum_le_magnitude zs); lia).
  assert (Htot : total (Int <$> zs) = Int (foldr Z.add 0 zs)).
  { apply total_ints. pose proof (magnitude_nonneg zs). lia. }
  assert (Havg : average (Int <$> zs)
                 = Some (toFixed2
                           (divide (to_float (total (Int <$> zs)))
                              (binary64 (Z.of_nat (length (Int <$> zs)))))))
    by (destruct zs; [congruence | reflexivity]).
  rewrite Havg, Htot, length_fmap. cbn [to_float]. clear Hmag Havg Htot.
  remember (foldr Z.add 0 zs) as T eqn:ET.
  remember (Z.of_nat (length zs)) as n eqn:En.
  assert (Hn : 0 < n) by (subst n; destruct zs; [congruence | simpl; lia]).
  clear ET En. destruct n as [|b|b]; try lia.
  destruct T as [|a|a].
  - exists 0. split; [|simpl; lia].
    destruct (binary_round_small false b) as (mb & eb & Hrb & _); [lia|].
    change (binary64 (Zpos b)) with (binary_round 53 1024 false b 0).
    rewrite Hrb. reflexivity.
  - destruct (divide_small false a b) as (m & k & Hdiv & Hm & Hk & Herr);
      [lia | lia |].
    cbv iota in Hdiv. rewrite Hdiv. unfold toFixed2.
    rewrite (small_below_1e21 m k Hm Hk).
    destruct (hundredths_nearest (Zpos m) (Zpos a) (Zpos b) k) as [Hh Hnear];
      try lia.
    exists (hundredths (Zpos m) (- k)). split; [reflexivity|].
    split; [exact Hh|]. change (Z.abs (Zpos a)) with (Zpos a). exact Hnear.
  - destruct (divide_small true a b) as (m & k & Hdiv & Hm & Hk & Herr);
      [lia | lia |].
    cbv iota in Hdiv. rewrite Hdiv. unfold toFixed2.
    rewrite (small_below_1e21 m k Hm Hk).
    destruct (hundredths_nearest (Zpos m) (Zpos a) (Zpos b) k) as [Hh Hnear];
      try lia.
    exists (hundredths (Zpos m) (- k)). split; [reflexivity|].
    split; [exact Hh|]. change (Z.abs (Zneg a)) with (Zpos a). exact Hnear.
Qed.

(** *** The results of a survey *)




(** ** The scenario of the specification

    A survey with a required text question and a scale from 1 to 5 is
    created in a fresh process; the questions come without ids. *)

Example scenario_created :
  surveys scenario_store !! "survey_1" = Some scenario_survey
  /\ currentSurveyId scenario_store = Some "survey_1".
Proof. split; reflexivity. Qed.

Example scenario_second_creation_refused :
  createSurvey scenario_store scenario_body sample_env
  = (scenario_store, Fail (AlreadyActive "survey_1"))
  /\ status (AlreadyActive "survey_1") = 409.
Proof. split; reflexivity. Qed.

Example scenario_empty_submission :
  submitResponse scenario_store "survey_1" ∅ sample_env
  = (scenario_store,
     Fail (ValidationFailed
             ["Question " +:+ dquote +:+ "Your name" +:+ dquote
              +:+ " is required"])).
Proof. reflexivity. Qed.

Example scenario_accepted_submission :
  let '(st, reply) :=
    submitResponse scenario_store "survey_1" scenario_answers sample_env in
  reply = Ok "response_1704067200000_4fzyo82mv"
  /\ match getResults st "survey_1" None with
     | Ok res =>
         res_totalResponses res = 1%nat
         /\ qr_detail <$> res_questions res
            = [ TextResponses [VStr "hi"];
                ScaleStats [Int 3] (Some (Digits "3.00")) ]
     | _ => False
     end.
Proof. vm_compute. repeat split; reflexivity. Qed.

Lemma submitResponse_stores_body_witness :
  let r := new_response scenario_answers sample_env in
  let st' :=
    fst (submitResponse scenario_store "survey_1" scenario_answers sample_env) in
  (reachable scenario_store
   /\ surveys scenario_store !! "survey_1" = Some scenario_survey
   /\ validateResponse scenario_survey scenario_answers = [])
  /\ r_data r !! "note" = Some (VStr "kept")
  /\ forall rqs, exists sv',
       surveys (run st' rqs) !! "survey_1" = Some sv'
       /\ r ∈ s_responses sv'.
Proof.
  intros r st'.
  assert (H1 : reachable scenario_store).
  { exists None, None, sample_env, [CreateSurvey scenario_body sample_env].
    reflexivity. }
  assert (H2 : surveys scenario_store !! "survey_1" = Some scenario_survey)
    by reflexivity.
  assert (H3 : validateResponse scenario_survey scenario_answers = [])
    by reflexivity.
  destruct (submitResponse_stores_body scenario_store "survey_1"
              scenario_survey scenario_answers sample_env H1 H2 H3)
    as (_ & _ & _ & _ & _ & Hkept).
  split; [split; [exact H1 | split; [exact H2 | exact H3]]|].
  split; [reflexivity|].
  intros rqs. destruct (Hkept rqs) as (sv' & Hsv' & _ & Hin).
  exists sv'. split; [exact Hsv' | exact Hin].
Defined.

Example scenario_update :
  let st :=
    fst (submitResponse scenario_store "survey_1" scenario_answers sample_env) in
  let body :=
    {| b_title := Some "Feedback, second round"; b_description := None;
       b_elements :=
         Some [ Some {| q_id := None; q_text := "Rate us again";
                        q_required := true; q_type := Scale; q_options := [];
                        q_minValue := 1; q_maxValue := 10 |} ] |} in
  snd (updateSurvey st "survey_1" (Some "wrong") body sample_env)
  = Fail Unauthorized
  /\ snd (updateSurvey st "survey_2" (Some "4fzyo82mvyr") body sample_env)
     = Fail NotFound
  /\ match surveys (fst (updateSurvey st "survey_1" (Some "4fzyo82mvyr")
                           body sample_env)) !! "survey_1" with
     | Some sv =>
         s_title sv = "Feedback, second round"
         /\ q_id <$> s_questions sv = ["q_0"]
         /\ s_adminToken sv = "4fzyo82mvyr"
         /\ r_data <$> s_responses sv = [scenario_answers]
         /\ s_updatedAt sv = Some "2024-01-01T00:00:00.000Z"
     | None => False
     end.
Proof. vm_compute. repeat split; reflexivity. Qed.

Example scenario_results_tokens :
  getResults scenario_store "survey_1" None = Ok (aggregate scenario_survey)
  /\ getResults scenario_store "survey_1" (Some "4fzyo82mvyr")
     = Ok (aggregate scenario_survey)
  /\ getResults scenario_store "survey_1" (Some "wrong") = Fail Unauthorized
  /\ getResults scenario_store "survey_2" None = Fail NotFound.
Proof. repeat split; reflexivity. Qed.

(** ** Further properties of the server and of the creator page *)
(** *** More on validation *)

Lemma string_of_Z_truthy (n : Z) : truthy (VStr (string_of_Z n)) = true.
Proof.
  simpl. destruct (String.eqb (string_of_Z n) EmptyString) eqn:E; [|reflexivity].
  apply String.eqb_eq in E. pose proof (mathInt_string_of_Z n) as H.
  rewrite E in H. discriminate H.
Qed.

(** X1: for a text question and an answer that passes the presence test,
    validation accepts exactly the strings of at most 5000 characters; a
    longer string gets the length message alone, and an answer that is no
    string gets the text message, followed by the length message when it
    is an array of more than 5000 elements. *)
Theorem text_accepts_exactly_short_strings (q : question) :
  q_type q = Text ->
  forall answer, truthy answer = true ->
    (validate_question q answer = [] <->
     exists s, answer = VStr s /\ (String.length s <= 5000)%nat)
    /\ (forall s, answer = VStr s -> (5000 < String.length s)%nat ->
        validate_question q answer = [msg_long q])
    /\ (isString answer = false ->
        validate_question q answer
        = if length_gt answer 5000 then [msg_text q; msg_long q]
          else [msg_text q])
    /\ (forall l, answer = VArr l ->
        length_gt answer 5000 = true <-> (5000 < length l)%nat).
Proof.
  intros Hty answer Ha.
  rewrite (validate_question_truthy q answer Ha). unfold check_type.
  rewrite Hty. unfold check_text. rewrite Ha. simpl andb.
  split; [|split; [|split]].
  - destruct answer as [| |b|n|s|l|m]; simpl; try discriminate Ha;
      try (split; [discriminate | intros (s0 & [=] & _)]).
    destruct (5000 <? Z.of_nat (String.length s)) eqn:E.
    + apply Z.ltb_lt in E. split; [discriminate|].
      intros (s0 & [= <-] & Hlen). lia.
    + apply Z.ltb_ge in E. split; [|reflexivity].
      intros _. exists s. split; [reflexivity | lia].
  - intros s -> Hlen. simpl.
    destruct (5000 <? Z.of_nat (String.length s)) eqn:E; [reflexivity|].
    apply Z.ltb_ge in E. lia.
  - intros Hs. rewrite Hs. simpl negb. cbv iota.
    now destruct (length_gt answer 5000).
  - intros l ->. simpl. rewrite Z.ltb_lt. lia.
Qed.

Lemma text_accepts_exactly_short_strings_witness :
  let q := text_question in
  q_type q = Text
  /\ validate_question q (VStr "Ann") = []
  /\ validate_question q (VNum 7) = [msg_text q].
Proof.
  intros q.
  pose proof (text_accepts_exactly_short_strings q eq_refl) as T.
  split; [reflexivity|]. split.
  - destruct (T (VStr "Ann") eq_refl) as (Hok & _). apply Hok.
    exists "Ann". split; [reflexivity | simpl; lia].
  - destruct (T (VNum 7) eq_refl) as (_ & _ & Hother & _).
    exact (Hother eq_refl).
Defined.








(** *** What a failed request leaves behind *)

(** X4: a request that is answered with a failure other than
    InternalError leaves the store as it was.  A creation that fails with
    InternalError has drawn an id: the counter is one higher and nothing
    else has changed.  An update of a stored survey that fails with
    InternalError has replaced the title and the description of that
    survey and nothing else.  Every other request that fails with
    InternalError leaves the store as it was. *)
Theorem failed_request_keeps_store (st : store) (rq : request) :
  let st' := fst (handle st rq) in
  (forall f, failure_of (snd (handle st rq)) = Some f ->
     f <> InternalError -> st' = st)
  /\ (failure_of (snd (handle st rq)) = Some InternalError ->
      match rq with
      | CreateSurvey _ _ =>
          surveys st' = surveys st
          /\ nextId st' = nextId st + 1
          /\ currentSurveyId st' = currentSurveyId st
          /\ currentSurveyAdminToken st' = currentSurveyAdminToken st
      | UpdateSurvey surveyId _ b _ =>
          match surveys st !! surveyId with
          | None => st' = st
          | Some sv =>
              exists title sv',
                b_title b = Some title
                /\ st' = with_survey st surveyId sv'
                /\ s_title sv' = title
                /\ (forall d, b_description b = Some d ->
                    s_description sv' = d)
                /\ (b_description b = None ->
                    s_description sv' = EmptyString)
                /\ s_questions sv' = s_questions sv
                /\ s_responses sv' = s_responses sv
                /\ s_id sv' = s_id sv
                /\ s_adminToken sv' = s_adminToken sv
                /\ s_createdAt sv' = s_createdAt sv
                /\ s_updatedAt sv' = s_updatedAt sv
          end
      | _ => st' = st
      end).
Proof.
  cbv zeta. split.
  - intros f.
    destruct rq as [b e|sid tok b e| | |sid body e|]; simpl; try reflexivity.
    + unfold createSurvey.
      destruct (present (currentSurveyId st)); [reflexivity|].
      destruct (invalid_body b); [reflexivity|]. unfold generateId.
      destruct (b_questions b); simpl; [discriminate|].
      intros [= <-]. congruence.
    + unfold updateSurvey.
      destruct (surveyAt st sid) as [sv|m|]; try reflexivity;
        (destruct (negb _); [reflexivity|]);
        (destruct (invalid_body b); [reflexivity|]);
        destruct (b_questions b); simpl; try reflexivity; try discriminate.
      intros [= <-]. congruence.
    + unfold submitResponse.
      destruct (surveyAt st sid) as [sv|m|]; try reflexivity.
      cbv zeta. destruct (validateResponse sv body);
        [discriminate | reflexivity].
  - destruct rq as [b e|sid tok b e| | |sid body e|]; simpl; try reflexivity.
    + unfold createSurvey.
      destruct (present (currentSurveyId st)); [discriminate|].
      destruct (invalid_body b); [discriminate|]. unfold generateId.
      destruct (b_questions b); simpl; [discriminate|].
      intros _. repeat split; reflexivity.
    + unfold updateSurvey, surveyAt.
      destruct (surveys st !! sid) as [sv|].
      * destruct (negb _); [discriminate|].
        destruct (invalid_body b) eqn:Hv; [discriminate|].
        destruct (b_questions b); simpl; [discriminate|]. intros _.
        unfold invalid_body in Hv. apply orb_false_elim in Hv as [Ht _].
        apply negb_false_iff in Ht.
        destruct (present_or_else _ EmptyString Ht) as [Hsome _].
        destruct (or_else_description (b_description b)) as [Hd Hnd].
        exists (or_else (b_title b) EmptyString), (retitled sv b).
        split; [exact Hsome|]. split; [reflexivity|].
        split; [reflexivity|]. split; [exact Hd|]. split; [exact Hnd|].
        repeat split; reflexivity.
      * intros _. destruct (inherited sid); [|reflexivity].
        destruct (negb _); [reflexivity|].
        destruct (invalid_body b); [reflexivity|].
        destruct (b_questions b); reflexivity.
    + unfold submitResponse.
      destruct (surveyAt st sid) as [sv|m|]; try reflexivity.
      cbv zeta. destruct (validateResponse sv body);
        [discriminate | reflexivity].
Qed.

Lemma failed_request_keeps_store_witness :
  let rq := SubmitResponse "survey_1" ∅ sample_env in
  fst (handle scenario_store rq) = scenario_store.
Proof.
  intros rq.
  destruct (failed_request_keeps_store scenario_store rq) as (Hkeep & _).
  refine (Hkeep _ eq_refl _). discriminate.
Defined.

(** *** Numbers and their digits *)

(** X5: an integer of magnitude below [2^53] and the string of its
    decimal digits are read alike: [parseInt] gives the integer back for
    both, the results list the same value for both, and a scale question
    accepts a non-zero one exactly when it lies within the bounds, whichever
    of the two is sent. *)
Theorem scale_number_or_digits (q : question) (n : Z) :
  Z.abs n < 2 ^ 53 ->
  parseInt (VNum n) = Int n
  /\ parseInt (VStr (string_of_Z n)) = Int n
  /\ (forall rs, scaleValues q (stored_answers (q_id q) [VNum n] ++ rs)
                 = scaleValues q (stored_answers (q_id q) [VStr (string_of_Z n)] ++ rs))
  /\ (q_type q = Scale -> n <> 0 ->
      validate_question q (VNum n) = validate_question q (VStr (string_of_Z n))
      /\ (validate_question q (VNum n) = [] <->
          q_minValue q <= n <= q_maxValue q)).
Proof.
  intros Hsafe.
  destruct (parseInt_safe n Hsafe) as [Hs Hp].
  split; [exact Hp|]. split; [exact Hs|]. split.
  - intros rs. unfold scaleValues, answers, stored_answers. simpl.
    unfold prop. rewrite !lookup_singleton_eq. simpl.
    now rewrite Hp, Hs.
  - intros Hty Hn.
    assert (Ht : truthy (VNum n) = true)
      by (simpl; now apply negb_true_iff, Z.eqb_neq).
    rewrite !validate_question_truthy
      by (exact Ht || apply string_of_Z_truthy).
    unfold check_type. rewrite Hty. split.
    + unfold check_scale. now rewrite Ht, string_of_Z_truthy, Hp, Hs.
    + rewrite (check_scale_accepts q _ Ht), Hp. split.
      * now intros (m & [= <-] & H).
      * intros H. now exists n.
Qed.

Lemma scale_number_or_digits_witness :
  Z.abs 4 < 2 ^ 53
  /\ parseInt (VNum 4) = Int 4
  /\ parseInt (VStr "4") = Int 4.
Proof.
  split; [reflexivity|].
  destruct (scale_number_or_digits (scale_question false 1 5) 4 eq_refl)
    as (Hn & Hs & _).
  split; [exact Hn | exact Hs].
Defined.

Lemma append_inj_l (pre a b : string) : pre +:+ a = pre +:+ b -> a = b.
Proof.
  induction pre as [|c pre IH]; intros H; [exact H|].
  rewrite !append_String in H. injection H as H. now apply IH.
Qed.

(** Names made of a prefix and the position are distinct. *)
Lemma positional_names_distinct {A} (pre : string) (name : A -> string)
    (l : list A) :
  (forall i x, l !! i = Some x -> name x = pre +:+ string_of_nat i) ->
  NoDup (name <$> l).
Proof.
  intros Hname. apply NoDup_alt. intros i j s Hi Hj.
  rewrite list_lookup_fmap in Hi, Hj.
  destruct (l !! i) as [a|] eqn:Ea; [|discriminate].
  destruct (l !! j) as [b|] eqn:Eb; [|discriminate].
  injection Hi as Hi. injection Hj as Hj.
  rewrite (Hname _ _ Ea) in Hi. rewrite (Hname _ _ Eb) in Hj.
  rewrite <- Hj in Hi. now apply append_inj_l, string_of_nat_inj in Hi.
Qed.
(** *** Invariants of the reachable stores *)

Lemma reachable_ind (P : store -> Prop) :
  P empty_store ->
  (forall st d e, P st -> P (fst (initializeSurvey st (Some d) e))) ->
  (forall st rq, P st -> P (fst (handle st rq))) ->
  forall st, reachable st -> P st.
Proof.
  intros H0 Hinit Hstep st (w & f & e & rqs & ->).
  assert (Hb : P (boot w f e)).
  { unfold boot.
    assert (H1 : P (fst (initializeSurvey empty_store w e)))
      by (destruct w; [now apply Hinit | exact H0]).
    destruct f as [d|]; [|exact H1].
    destruct (present (sd_surveyId d)); [now apply Hinit | exact H1]. }
  revert Hb. generalize (boot w f e). clear -Hstep.
  induction rqs as [|rq rqs IH]; intros st Hst; [exact Hst|].
  change (run st (rq :: rqs)) with (run (fst (handle st rq)) rqs).
  now apply IH, Hstep.
Qed.

(** What a request can do to the map of surveys: nothing, write the survey
    of a key that is there, or, with no active survey, add one. *)
Lemma handle_surveys (st : store) (rq : request) :
  surveys (fst (handle st rq)) = surveys st
  /\ currentSurveyId (fst (handle st rq)) = currentSurveyId st
  /\ currentSurveyAdminToken (fst (handle st rq)) = currentSurveyAdminToken st
  \/ (exists k sv sv',
        surveys st !! k = Some sv
        /\ surveys (fst (handle st rq)) = <[k := sv']> (surveys st)
        /\ s_id sv' = s_id sv /\ s_adminToken sv' = s_adminToken sv
        /\ (s_questions sv' = s_questions sv
            \/ exists qs, s_questions sv' = assign_ids qs)
        /\ currentSurveyId (fst (handle st rq)) = currentSurveyId st
        /\ currentSurveyAdminToken (fst (handle st rq))
           = currentSurveyAdminToken st)
  \/ (exists k sv',
        present (currentSurveyId st) = false
        /\ surveys (fst (handle st rq)) = <[k := sv']> (surveys st)
        /\ s_id sv' = k /\ k <> EmptyString
        /\ (exists qs, s_questions sv' = assign_ids qs)
        /\ currentSurveyId (fst (handle st rq)) = Some k
        /\ currentSurveyAdminToken (fst (handle st rq))
           = Some (s_adminToken sv')).
Proof.
  destruct rq as [b e|sid tok b e| | |sid body e|]; simpl; auto.
  - unfold createSurvey. destruct (present (currentSurveyId st)) eqn:Hact; auto.
    destruct (invalid_body b); auto. unfold generateId.
    destruct (b_questions b); [|now left]. right. right. simpl.
    eexists _, _. split; [reflexivity|]. split; [reflexivity|].
    split; [reflexivity|]. split; [discriminate|].
    split; [eexists; reflexivity|]. split; reflexivity.
  - unfold updateSurvey, surveyAt.
    destruct (surveys st !! sid) as [sv|] eqn:E.
    2:{ destruct (inherited sid); auto. destruct (negb _); auto.
        destruct (invalid_body b); auto. destruct (b_questions b); auto. }
    destruct (negb _); auto. destruct (invalid_body b); auto.
    right. left. destruct (b_questions b); simpl.
    + eexists sid, sv, _. split; [exact E|].
      split; [reflexivity|]. simpl. split; [reflexivity|].
      split; [reflexivity|]. split; [right; eexists; reflexivity|].
      split; reflexivity.
    + eexists sid, sv, _. split; [exact E|].
      split; [reflexivity|]. simpl. split; [reflexivity|].
      split; [reflexivity|]. split; [now left|]. split; reflexivity.
  - unfold submitResponse, surveyAt.
    destruct (surveys st !! sid) as [sv|] eqn:E;
      [|destruct (inherited sid); auto].
    cbv zeta. destruct (validateResponse sv body); auto.
    right. left. simpl. eexists sid, sv, _. split; [exact E|].
    split; [reflexivity|]. simpl. split; [reflexivity|].
    split; [reflexivity|]. split; [now left|]. split; reflexivity.
Qed.

Lemma initializeSurvey_surveys (st : store) (d : survey_data) (e : env) :
  exists k sv',
    surveys (fst (initializeSurvey st (Some d) e)) = <[k := sv']> (surveys st)
    /\ s_id sv' = k /\ k <> EmptyString
    /\ s_questions sv' = assign_ids (sd_questions d)
    /\ currentSurveyId (fst (initializeSurvey st (Some d) e)) = Some k
    /\ currentSurveyAdminToken (fst (initializeSurvey st (Some d) e))
       = Some (s_adminToken sv').
Proof.
  unfold initializeSurvey. destruct (present (sd_surveyId d)) eqn:E; simpl.
  - destruct (present_or_else _ EmptyString E) as [_ Hne].
    eexists _, _. split; [reflexivity|]. simpl. repeat split; auto.
  - eexists _, _. split; [reflexivity|]. simpl.
    repeat split; auto; discriminate.
Qed.

Lemma reachable_token_known (st : store) :
  reachable st -> active_token_known st.
Proof.
  apply reachable_ind.
  - split; [intros k sv H; simpl in H; now rewrite lookup_empty in H|].
    intros a H. discriminate H.
  - intros st0 d e [Hid Hact]. unfold active_token_known.
    destruct (initializeSurvey_surveys st0 d e)
      as (k & sv' & -> & Hk & Hne & _ & -> & ->). split.
    + intros k' sv. rewrite lookup_insert. case_decide as Hd.
      * subst k'. now intros [= <-].
      * apply Hid.
    + intros a [= <-]. split; [exact Hne|]. exists sv'.
      split; [apply lookup_insert_eq | reflexivity].
  - intros st0 rq [Hid Hact]. unfold active_token_known.
    destruct (handle_surveys st0 rq)
      as [(-> & -> & ->)
         |[(k & sv & sv' & Hk & -> & Hsid & Htok & _ & -> & ->)
          |(k & sv' & _ & -> & Hsid & Hne & _ & -> & ->)]].
    + now split.
    + split.
      * intros k' x. rewrite lookup_insert. case_decide as Hd.
        -- subst k'. intros [= <-]. rewrite Hsid. now apply Hid.
        -- apply Hid.
      * intros a Ha. destruct (Hact a Ha) as (Hne & x & Hx & Ht).
        split; [exact Hne|]. rewrite lookup_insert. case_decide as Hd.
        -- subst a. exists sv'. split; [reflexivity|].
           rewrite Hk in Hx. injection Hx as <-. now rewrite Htok.
        -- now exists x.
    + split.
      * intros k' x. rewrite lookup_insert. case_decide as Hd.
        -- subst k'. now intros [= <-].
        -- apply Hid.
      * intros a [= <-]. split; [exact Hne|]. exists sv'.
        split; [apply lookup_insert_eq | reflexivity].
Qed.

(** X6: in every store the process can reach, the active survey is stored
    under its own id, and the admin link of the home page carries the
    token that opens its admin view; the pages of that id are served. *)
Theorem home_admin_link_opens_admin (st : store) (origin : string) :
  reachable st ->
  forall active, currentSurveyId st = Some active ->
    exists sv,
      surveys st !! active = Some sv
      /\ s_id sv = active
      /\ homeAdminUrl st origin
         = Some (origin +:+ "/admin/" +:+ active +:+ "?token="
                 +:+ s_adminToken sv)
      /\ pageServed st active = true
      /\ getAdmin st active (Some (s_adminToken sv)) = Ok sv.
Proof.
  intros Hreach active Hcur.
  destruct (reachable_token_known st Hreach) as [Hid Hact].
  destruct (Hact active Hcur) as (Hne & sv & Hsv & Htok).
  exists sv. split; [exact Hsv|]. split; [now apply Hid|]. split; [|split].
  - unfold homeAdminUrl. rewrite Hcur, Htok.
    rewrite (proj2 (present_some active) Hne), (or_else_some _ _ Hne).
    reflexivity.
  - unfold pageServed. now apply bool_decide_eq_true_2.
  - unfold getAdmin. rewrite (surveyAt_own _ _ _ Hsv).
    now rewrite bool_decide_eq_true_2.
Qed.

Lemma home_admin_link_opens_admin_witness :
  reachable scenario_store
  /\ homeAdminUrl scenario_store "http://localhost:3000"
     = Some "http://localhost:3000/admin/survey_1?token=4fzyo82mvyr"
  /\ getAdmin scenario_store "survey_1" (Some "4fzyo82mvyr")
     = Ok scenario_survey.
Proof.
  assert (H1 : reachable scenario_store).
  { exists None, None, sample_env, [CreateSurvey scenario_body sample_env].
    reflexivity. }
  destruct (home_admin_link_opens_admin scenario_store "http://localhost:3000"
              H1 "survey_1" eq_refl) as (sv & Hsv & _ & Hurl & _ & Hadm).
  assert (E : sv = scenario_survey)
    by (assert (H2 : surveys scenario_store !! "survey_1" = Some scenario_survey)
          by reflexivity; congruence).
  subst sv. split; [exact H1|]. split; [exact Hurl | exact Hadm].
Defined.






(** *** Question ids *)

Lemma assign_id_nonempty (i : nat) (qi : question_input) :
  q_id (assign_id i qi) <> EmptyString.
Proof.
  simpl. destruct (q_id qi) as [s|]; simpl; [|discriminate].
  destruct (String.eqb s EmptyString) eqn:E; [discriminate|].
  now apply String.eqb_neq.
Qed.

Lemma assign_ids_nonempty (qs : list question_input) (q : question) :
  q ∈ assign_ids qs -> q_id q <> EmptyString.
Proof.
  intros H. apply list_elem_of_lookup in H as [i Hi].
  rewrite assign_ids_lookup in Hi.
  destruct (qs !! i) as [qi|]; [|discriminate]. injection Hi as <-.
  apply assign_id_nonempty.
Qed.

Lemma assign_id_as_input (i : nat) (q : question) :
  q_id q <> EmptyString -> assign_id i (as_input q) = q.
Proof.
  destruct q as [id text req ty opts lo hi]. unfold assign_id, as_input.
  cbn [q_id q_text q_required q_type q_options q_minValue q_maxValue].
  intros Hne. now rewrite (or_else_some _ _ Hne).
Qed.

Lemma reachable_question_ids (st : store) :
  reachable st ->
  forall k sv q, surveys st !! k = Some sv -> q ∈ s_questions sv ->
    q_id q <> EmptyString.
Proof.
  revert st. apply (reachable_ind (fun st =>
    forall k sv q, surveys st !! k = Some sv ->
      q ∈ s_questions sv -> q_id q <> EmptyString)).
  - intros k sv q H. simpl in H. now rewrite lookup_empty in H.
  - intros st d e IH k sv q.
    destruct (initializeSurvey_surveys st d e)
      as (k0 & sv' & -> & _ & _ & Hqs & _).
    rewrite lookup_insert. case_decide as Hd.
    + intros [= <-]. rewrite Hqs. apply assign_ids_nonempty.
    + apply IH.
  - intros st rq IH k sv q.
    destruct (handle_surveys st rq)
      as [(-> & _)
         |[(k0 & sv0 & sv' & Hk & -> & _ & _ & Hqs & _)
          |(k0 & sv' & _ & -> & _ & _ & (qs & Hqs) & _)]].
    + apply IH.
    + rewrite lookup_insert. case_decide as Hd; [|apply IH].
      intros [= <-]. destruct Hqs as [-> | (qs & ->)].
      * now apply (IH k0 sv0).
      * apply assign_ids_nonempty.
    + rewrite lookup_insert. case_decide as Hd; [|apply IH].
      intros [= <-]. rewrite Hqs. apply assign_ids_nonempty.
Qed.

(** X8: every question of every stored survey has a non-empty id, which
    the id assignment leaves as it is. *)
Theorem stored_question_ids_nonempty (st : store) :
  reachable st ->
  forall k sv q, surveys st !! k = Some sv -> q ∈ s_questions sv ->
    q_id q <> EmptyString
    /\ present (Some (q_id q)) = true
    /\ assign_id 0 (as_input q) = q.
Proof.
  intros Hreach k sv q Hsv Hq.
  pose proof (reachable_question_ids st Hreach k sv q Hsv Hq) as Hne.
  split; [exact Hne|]. split; [now apply present_some|].
  now apply assign_id_as_input.
Qed.

Lemma stored_question_ids_nonempty_witness :
  reachable scenario_store
  /\ forall q, q ∈ s_questions scenario_survey ->
       q_id q <> EmptyString /\ assign_id 0 (as_input q) = q.
Proof.
  assert (H1 : reachable scenario_store).
  { exists None, None, sample_env, [CreateSurvey scenario_body sample_env].
    reflexivity. }
  split; [exact H1|]. intros q Hq.
  destruct (stored_question_ids_nonempty scenario_store H1 "survey_1"
              scenario_survey q eq_refl Hq) as (Hne & _ & Has).
  split; [exact Hne | exact Has].
Defined.

(** X9: questions that come without ids get the ids [q_0], [q_1], ... of
    their positions, which are pairwise distinct. *)
Theorem assigned_ids_distinct (qs : list question_input) :
  (forall qi, qi ∈ qs -> present (q_id qi) = false) ->
  NoDup (q_id <$> assign_ids qs)
  /\ forall i q, assign_ids qs !! i = Some q ->
       q_id q = "q_" +:+ string_of_nat i.
Proof.
  intros Hnone.
  assert (Hid : forall i q, assign_ids qs !! i = Some q ->
                            q_id q = "q_" +:+ string_of_nat i).
  { intros i q Hi. rewrite assign_ids_lookup in Hi.
    destruct (qs !! i) as [qi|] eqn:E; [|discriminate]. injection Hi as <-.
    pose proof (Hnone qi ltac:(eapply list_elem_of_lookup_2; exact E)) as Hp.
    simpl. destruct (q_id qi) as [s|]; simpl in *; [|reflexivity].
    destruct (String.eqb s EmptyString); [reflexivity | discriminate]. }
  split; [|exact Hid]. now apply (positional_names_distinct "q_").
Qed.

Lemma assigned_ids_distinct_witness :
  (forall qi, qi ∈ default [] (b_questions scenario_body) ->
              present (q_id qi) = false)
  /\ NoDup (q_id <$> assign_ids (default [] (b_questions scenario_body))).
Proof.
  assert (H : forall qi, qi ∈ default [] (b_questions scenario_body) ->
                         present (q_id qi) = false).
  { intros qi Hq. simpl in Hq.
    repeat (apply elem_of_cons in Hq as [-> | Hq]; [reflexivity|]).
    now apply elem_of_nil in Hq. }
  split; [exact H|].
  exact (proj1 (assigned_ids_distinct _ H)).
Defined.

Lemma assign_ids_as_input (qs : list question) :
  (forall q, q ∈ qs -> q_id q <> EmptyString) ->
  assign_ids (as_input <$> qs) = qs.
Proof.
  intros H. apply list_eq. intros i.
  rewrite assign_ids_lookup, list_lookup_fmap.
  destruct (qs !! i) as [q|] eqn:E; [|reflexivity]. simpl. f_equal.
  pose proof (H q ltac:(eapply list_elem_of_lookup_2; exact E)) as Hne.
  now apply assign_id_as_input.
Qed.

(** X10: updating a survey with the questions its public view shows
    keeps the questions, their ids and the responses, hence the outcome of
    every validation. *)
Theorem resubmitted_questions_keep_ids
    (st : store) (surveyId : string) (sv : survey) (view : public_view)
    (b : survey_body) (e : env) :
  reachable st ->
  surveys st !! surveyId = Some sv ->
  getSurvey st surveyId = Ok view ->
  b_questions b = Some (as_input <$> p_questions view) ->
  invalid_body b = false ->
  exists sv',
    surveys (fst (updateSurvey st surveyId (Some (s_adminToken sv)) b e))
      !! surveyId = Some sv'
    /\ s_questions sv' = s_questions sv
    /\ s_responses sv' = s_responses sv
    /\ forall body, validateResponse sv' body = validateResponse sv body.
Proof.
  intros Hreach Hsv Hview Hqs Hvalid.
  unfold getSurvey in Hview. rewrite (surveyAt_own _ _ _ Hsv) in Hview.
  injection Hview as <-. simpl in Hqs.
  unfold updateSurvey. rewrite (surveyAt_own _ _ _ Hsv).
  rewrite bool_decide_eq_true_2 by reflexivity. rewrite Hvalid, Hqs.
  cbn [negb]. cbv zeta. cbn [fst].
  eexists. split; [apply lookup_insert_eq|]. cbn [s_questions s_responses].
  assert (Hsame : assign_ids (as_input <$> s_questions sv) = s_questions sv).
  { apply assign_ids_as_input. intros q Hq.
    now apply (reachable_question_ids st Hreach surveyId sv q Hsv Hq). }
  split; [exact Hsame|]. split; [reflexivity|].
  intros body. unfold validateResponse. cbn [s_questions]. now rewrite Hsame.
Qed.

Lemma resubmitted_questions_keep_ids_witness :
  let b := {| b_title := Some "Feedback"; b_description := None;
              b_elements :=
                Some (Some <$> (as_input <$> s_questions scenario_survey)) |} in
  (reachable scenario_store
   /\ surveys scenario_store !! "survey_1" = Some scenario_survey)
  /\ exists sv',
       surveys (fst (updateSurvey scenario_store "survey_1"
                       (Some "4fzyo82mvyr") b sample_env)) !! "survey_1"
       = Some sv'
       /\ s_questions sv' = s_questions scenario_survey.
Proof.
  intros b.
  assert (H1 : reachable scenario_store).
  { exists None, None, sample_env, [CreateSurvey scenario_body sample_env].
    reflexivity. }
  assert (H2 : surveys scenario_store !! "survey_1" = Some scenario_survey)
    by reflexivity.
  split; [split; [exact H1 | exact H2]|].
  destruct (resubmitted_questions_keep_ids scenario_store "survey_1"
              scenario_survey _ b sample_env H1 H2 eq_refl eq_refl eq_refl)
    as (sv' & Hsv' & Hqs & _).
  exists sv'. split; [exact Hsv' | exact Hqs].
Defined.

(** *** The links a creation returns *)

(** X11: a successful creation returns the id [survey_n] of the counter,
    which it increments; the pages are served for that id and for no
    other; the admin link it returns is the one of the home page, its
    token opens the admin view of a survey without responses, and the
    results are readable without a token. *)
Theorem created_links_work (st st' : store) (b : survey_body) (e : env)
    (c : created) :
  createSurvey st b e = (st', Ok c) ->
  c_id c = "survey_" +:+ string_of_Z (nextId st)
  /\ nextId st' = nextId st + 1
  /\ c_clientUrl c = origin e +:+ "/survey/" +:+ c_id c
  /\ pageServed st' (c_id c) = true
  /\ (forall other, other <> c_id c -> pageServed st' other = false)
  /\ homeAdminUrl st' (origin e) = Some (c_adminUrl c)
  /\ exists sv,
       getAdmin st' (c_id c) (Some (c_adminToken c)) = Ok sv
       /\ s_id sv = c_id c /\ s_responses sv = []
       /\ getResults st' (c_id c) None = Ok (aggregate sv).
Proof.
  unfold createSurvey. destruct (present (currentSurveyId st)); [discriminate|].
  destruct (invalid_body b); [discriminate|]. unfold generateId.
  destruct (b_questions b) as [qs|]; [|discriminate]. simpl.
  intros [= <- <-]. simpl.
  split; [reflexivity|]. split; [reflexivity|]. split; [reflexivity|].
  split; [unfold pageServed; now apply bool_decide_eq_true_2|].
  split; [intros other Hne; unfold pageServed; simpl;
          apply bool_decide_eq_false_2; congruence|].
  split; [reflexivity|].
  eexists. unfold getAdmin, getResults, surveyAt. simpl.
  rewrite lookup_insert_eq. simpl.
  rewrite bool_decide_eq_true_2 by reflexivity. simpl.
  repeat split; reflexivity.
Qed.

Lemma created_links_work_witness :
  exists st' c,
    createSurvey empty_store scenario_body sample_env = (st', Ok c)
    /\ pageServed st' (c_id c) = true
    /\ homeAdminUrl st' (origin sample_env) = Some (c_adminUrl c).
Proof.
  destruct (createSurvey empty_store scenario_body sample_env) as [st' o] eqn:E.
  destruct o as [c|f|]; try (vm_compute in E; discriminate E).
  exists st', c. split; [reflexivity|].
  destruct (created_links_work empty_store st' scenario_body sample_env c E)
    as (_ & _ & _ & Hpage & _ & Hhome & _).
  split; [exact Hpage | exact Hhome].
Defined.

(** *** The CSV export *)

Lemma readCsv_content (t rest f : string) row rows :
  readCsv (doubleQuotes t +:+ rest) InField f row rows
  = readCsv rest InField (f +:+ t) row rows.
Proof.
  revert f. induction t as [|c t IH]; intros f.
  - now rewrite append_empty_r.
  - cbn [doubleQuotes]. destruct (Ascii.eqb c quoteChar) eqn:E.
    + rewrite !append_String. cbn [readCsv]. rewrite ?E. cbn [readCsv].
      rewrite ?E. rewrite IH. now rewrite append_snoc.
    + rewrite append_String. cbn [readCsv]. rewrite ?E. rewrite IH.
      now rewrite append_snoc.
Qed.

Lemma readCsv_fields (fs : list string) (f rest : string) row rows :
  readCsv (concatStrings (map csvField fs) +:+ newline +:+ rest)
          QuoteSeen f row rows
  = readCsv rest FieldStart EmptyString [] (rows ++ [row ++ f :: fs]).
Proof.
  revert f row. induction fs as [|g fs IH]; intros f row.
  - reflexivity.
  - cbn [map concatStrings fold_right]. fold (concatStrings (map csvField fs)).
    unfold csvField at 1, quoted. rewrite !append_assoc.
    change ("," +:+ ?x) with (String ","%char x).
    change (dquote +:+ ?x) with (String quoteChar x).
    cbn [readCsv]. change (Ascii.eqb "," quoteChar) with false.
    change (Ascii.eqb "," ",") with true. cbv iota.
    change (Ascii.eqb quoteChar quoteChar) with true. cbv iota.
    rewrite readCsv_content.
    change (dquote +:+ ?x) with (String quoteChar x).
    cbn [readCsv]. change (Ascii.eqb quoteChar quoteChar) with true.
    cbv iota. change (EmptyString +:+ g) with g. rewrite IH.
    now rewrite <- app_assoc.
Qed.

Lemma readCsv_row (f1 : string) (fs : list string) (rest : string) rows :
  readCsv (quoted (doubleQuotes f1) +:+ concatStrings (map csvField fs)
           +:+ newline +:+ rest) FieldStart EmptyString [] rows
  = readCsv rest FieldStart EmptyString [] (rows ++ [f1 :: fs]).
Proof.
  unfold quoted. rewrite !append_assoc.
  change (dquote +:+ ?x) with (String quoteChar x).
  cbn [readCsv]. change (Ascii.eqb quoteChar quoteChar) with true. cbv iota.
  rewrite readCsv_content.
  change (dquote +:+ ?x) with (String quoteChar x).
  cbn [readCsv]. change (Ascii.eqb quoteChar quoteChar) with true. cbv iota.
  change (EmptyString +:+ f1) with f1. now rewrite readCsv_fields.
Qed.

Lemma doubleQuotes_quoteFree (s : string) :
  quoteFree s = true -> doubleQuotes s = s.
Proof.
  induction s as [|c s IH]; [reflexivity|]. cbn [quoteFree doubleQuotes].
  destruct (Ascii.eqb c quoteChar); [discriminate|]. simpl.
  intros H. now rewrite IH.
Qed.

(** A row, as the export writes it, is the CSV of its cells as long as the
    response's id and date hold no double quote. *)
Lemma csvRow_fields (qs : list question) (r : response) :
  quoteFree (r_id r) = true -> quoteFree (r_submittedAt r) = true ->
  csvRow qs r
  = quoted (doubleQuotes (r_id r))
    +:+ concatStrings
          (map csvField
               (r_submittedAt r
                :: map (fun q => csvCell (prop (r_data r) (q_id q))) qs))
    +:+ newline.
Proof.
  intros H1 H2. unfold csvRow. cbn [map concatStrings fold_right].
  change (csvField (r_submittedAt r))
    with ("," +:+ quoted (doubleQuotes (r_submittedAt r))).
  rewrite (doubleQuotes_quoteFree _ H1), (doubleQuotes_quoteFree _ H2).
  rewrite map_map. unfold concatStrings. now rewrite !append_assoc.
Qed.

Lemma csvHeader_fields (qs : list question) :
  csvHeader qs
  = quoted (doubleQuotes "Response ID")
    +:+ concatStrings (map csvField ("Submitted At" :: map q_text qs))
    +:+ newline.
Proof.
  unfold csvHeader. cbn [map concatStrings fold_right].
  change (csvField "Submitted At") with ("," +:+ quoted "Submitted At").
  change (doubleQuotes "Response ID") with "Response ID".
  rewrite map_map. unfold concatStrings. now rewrite !append_assoc.
Qed.

Lemma readCsv_rows (qs : list question) (rs : list response) rows :
  (forall r, r ∈ rs ->
     quoteFree (r_id r) = true /\ quoteFree (r_submittedAt r) = true) ->
  readCsv (concatStrings (map (csvRow qs) rs)) FieldStart EmptyString [] rows
  = Some (rows
          ++ map (fun r =>
                    r_id r :: r_submittedAt r
                    :: map (fun q => csvCell (prop (r_data r) (q_id q))) qs)
                 rs).
Proof.
  revert rows. induction rs as [|r rs IH]; intros rows H.
  - simpl. now rewrite app_nil_r.
  - cbn [map concatStrings fold_right]. fold (concatStrings (map (csvRow qs) rs)).
    destruct (H r ltac:(apply list_elem_of_here)) as [H1 H2].
    rewrite (csvRow_fields qs r H1 H2), !append_assoc.
    rewrite readCsv_row, IH
      by (intros r' Hr'; apply H; now apply list_elem_of_further).
    now rewrite <- app_assoc.
Qed.

(** X12: the CSV export reads back as the table of the survey: the row of
    titles, then for each response its id, its date and the text of each
    answer, with the double quotes of titles and answers restored;
    this holds as long as no response id or date holds a double quote,
    the two fields the export does not escape.  Every row has two fields
    more than the survey has questions. *)
Theorem csv_export_reads_back (st : store) (surveyId : string)
    (token : option string) (sv : survey) (text : string) :
  surveys st !! surveyId = Some sv ->
  exportCsv st surveyId token = Ok text ->
  (forall r, r ∈ s_responses sv ->
     quoteFree (r_id r) = true /\ quoteFree (r_submittedAt r) = true) ->
  parseCsv text = Some (csvTable sv)
  /\ length (csvTable sv) = S (length (s_responses sv))
  /\ forall row, row ∈ csvTable sv ->
       length row = (2 + length (s_questions sv))%nat.
Proof.
  intros Hsv Hexp Hfree. unfold exportCsv in Hexp.
  rewrite (surveyAt_own _ _ _ Hsv) in Hexp.
  destruct (negb _); [discriminate|]. injection Hexp as <-.
  split; [|split].
  - unfold parseCsv, csvText, csvTable.
    rewrite csvHeader_fields, !append_assoc.
    rewrite readCsv_row. now rewrite readCsv_rows.
  - unfold csvTable. simpl. now rewrite length_map.
  - intros row Hrow. unfold csvTable in Hrow.
    apply elem_of_cons in Hrow as [-> | Hrow].
    + simpl. now rewrite length_map.
    + apply list_elem_of_fmap in Hrow as (r & -> & _). simpl.
      now rewrite length_map.
Qed.

Lemma csv_export_reads_back_witness :
  let sv := sample_survey [text_question]
              (stored_answers "q_0"
                 [VStr (quoted "hi"); VArr [VStr "a"; VStr "b"]; VNum 7]) in
  surveys (sample_store sv) !! "survey_1" = Some sv
  /\ exportCsv (sample_store sv) "survey_1" (Some "k3y") = Ok (csvText sv)
  /\ parseCsv (csvText sv)
     = Some [ ["Response ID"; "Submitted At"; "Your name"];
              ["response_1"; "2024-01-01T00:00:00.000Z"; quoted "hi"];
              ["response_1"; "2024-01-01T00:00:00.000Z"; "a; b"];
              ["response_1"; "2024-01-01T00:00:00.000Z"; "7"] ].
Proof.
  intros sv.
  assert (H1 : surveys (sample_store sv) !! "survey_1" = Some sv)
    by reflexivity.
  assert (H2 : exportCsv (sample_store sv) "survey_1" (Some "k3y")
               = Ok (csvText sv)) by reflexivity.
  assert (H3 : forall r, r ∈ s_responses sv ->
                 quoteFree (r_id r) = true
                 /\ quoteFree (r_submittedAt r) = true).
  { intros r Hr. apply list_elem_of_In in Hr. simpl in Hr.
    destruct Hr as [<- | [<- | [<- | []]]]; split; reflexivity. }
  split; [exact H1|]. split; [exact H2|].
  exact (proj1 (csv_export_reads_back (sample_store sv) "survey_1"
                  (Some "k3y") sv (csvText sv) H1 H2 H3)).
Defined.

(** *** Where the stored responses come from *)

Lemma quoteFree_app (a b : string) :
  quoteFree (a +:+ b) = quoteFree a && quoteFree b.
Proof.
  induction a as [|c a IH]; [reflexivity|].
  rewrite append_String. cbn [quoteFree]. rewrite IH. now rewrite andb_assoc.
Qed.

Lemma quoteFree_substring (s : string) (n m : nat) :
  quoteFree s = true -> quoteFree (substring n m s) = true.
Proof.
  revert n m. induction s as [|c s IH]; intros n m H.
  - now destruct n, m.
  - cbn [quoteFree] in H. apply andb_true_iff in H as [Hc Hs].
    destruct n as [|n]; [destruct m as [|m]|]; cbn [substring].
    + reflexivity.
    + cbn [quoteFree]. now rewrite Hc, IH.
    + now apply IH.
Qed.

Lemma quoteFree_digits (d : Decimal.uint) :
  quoteFree (NilEmpty.string_of_uint d) = true.
Proof. induction d; [reflexivity | exact IHd ..]. Qed.

Lemma quoteFree_string_of_Z (n : Z) : quoteFree (string_of_Z n) = true.
Proof.
  unfold string_of_Z, NilZero.string_of_int.
  destruct (Z.to_int n) as [d|d]; [|change (quoteFree (NilZero.string_of_uint d) = true)];
    (destruct d; [reflexivity | apply (quoteFree_digits (_ _)) ..]).
Qed.

Lemma new_response_quoteFree (body : gmap string value) (e : env) :
  quoteFree (random36 e) = true -> quoteFree (now_iso e) = true ->
  quoteFree (r_id (new_response body e)) = true
  /\ quoteFree (r_submittedAt (new_response body e)) = true.
Proof.
  intros Hr Hn. split; [|exact Hn]. cbn [new_response r_id].
  rewrite !quoteFree_app, quoteFree_string_of_Z.
  unfold random_suffix. now rewrite quoteFree_substring.
Qed.

Lemma initializeSurvey_responses (st : store) (d : option survey_data)
    (e : env) (k : string) (sv : survey) :
  surveys (fst (initializeSurvey st d e)) !! k = Some sv ->
  surveys st !! k = Some sv \/ s_responses sv = [].
Proof.
  unfold initializeSurvey. destruct d as [d|]; [|now left].
  destruct (present (sd_surveyId d)); cbn [fst surveys generateId]; intros H.
  - destruct (decide (or_else (sd_surveyId d) EmptyString = k)) as [<-|Hne].
    + rewrite lookup_insert_eq in H. injection H as <-. now right.
    + rewrite lookup_insert_ne in H by exact Hne. now left.
  - destruct (decide ("survey_" +:+ string_of_Z (nextId st) = k)) as [<-|Hne].
    + rewrite lookup_insert_eq in H. injection H as <-. now right.
    + rewrite lookup_insert_ne in H by exact Hne. now left.
Qed.

Lemma boot_responses (w f : option survey_data) (e : env) (k : string)
    (sv : survey) :
  surveys (boot w f e) !! k = Some sv -> s_responses sv = [].
Proof.
  assert (H1 : forall k sv,
             surveys (fst (initializeSurvey empty_store w e)) !! k = Some sv ->
             s_responses sv = []).
  { intros k' sv' H. apply initializeSurvey_responses in H as [H|H]; [|exact H].
    cbn in H. now rewrite lookup_empty in H. }
  unfold boot. cbv zeta. destruct f as [d|]; [|apply H1].
  destruct (present (sd_surveyId d)); [|apply H1].
  intros H. apply initializeSurvey_responses in H as [H|H]; [|exact H].
  now apply H1 in H.
Qed.

Lemma handle_responses (st : store) (rq : request) (k : string) (sv' : survey)
    (r : response) :
  surveys (fst (handle st rq)) !! k = Some sv' -> r ∈ s_responses sv' ->
  (exists sv, surveys st !! k = Some sv /\ r ∈ s_responses sv)
  \/ submitted_by [rq] r.
Proof.
  intros Hk Hr.
  destruct rq as [b e|sid tok b e|sid|sid tok|sid body e|sid tok];
    cbn [handle] in Hk.
  - unfold createSurvey in Hk. destruct (present (currentSurveyId st)).
    { left. now exists sv'. }
    destruct (invalid_body b). { left. now exists sv'. }
    unfold generateId in Hk.
    destruct (b_questions b). 2:{ left. now exists sv'. }
    cbn in Hk.
    match type of Hk with
    | <[?i := _]> _ !! _ = _ => destruct (decide (i = k)) as [<-|Hne]
    end.
    + rewrite lookup_insert_eq in Hk. injection Hk as <-. cbn in Hr.
      now apply elem_of_nil in Hr.
    + rewrite lookup_insert_ne in Hk by exact Hne. left. now exists sv'.
  - unfold updateSurvey, surveyAt in Hk.
    destruct (surveys st !! sid) as [sv|] eqn:E.
    2:{ left. exists sv'. split; [|exact Hr].
        destruct (inherited sid); [|exact Hk].
        destruct (negb _); [exact Hk|].
        destruct (invalid_body b); [exact Hk|].
        destruct (b_questions b); exact Hk. }
    destruct (negb _). { left. now exists sv'. }
    destruct (invalid_body b). { left. now exists sv'. }
    destruct (b_questions b); cbn in Hk; unfold with_survey in Hk; cbn in Hk;
      (destruct (decide (sid = k)) as [<-|Hne];
       [rewrite lookup_insert_eq in Hk; injection Hk as <-; cbn in Hr;
        left; now exists sv
       |rewrite lookup_insert_ne in Hk by exact Hne; left; now exists sv']).
  - left. now exists sv'.
  - left. now exists sv'.
  - unfold submitResponse, surveyAt in Hk.
    destruct (surveys st !! sid) as [sv|] eqn:E.
    2:{ left. exists sv'. split; [|exact Hr].
        destruct (inherited sid); exact Hk. }
    cbv zeta in Hk. destruct (validateResponse sv body).
    2:{ left. now exists sv'. }
    cbn in Hk. unfold with_survey in Hk. cbn in Hk.
    destruct (decide (sid = k)) as [<-|Hne].
    + rewrite lookup_insert_eq in Hk. injection Hk as <-. cbn in Hr.
      apply elem_of_app in Hr as [Hr|Hr].
      * left. now exists sv.
      * apply list_elem_of_singleton in Hr as ->. right.
        exists sid, body, e. split; [apply list_elem_of_here | reflexivity].
    + rewrite lookup_insert_ne in Hk by exact Hne. left. now exists sv'.
  - left. now exists sv'.
Qed.

Lemma run_responses (rqs : list request) (st : store) (k : string)
    (sv' : survey) (r : response) :
  surveys (run st rqs) !! k = Some sv' -> r ∈ s_responses sv' ->
  (exists sv, surveys st !! k = Some sv /\ r ∈ s_responses sv)
  \/ submitted_by rqs r.
Proof.
  revert st. induction rqs as [|rq rqs IH]; intros st Hk Hr.
  - left. now exists sv'.
  - change (run st (rq :: rqs)) with (run (fst (handle st rq)) rqs) in Hk.
    destruct (IH _ Hk Hr) as [(sv & Hsv & Hin)|(sid & body & e & Hin & ->)].
    + destruct (handle_responses _ _ _ _ _ Hsv Hin)
        as [H|(sid & body & e & Hin' & ->)]; [now left|].
      right. exists sid, body, e. split; [|reflexivity].
      apply list_elem_of_singleton in Hin' as ->. apply list_elem_of_here.
    + right. exists sid, body, e. split; [|reflexivity].
      now apply list_elem_of_further.
Qed.

(** X13: every response stored after a run of the server was created by
    a submission request of that run, from its body and its clock; its id
    and date hold no double quote when the random string and the date of
    that request hold none. *)
Theorem responses_come_from_submissions
    (window_data file_data : option survey_data) (e0 : env)
    (rqs : list request) (surveyId : string) (sv : survey) (r : response) :
  surveys (run (boot window_data file_data e0) rqs) !! surveyId = Some sv ->
  r ∈ s_responses sv ->
  exists target body e,
    SubmitResponse target body e ∈ rqs
    /\ r = new_response body e
    /\ r_data r = body
    /\ r_submittedAt r = now_iso e
    /\ (quoteFree (random36 e) = true -> quoteFree (now_iso e) = true ->
        quoteFree (r_id r) = true /\ quoteFree (r_submittedAt r) = true).
Proof.
  intros Hk Hr.
  destruct (run_responses _ _ _ _ _ Hk Hr)
    as [(sv0 & Hsv0 & Hin)|(sid & body & e & Hin & ->)].
  - apply boot_responses in Hsv0. rewrite Hsv0 in Hin.
    now apply elem_of_nil in Hin.
  - exists sid, body, e. split; [exact Hin|]. split; [reflexivity|].
    split; [reflexivity|]. split; [reflexivity|].
    apply new_response_quoteFree.
Qed.

Lemma responses_come_from_submissions_witness :
  let rqs := [CreateSurvey scenario_body sample_env;
              SubmitResponse "survey_1" scenario_answers sample_env] in
  let r := new_response scenario_answers sample_env in
  surveys (run (boot None None sample_env) rqs) !! "survey_1"
  = Some (push_response scenario_survey r)
  /\ r_id r = "response_1704067200000_4fzyo82mv"
  /\ exists target body e,
       SubmitResponse target body e ∈ rqs /\ r = new_response body e.
Proof.
  intros rqs r.
  assert (H1 : surveys (run (boot None None sample_env) rqs) !! "survey_1"
               = Some (push_response scenario_survey r)) by reflexivity.
  assert (H2 : r ∈ s_responses (push_response scenario_survey r))
    by apply list_elem_of_here.
  split; [exact H1|]. split; [reflexivity|].
  destruct (responses_come_from_submissions None None sample_env rqs
              "survey_1" _ r H1 H2) as (target & body & e & Hin & Hr & _).
  now exists target, body, e.
Defined.

(** *** Means that are integers *)

(** X14: when the values are integers whose mean is an integer [m],
    and 200 times the sum of their magnitudes and their number are below
    [2^53], their sum is added up without rounding and the average is
    printed as [m] followed by [.00]. *)
Theorem average_of_exact_mean (zs : list Z) (m : Z) :
  zs <> [] ->
  foldr Z.add 0 zs = m * Z.of_nat (length zs) ->
  200 * magnitude zs < 2 ^ 53 ->
  Z.of_nat (length zs) < 2 ^ 53 ->
  total (Int <$> zs) = Int (m * Z.of_nat (length zs))
  /\ average (Int <$> zs)
     = Some (Digits ((if m <? 0 then "-" else EmptyString)
                     +:+ string_of_Z (Z.abs m) +:+ ".00")).
Proof.
  intros Hne Hsum Hmag Hlen. split.
  { rewrite <- Hsum. apply total_ints.
    pose proof (magnitude_nonneg zs). lia. }
  destruct (average_nearest zs Hne Hmag Hlen) as (h & -> & Hh & Hnear).
  assert (Hn : 0 < Z.of_nat (length zs))
    by (destruct zs; [congruence | simpl; lia]).
  set (n := Z.of_nat (length zs)) in *.
  assert (Habs : Z.abs (foldr Z.add 0 zs) = Z.abs m * n)
    by (rewrite Hsum, Z.abs_mul; lia).
  rewrite Habs in Hnear.
  assert (Hh' : h = Z.abs m * 100) by nia.
  assert (Hsign : (foldr Z.add 0 zs <? 0) = (m <? 0)).
  { rewrite Hsum. destruct (Z.ltb_spec (m * n) 0), (Z.ltb_spec m 0);
      try reflexivity; nia. }
  rewrite Hsign, Hh'. unfold fixed2.
  now rewrite Z.div_mul, Z.mod_mul by lia.
Qed.

Lemma average_of_exact_mean_witness :
  average [Int 2; Int 4; Int 6] = Some (Digits "4.00")
  /\ average [Int (-3); Int (-3)] = Some (Digits "-3.00").
Proof.
  split.
  - apply (average_of_exact_mean [2; 4; 6] 4);
      [discriminate | reflexivity | reflexivity | reflexivity].
  - apply (average_of_exact_mean [-3; -3] (-3));
      [discriminate | reflexivity | reflexivity | reflexivity].
Defined.

(** *** The order of the option counts *)

Lemma arrayIndex_name (k : string) (n : Z) :
  Obj.arrayIndex k = Some n -> k = string_of_Z n.
Proof.
  unfold Obj.arrayIndex. destruct (radixDigits 10 k None) as [m|]; [|discriminate].
  destruct (m <=? 4294967294); [|discriminate]. simpl.
  destruct (String.eqb (string_of_Z m) k) eqn:E; [|discriminate].
  intros [= <-]. apply String.eqb_eq in E. now symmetry.
Qed.

Lemma index_first_snoc (ks : list string) (k : string) :
  index_first ks -> Obj.arrayIndex k = None -> index_first (ks ++ [k]).
Proof.
  intros H Hk. induction ks as [|k0 ks IH]; simpl.
  - split; [|exact I]. intros b nb Hb. now apply elem_of_nil in Hb.
  - destruct H as [H1 H2]. split; [|now apply IH].
    intros b nb Hb Hnb. apply elem_of_app in Hb as [Hb|Hb].
    + now apply (H1 b nb).
    + apply list_elem_of_singleton in Hb as ->. congruence.
Qed.

Lemma index_first_insert {V} (o : list (string * V)) (n : Z) (k : string)
    (v : V) :
  index_first o.*1 -> Obj.arrayIndex k = Some n -> k ∉ o.*1 ->
  index_first (Obj.insert_index o n k v).*1.
Proof.
  intros H Hk. induction o as [|[k0 v0] o IH]; intros Hnew.
  - simpl. split; [|exact I]. intros b nb Hb. now apply elem_of_nil in Hb.
  - cbn [fmap list_fmap fst] in H, Hnew. destruct H as [H1 H2].
    apply not_elem_of_cons in Hnew as [Hne Hnew].
    cbn [Obj.insert_index].
    destruct (Obj.arrayIndex k0) as [n0|] eqn:E0.
    + destruct (n <? n0) eqn:Elt.
      * apply Z.ltb_lt in Elt. cbn. rewrite E0.
        split; [|split; [exact H1 | exact H2]].
        intros b nb Hb Hnb. exists n. split; [exact Hk|].
        apply elem_of_cons in Hb as [-> | Hb].
        -- rewrite E0 in Hnb. injection Hnb as <-. exact Elt.
        -- destruct (H1 b nb Hb Hnb) as (n' & Hn' & Hlt).
           injection Hn' as <-. lia.
      * apply Z.ltb_ge in Elt. cbn. rewrite E0. split; [|now apply IH].
        intros b nb Hb Hnb. exists n0. split; [reflexivity|].
        rewrite keys_insert_index in Hb.
        apply elem_of_cons in Hb as [-> | Hb].
        -- rewrite Hk in Hnb. injection Hnb as <-.
           destruct (Z.eq_dec n n0) as [->|]; [|lia].
           apply arrayIndex_name in Hk, E0. congruence.
        -- destruct (H1 b nb Hb Hnb) as (n' & Hn' & Hlt).
           now injection Hn' as <-.
    + cbn. rewrite E0. split; [|split; [exact H1 | exact H2]].
      intros b nb Hb Hnb. apply elem_of_cons in Hb as [-> | Hb];
        [congruence|].
      destruct (H1 b nb Hb Hnb) as (n' & Hn' & _). congruence.
Qed.

Lemma index_first_set {V} (o : list (string * V)) (k : string) (v : V) :
  index_first o.*1 -> index_first (Obj.set o k v).*1.
Proof.
  intros H. unfold Obj.set. destruct (Obj.get o k) as [v0|] eqn:E.
  - now rewrite keys_replace.
  - apply get_None_keys in E. destruct (Obj.arrayIndex k) as [n|] eqn:Ek.
    + now apply index_first_insert.
    + rewrite fmap_app. now apply index_first_snoc.
Qed.

Lemma declared_index_first (opts : list choice) :
  index_first (fold_left declare opts []).*1.
Proof.
  induction opts as [|x opts IH] using rev_ind; [exact I|].
  rewrite fold_left_app. simpl. unfold declare at 1.
  destruct (String.eqb (opt_id x) "__proto__"); [exact IH|].
  now apply index_first_set.
Qed.

Lemma bump_same_keys (o : list (string * cell)) (a : value) :
  (bump o a).*1 = o.*1.
Proof.
  unfold bump. destruct (Obj.get o (ToString a)) as [c|] eqn:E; [|reflexivity].
  unfold Obj.set. rewrite E. apply keys_replace.
Qed.

Lemma tally_same_keys (o : list (string * cell)) (answer : value) :
  (tally o answer).*1 = o.*1.
Proof.
  unfold tally. destruct (truthy answer); [|reflexivity].
  assert (H : forall l o, (fold_left bump l o).*1 = o.*1).
  { induction l as [|a l IH]; intros o'; [reflexivity|]. simpl.
    now rewrite IH, bump_same_keys. }
  destruct answer; try apply bump_same_keys. apply H.
Qed.

Lemma fold_tally_same_keys (l : list value) (o : list (string * cell)) :
  (fold_left tally l o).*1 = o.*1.
Proof.
  revert o. induction l as [|a l IH]; intros o; [reflexivity|]. simpl.
  now rewrite IH, tally_same_keys.
Qed.

(** Options whose ids are distinct and no array indices are declared in
    their order, the one named [__proto__] left out. *)
Lemma declared_in_order (opts : list choice) :
  NoDup (map opt_id opts) ->
  (forall o, o ∈ opts -> Obj.arrayIndex (opt_id o) = None) ->
  fold_left declare opts []
  = map (fun o => (opt_id o, {| label := opt_label o; count := 0 |}))
        (List.filter (fun o => negb (String.eqb (opt_id o) "__proto__")) opts).
Proof.
  induction opts as [|x opts IH] using rev_ind; intros Hnd Hidx;
    [reflexivity|].
  rewrite map_app in Hnd. apply NoDup_app in Hnd as (Hnd & Hsep & _).
  rewrite fold_left_app, List.filter_app, map_app. simpl.
  rewrite IH by (auto; intros o Ho; apply Hidx, elem_of_app; now left).
  unfold declare.
  destruct (String.eqb (opt_id x) "__proto__"); simpl;
    [now rewrite app_nil_r|].
  unfold Obj.set.
  rewrite (Hidx x) by (apply elem_of_app; right; apply list_elem_of_here).
  replace (Obj.get _ (opt_id x)) with (@None cell); [reflexivity|].
  symmetry. apply get_None_keys. rewrite <- list_fmap_compose.
  intros Hin. apply (Hsep (opt_id x)); [|apply list_elem_of_here].
  apply list_elem_of_fmap in Hin as (o & Ho & Hin).
  apply list_elem_of_In, List.filter_In in Hin as [Hin _].
  apply list_elem_of_In in Hin. apply list_elem_of_fmap. now exists o.
Qed.

Lemma obj_ext {V} (o o' : list (string * V)) :
  o.*1 = o'.*1 -> NoDup o.*1 ->
  (forall k, Obj.get o k = Obj.get o' k) -> o = o'.
Proof.
  revert o'. induction o as [|[k0 v0] o IH]; intros [|[k1 v1] o'] Hk Hnd Hget;
    try discriminate Hk; [reflexivity|].
  cbn in Hk. injection Hk as <- Hk. apply NoDup_cons in Hnd as [Hk0 Hnd].
  pose proof (Hget k0) as H0. cbn in H0. rewrite String.eqb_refl in H0.
  injection H0 as <-. f_equal. apply IH; [exact Hk | exact Hnd|].
  intros k. pose proof (Hget k) as H. cbn in H.
  destruct (String.eqb k0 k) eqn:E; [|exact H].
  apply String.eqb_eq in E. subst k.
  transitivity (@None V); [|symmetry]; apply get_None_keys;
    [exact Hk0 | now rewrite <- Hk].
Qed.

Lemma get_map_values {V} (f : string -> V -> V) (o : list (string * V))
    (k : string) :
  Obj.get (map (fun kv => (fst kv, f (fst kv) (snd kv))) o) k
  = f k <$> Obj.get o k.
Proof.
  induction o as [|[k0 v0] o IH]; [reflexivity|]. cbn.
  destruct (String.eqb k0 k) eqn:E; [|exact IH].
  apply String.eqb_eq in E. now subst.
Qed.

Lemma fold_tally_values (l : list value) (o : list (string * cell)) :
  NoDup o.*1 ->
  fold_left tally l o
  = map (fun kv => (fst kv, add_count (total_occurrences (fst kv) l) (snd kv)))
        o.
Proof.
  intros Hnd. apply obj_ext.
  - rewrite fold_tally_same_keys. rewrite <- list_fmap_compose.
    now apply list_fmap_ext.
  - now rewrite fold_tally_same_keys.
  - intros k. rewrite get_fold_tally.
    now rewrite (get_map_values (fun k c => add_count (total_occurrences k l) c)).
Qed.

(** With distinct option ids that are no array indices, the results list
    the options as they are declared. *)
Lemma option_lines_in_order (q : question) (rs : list response) :
  NoDup (validOptions q) ->
  (forall o, o ∈ q_options q -> Obj.arrayIndex (opt_id o) = None) ->
  map entry (optionCounts q rs)
  = map (option_line q rs)
        (List.filter (fun o => negb (String.eqb (opt_id o) "__proto__"))
                     (q_options q)).
Proof.
  intros Hnd Hidx. unfold optionCounts.
  rewrite fold_tally_values by apply declared_keys.
  rewrite (declared_in_order _ Hnd Hidx), !map_map.
  apply map_ext. intros o. reflexivity.
Qed.

(** X15: the option counts list the ids that are array indices first, in
    increasing order, and never the id [__proto__]; when the ids are
    distinct and none is an array index, they list the options as declared,
    the one named [__proto__] left out, each with its label and the number
    of times it was chosen. *)
Theorem option_counts_order (q : question) (rs : list response) :
  let lines := map entry (optionCounts q rs) in
  index_first (map or_id lines)
  /\ (forall r, r ∈ lines -> or_id r <> "__proto__")
  /\ (NoDup (validOptions q) ->
      (forall o, o ∈ q_options q -> Obj.arrayIndex (opt_id o) = None) ->
      lines
      = map (option_line q rs)
            (List.filter (fun o => negb (String.eqb (opt_id o) "__proto__"))
                         (q_options q))).
Proof.
  intros lines. split; [|split].
  - unfold lines, optionCounts. rewrite map_map.
    change (map (fun x => or_id (entry x)) ?l) with (l.*1).
    rewrite fold_tally_same_keys. apply declared_index_first.
  - intros r Hr.
    destruct (optionCounts_entries q rs) as (_ & Hin & _).
    now apply Hin.
  - apply option_lines_in_order.
Qed.

Lemma option_counts_order_witness :
  let q := pick_question in
  let rs := stored_answers "q_1" [VStr "b"; VArr [VStr "a"; VStr "b"]; VStr "c"] in
  NoDup (validOptions q)
  /\ map entry (optionCounts q rs)
     = [ {| or_id := "a"; or_label := "A"; or_count := 1 |};
         {| or_id := "b"; or_label := "B"; or_count := 2 |} ].
Proof.
  intros q rs.
  assert (Hnd : NoDup (validOptions q)).
  { apply NoDup_cons. split; [|apply NoDup_singleton].
    intros H. apply list_elem_of_singleton in H. discriminate H. }
  split; [exact Hnd|].
  refine (proj2 (proj2 (option_counts_order q rs)) Hnd _).
  intros o Ho. apply list_elem_of_In in Ho.
  destruct Ho as [<- | [<- | []]]; reflexivity.
Defined.

(** *** What an accepted submission adds to the results *)








(** *** From the form of the creator to the served survey *)

Lemma parseInt_or_nonzero (s : string) (d : Z) :
  d <> 0 -> parseInt_or s d <> 0.
Proof.
  intros Hd. unfold parseInt_or.
  destruct (parseInt (VStr s)) as [|n|neg]; try exact Hd.
  destruct (n =? 0) eqn:E; [exact Hd | now apply Z.eqb_neq].
Qed.

Lemma cardOption_not_proto (idx : nat) (text : string) :
  negb (String.eqb (opt_id (cardOption idx text)) "__proto__") = true.
Proof. reflexivity. Qed.

Lemma cardOption_not_index (idx : nat) (text : string) :
  Obj.arrayIndex (opt_id (cardOption idx text)) = None.
Proof. reflexivity. Qed.

(** The server started on a survey that names its id. *)
Lemma boot_file_survey (d : survey_data) (e : env) (surveyId : string) :
  sd_surveyId d = Some surveyId -> surveyId <> EmptyString ->
  boot None (Some d) e
  = {| surveys :=
         {[ surveyId :=
              {| s_id := surveyId;
                 s_title := sd_title d;
                 s_description := or_else (sd_description d) EmptyString;
                 s_questions := assign_ids (sd_questions d);
                 s_responses := [];
                 s_createdAt := now_iso e;
                 s_adminToken := or_else (sd_adminToken d) (random_token e);
                 s_updatedAt := None |} ]};
       nextId := 1;
       currentSurveyId := Some surveyId;
       currentSurveyAdminToken :=
         Some (or_else (sd_adminToken d) (random_token e)) |}.
Proof.
  intros Hid Hne. unfold boot. cbn [initializeSurvey fst].
  assert (Hp : present (sd_surveyId d) = true)
    by (rewrite Hid; now apply present_some).
  rewrite Hp, Hid, (or_else_some _ _ Hne). cbn [fst empty_store surveys nextId s_adminToken].
  now rewrite insert_empty.
Qed.

(** X17: a form the creator accepts has a title and a question; the
    server started on its survey serves it under the id the creator chose,
    with question ids [q_i], option ids [opt_j] listed in the results in
    their order, and scale bounds that are never 0; the admin page the
    creator opens is the one of the home page and its token opens the
    admin view, unless the random token came out empty. *)
Theorem form_survey_is_served (f : form) (client server : env)
    (d : survey_data) :
  handleSurveyCreation f client = Some d ->
  let st := boot None (Some d) server in
  let surveyId := "survey_" +:+ string_of_Z (now_ms client) in
  f_title f <> EmptyString /\ f_cards f <> []
  /\ currentSurveyId st = Some surveyId
  /\ pageServed st surveyId = true
  /\ exists sv,
       surveys st = {[ surveyId := sv ]}
       /\ s_id sv = surveyId /\ s_title sv = f_title f
       /\ s_responses sv = []
       /\ (random_token client <> EmptyString ->
           forall url,
             homeAdminUrl st url = Some (portalAdminUrl url d)
             /\ getAdmin st surveyId (Some (random_token client)) = Ok sv)
       /\ length (s_questions sv) = length (f_cards f)
       /\ forall i c, f_cards f !! i = Some c ->
            exists q, s_questions sv !! i = Some q
              /\ q_id q = "q_" +:+ string_of_nat i
              /\ q_text q = c_text c
              /\ q_required q = c_required c
              /\ q_type q = c_type c
              /\ (q_type q = Scale ->
                  q_minValue q = parseInt_or (c_min c) 1
                  /\ q_maxValue q = parseInt_or (c_max c) 5
                  /\ q_minValue q <> 0 /\ q_maxValue q <> 0)
              /\ (q_type q = SingleChoice \/ q_type q = MultipleChoice ->
                  q_options q = imap cardOption (c_options c)
                  /\ NoDup (validOptions q)
                  /\ forall rs, map entry (optionCounts q rs)
                                = map (option_line q rs) (q_options q)).
Proof.
  unfold handleSurveyCreation. cbv zeta.
  destruct (String.eqb (f_title f) EmptyString) eqn:Et; [discriminate|].
  destruct (Nat.eqb (length (map cardQuestion (f_cards f))) 0) eqn:El;
    [discriminate|].
  intros [= <-]. apply String.eqb_neq in Et. apply Nat.eqb_neq in El.
  rewrite length_map in El.
  split; [exact Et|]. split; [now destruct (f_cards f)|].
  rewrite (boot_file_survey _ server ("survey_" +:+ string_of_Z (now_ms client)))
    by (reflexivity || discriminate).
  cbn [sd_title sd_description sd_questions sd_adminToken currentSurveyId
       surveys].
  split; [reflexivity|].
  split; [unfold pageServed; now apply bool_decide_eq_true|].
  eexists. split; [reflexivity|]. cbn [s_id s_title s_responses s_questions].
  split; [reflexivity|]. split; [reflexivity|]. split; [reflexivity|].
  split; [|split].
  - intros Htok url. rewrite (or_else_some _ _ Htok). split.
    + reflexivity.
    + unfold getAdmin, surveyAt. cbn [surveys]. rewrite lookup_singleton_eq.
      cbn [s_adminToken]. now rewrite bool_decide_eq_true_2.
  - now rewrite assign_ids_length, length_map.
  - intros i c Hc. rewrite assign_ids_lookup, list_lookup_fmap, Hc.
    exists (assign_id i (cardQuestion c)). split; [reflexivity|].
    set (q := assign_id i (cardQuestion c)).
    split; [reflexivity|]. split; [reflexivity|]. split; [reflexivity|].
    split; [reflexivity|]. split.
    + intros Hty. change (c_type c = Scale) in Hty.
      assert (Hlo : q_minValue q = parseInt_or (c_min c) 1)
        by (unfold q; cbn [assign_id cardQuestion q_minValue q_type];
            now rewrite Hty).
      assert (Hhi : q_maxValue q = parseInt_or (c_max c) 5)
        by (unfold q; cbn [assign_id cardQuestion q_maxValue q_type];
            now rewrite Hty).
      split; [exact Hlo|]. split; [exact Hhi|]. rewrite Hlo, Hhi.
      split; apply parseInt_or_nonzero; discriminate.
    + intros Hty.
      change (c_type c = SingleChoice \/ c_type c = MultipleChoice) in Hty.
      assert (Hq : q_options q = imap cardOption (c_options c))
        by (unfold q; cbn [assign_id cardQuestion q_options q_type];
            destruct Hty as [-> | ->]; reflexivity).
      assert (Hnd : NoDup (validOptions q)).
      { unfold validOptions. rewrite Hq.
        apply (positional_names_distinct "opt_"). intros j o Hj.
        rewrite list_lookup_imap in Hj.
        destruct (c_options c !! j); [|discriminate]. now injection Hj as <-. }
      split; [exact Hq|]. split; [exact Hnd|]. intros rs.
      assert (Hopt : forall o, o ∈ q_options q ->
                exists j text, o = cardOption j text).
      { intros o Hin. rewrite Hq in Hin.
        apply list_elem_of_lookup in Hin as [j Hj].
        rewrite list_lookup_imap in Hj.
        destruct (c_options c !! j) as [text|]; [|discriminate].
        injection Hj as <-. now exists j, text. }
      rewrite option_lines_in_order; [|exact Hnd|].
      * f_equal. apply forallb_filter_id, forallb_forall.
        intros o Hin. apply list_elem_of_In in Hin.
        destruct (Hopt o Hin) as (j & text & ->).
        apply cardOption_not_proto.
      * intros o Hin. destruct (Hopt o Hin) as (j & text & ->).
        apply cardOption_not_index.
Qed.

Lemma form_survey_is_served_witness :
  let f :=
    {| f_title := "Lunch"; f_description := EmptyString;
       f_cards :=
         [ {| c_text := "Dish"; c_type := SingleChoice; c_required := true;
              c_options := ["Soup"; "Salad"];
              c_min := EmptyString; c_max := EmptyString |};
           {| c_text := "Rate"; c_type := Scale; c_required := false;
              c_options := []; c_min := "0"; c_max := "7.5" |} ] |} in
  exists d,
    handleSurveyCreation f sample_env = Some d
    /\ currentSurveyId (boot None (Some d) sample_env)
       = Some "survey_1704067200000"
    /\ map (fun q => (q_id q, validOptions q, q_minValue q, q_maxValue q))
           (assign_ids (sd_questions d))
       = [ ("q_0", ["opt_0"; "opt_1"], 0, 0); ("q_1", [], 1, 7) ].
Proof.
  intros f. eexists. split; [reflexivity|].
  split; [|reflexivity].
  destruct (form_survey_is_served f sample_env sample_env _ eq_refl)
    as (_ & _ & H & _).
  exact H.
Defined.

(** *** A scale whose bounds are inverted *)




(** *** The admin token *)


